(** * xArm controller: shallow embedding and verified properties

    The development embeds the two controller classes of the repository,

    - [XArmController]        (src/app/xarm_controller_lib.py), and
    - [XArmGradioController]  (src/app/app_xarm_memoryloop.py),

    together with [ArmState] (src/app/xarm_state_lib.py).

    Modelling conventions.
    - Python [float] values are idealised as real numbers ([R]); Python
      [int] return codes are [Z]; a Python [str] is the [string] of its
      UTF-8 bytes.
    - A method is a computation in the monad [M]: it threads the object
      (its fields) and the trace of SDK calls issued so far, and ends
      either with a value or with a raised exception carrying its message.
      Fields written before an exception is raised stay written, as in
      Python.
    - The robot is an [Arm]: one function per SDK method, each of which
      may depend on the whole trace of earlier calls and either returns or
      raises.  Theorems quantify over every [Arm]. *)

From Stdlib Require Import Reals Lra Lia ZArith List String Ascii Bool RNsatz.
From Stdlib Require Import DecimalString.
Import ListNotations.

Open Scope string_scope.

(* ================================================================== *)
(** * Python built-ins used by the sources *)
(* ================================================================== *)

Module Py.

(** [max(a, b)]: the first argument unless the second is larger. *)
Definition max (a b : R) : R := if Rlt_dec a b then b else a.

(** [min(a, b)]: the first argument unless the second is smaller. *)
Definition min (a b : R) : R := if Rlt_dec b a then b else a.

(** [math.radians]. *)
Definition radians (x : R) : R := (x * (PI / 180))%R.

(** [str(n)] for an integer. *)
Definition str_of_Z (z : Z) : string := NilZero.string_of_int (Z.to_int z).

Definition str_of_nat (n : nat) : string := str_of_Z (Z.of_nat n).

(** [", ".join(l)]. *)
Fixpoint join (sep : string) (l : list string) : string :=
  match l with
  | [] => ""
  | [s] => s
  | s :: rest => s ++ sep ++ join sep rest
  end.

(** [str.lower] on ASCII letters. *)
Definition lower_ascii (c : ascii) : ascii :=
  let n := nat_of_ascii c in
  if andb (Nat.leb 65 n) (Nat.leb n 90) then ascii_of_nat (n + 32) else c.

Fixpoint lower (s : string) : string :=
  match s with
  | EmptyString => EmptyString
  | String c rest => String (lower_ascii c) (lower rest)
  end.

(** White space as [str.strip] sees it: the characters for which
    [str.isspace] holds, U+0009..U+000D, U+001C..U+001F, U+0020, U+0085,
    U+00A0, U+1680, U+2000..U+200A, U+2028, U+2029, U+202F, U+205F and
    U+3000.  A [string] holds the UTF-8 encoding of a Python [str], so a
    white-space character is one, two or three bytes long. *)
Definition is_space (c : ascii) : bool :=
  let n := nat_of_ascii c in
  Nat.eqb n 32
  || (Nat.leb 9 n && Nat.leb n 13)
  || (Nat.leb 28 n && Nat.leb n 31).

(** U+0085 and U+00A0. *)
Definition is_space2 (c1 c2 : ascii) : bool :=
  let n1 := nat_of_ascii c1 in
  let n2 := nat_of_ascii c2 in
  Nat.eqb n1 194 && (Nat.eqb n2 133 || Nat.eqb n2 160).

(** U+1680, U+2000..U+200A, U+2028, U+2029, U+202F, U+205F and U+3000. *)
Definition is_space3 (c1 c2 c3 : ascii) : bool :=
  let n1 := nat_of_ascii c1 in
  let n2 := nat_of_ascii c2 in
  let n3 := nat_of_ascii c3 in
  (Nat.eqb n1 225 && Nat.eqb n2 154 && Nat.eqb n3 128)
  || (Nat.eqb n1 226 && Nat.eqb n2 128
      && ((Nat.leb 128 n3 && Nat.leb n3 138)
          || Nat.eqb n3 168 || Nat.eqb n3 169 || Nat.eqb n3 175))
  || (Nat.eqb n1 226 && Nat.eqb n2 129 && Nat.eqb n3 159)
  || (Nat.eqb n1 227 && Nat.eqb n2 128 && Nat.eqb n3 128).

(** [str.lstrip]. *)
Fixpoint lstrip (s : string) : string :=
  match s with
  | EmptyString => EmptyString
  | String c1 r1 =>
      if is_space c1 then lstrip r1
      else
        match r1 with
        | String c2 r2 =>
            if is_space2 c1 c2 then lstrip r2
            else
              match r2 with
              | String c3 r3 => if is_space3 c1 c2 c3 then lstrip r3 else s
              | EmptyString => s
              end
        | EmptyString => s
        end
  end.

(** The bytes of a string, last byte first, without the white space that
    ends the string. *)
Fixpoint rstrip_rev (l : list ascii) : list ascii :=
  match l with
  | [] => []
  | c1 :: r1 =>
      if is_space c1 then rstrip_rev r1
      else
        match r1 with
        | c2 :: r2 =>
            if is_space2 c2 c1 then rstrip_rev r2
            else
              match r2 with
              | c3 :: r3 => if is_space3 c3 c2 c1 then rstrip_rev r3 else l
              | [] => l
              end
        | [] => l
        end
  end.

(** [str.rstrip]. *)
Definition rstrip (s : string) : string :=
  string_of_list_ascii (rev (rstrip_rev (rev (list_ascii_of_string s)))).

(** [str.strip]. *)
Definition strip (s : string) : string := rstrip (lstrip s).

(** [a or b] on strings: the empty string is falsy. *)
Definition str_or (a b : string) : string :=
  match a with EmptyString => b | _ => a end.

(** [s.startswith(p)]. *)
Fixpoint startswith (p s : string) : bool :=
  match p, s with
  | EmptyString, _ => true
  | String a p', String b s' => Ascii.eqb a b && startswith p' s'
  | String _ _, EmptyString => false
  end.

(** [a >= b] on floats. *)
Definition geb (a b : R) : bool := if Rge_dec a b then true else false.

(** [max(iterable)]: the first largest element; [None] stands for the
    [ValueError] raised on an empty iterable. *)
Definition max_of (l : list R) : option R :=
  match l with
  | [] => None
  | x :: rest => Some (fold_left max rest x)
  end.

(** [a or b] on optional lists: [None] and the empty list are falsy. *)
Definition list_or {A : Type} (a b : option (list A)) : option (list A) :=
  match a with
  | Some (_ :: _) => a
  | _ => b
  end.

(** [zip]. *)
Fixpoint zip {A B : Type} (l : list A) (l' : list B) : list (A * B) :=
  match l, l' with
  | a :: t, b :: t' => (a, b) :: zip t t'
  | _, _ => []
  end.

End Py.

(* ================================================================== *)
(** * Results and exceptions *)
(* ================================================================== *)

(** The outcome of evaluating a Python expression or statement. *)
Inductive res (A : Type) : Type :=
| Val (a : A)
| Exc (msg : string).

Arguments Val {A} a.
Arguments Exc {A} msg.

(* ================================================================== *)
(** * PoseMath and the oscillation planner (xarm_controller_lib.py) *)
(* ================================================================== *)

Module PoseMath.

Local Open Scope R_scope.

(** [XArmController._rpy_to_rot]. *)
Definition _rpy_to_rot (rx ry rz : R) (is_radian : bool) : list (list R) :=
  let rx := if is_radian then rx else Py.radians rx in
  let ry := if is_radian then ry else Py.radians ry in
  let rz := if is_radian then rz else Py.radians rz in
  let cx := cos rx in let sx := sin rx in
  let cy := cos ry in let sy := sin ry in
  let cz := cos rz in let sz := sin rz in
  let R00 := cz * cy in
  let R01 := cz * sy * sx - sz * cx in
  let R02 := cz * sy * cx + sz * sx in
  let R10 := sz * cy in
  let R11 := sz * sy * sx + cz * cx in
  let R12 := sz * sy * cx - cz * sx in
  let R20 := - sy in
  let R21 := cy * sx in
  let R22 := cy * cx in
  [[R00; R01; R02]; [R10; R11; R12]; [R20; R21; R22]].

(** [XArmController._tool_axis_col]; raises [ValueError] on other labels. *)
Definition _tool_axis_col (axis : string) : res nat :=
  let a := Py.lower axis in
  if String.eqb a "x" then Val 0%nat
  else if String.eqb a "y" then Val 1%nat
  else if String.eqb a "z" then Val 2%nat
  else Exc "axis must be 'x', 'y', or 'z'".

(** [R[i][j]] on a matrix stored as a list of rows. *)
Definition at2 (m : list (list R)) (i j : nat) : R := nth j (nth i m []) 0.

(** The unit direction of [_p2p_loop]: the selected column of the rotation
    matrix divided by [max(1e-9, norm)]. *)
Definition tool_direction (rx ry rz : R) (is_radian : bool) (col : nat)
  : R * R * R :=
  let Rm := _rpy_to_rot rx ry rz is_radian in
  let fx := at2 Rm 0 col in
  let fy := at2 Rm 1 col in
  let fz := at2 Rm 2 col in
  let norm := Py.max (1 / 1000000000) (sqrt (fx * fx + fy * fy + fz * fz)) in
  (fx / norm, fy / norm, fz / norm).

(** [float(amplitude_cm) * 10.0] clamped as in [play_point_to_point]. *)
Definition amp_mm_of_cm (amplitude_cm : R) : R :=
  Py.max 0 (Py.min 200 (amplitude_cm * 10)).

(** [half] of [_p2p_loop]. *)
Definition half_of (amp_mm : R) : R := Py.max 0 amp_mm / 2.

(** The endpoint computation of [_p2p_loop], from the unpacking of the pose
    to [p_low] and [p_high].  [None] is the silent [return] taken on a pose
    with fewer than six components. *)
Definition p2p_endpoints (pose : list R) (is_radian : bool) (axis : string)
           (amp_mm : R) : res (option (list R * list R)) :=
  if (List.length pose <? 6)%nat then Val None
  else
    match pose with
    | [x; y; z; rx; ry; rz] =>
        match _tool_axis_col axis with
        | Exc e => Exc e
        | Val col =>
            let '(fx, fy, fz) := tool_direction rx ry rz is_radian col in
            let half := half_of amp_mm in
            let p_low := [x - fx * half; y - fy * half; z - fz * half; rx; ry; rz] in
            let p_high := [x + fx * half; y + fy * half; z + fz * half; rx; ry; rz] in
            Val (Some (p_low, p_high))
        end
    | _ => Exc "too many values to unpack (expected 6)"
    end.

(** Componentwise midpoint of two poses. *)
Definition midpoint (p q : list R) : list R :=
  map (fun ab => (fst ab + snd ab) / 2) (Py.zip p q).

(** Euclidean length of a triple. *)
Definition norm3 (v : R * R * R) : R :=
  let '(a, b, c) := v in sqrt (a * a + b * b + c * c).

(** Distance between the positions (first three components) of two poses. *)
Definition travel (p q : list R) : R :=
  match p, q with
  | x :: y :: z :: _, x' :: y' :: z' :: _ => norm3 (x' - x, y' - y, z' - z)
  | _, _ => 0
  end.

End PoseMath.

(* ================================================================== *)
(** * The SDK boundary *)
(* ================================================================== *)

Module Sdk.

(** What the controllers do to the outside world: the SDK methods they
    call, with their arguments, and the starts and joins of background
    threads. *)
Inductive event : Type :=
| Open (ip : string)                        (* XArmAPI(...) *)
| MotionEnable (enable : bool)
| SetMode (mode : Z)
| SetState (st : Z)
| GetErrWarnCode
| CleanError
| CleanWarn
| GetTcpMaxlinVel
| GetTcpMaxlinAcc
| GetVersion
| GetPosition
| SetTcpJerk (jerk : Z)
| SetPosition (target : list R) (speed : R) (mvacc : option R)
| Disconnect
| SetCollisionSensitivity (level : Z)
| SetTeachSensitivity (level : Z)
| RegisterReportCallback (on_report : bool)  (* false: the no-op lambda *)
| StartRecordTrajectory
| StopRecordTrajectory (filename : option string)
| ThreadStart (name : string)
| ThreadJoin (name : string).

(** What an SDK method hands back; each caller reads the components its
    method returns. *)
Record answer : Type := mkAnswer {
  code : Z;
  pose : option (list R);
  num : option R;
  text : string;
  err : Z;
  warn : Z
}.

Inductive outcome (A : Type) : Type :=
| Returns (a : A)
| Raises (msg : string).

Arguments Returns {A} a.
Arguments Raises {A} msg.

(** The robot and the installed SDK.  [respond] may depend on everything
    that happened before the call. *)
Record Arm : Type := mkArm {
  installed : bool;                          (* XArmAPI is not None *)
  has_attr : string -> bool;                 (* hasattr(arm, name) *)
  attr_is_radian : outcome bool;             (* bool(getattr(arm, "is_radian")) *)
  respond : list event -> event -> outcome answer
}.

Definition is_move (e : event) : bool :=
  match e with SetPosition _ _ _ => true | _ => false end.

Definition is_thread_start (e : event) : bool :=
  match e with ThreadStart _ => true | _ => false end.

Definition is_start_record (e : event) : bool :=
  match e with StartRecordTrajectory => true | _ => false end.



End Sdk.

(* ================================================================== *)
(** * Methods as computations *)
(* ================================================================== *)

Module Eff.

Import Sdk.

(** Objects that keep the trace of their events (oldest first). *)
Class Traced (W : Type) : Type := {
  trace_of : W -> list event;
  with_trace : list event -> W -> W
}.

Section Monad.

Context {W : Type}.

Definition M (A : Type) : Type := W -> res A * W.

Definition ret {A : Type} (a : A) : M A := fun w => (Val a, w).

Definition bind {A B : Type} (m : M A) (k : A -> M B) : M B :=
  fun w =>
    match m w with
    | (Val a, w') => k a w'
    | (Exc e, w') => (Exc e, w')
    end.

Definition raise {A : Type} (e : string) : M A := fun w => (Exc e, w).

(** [self.<field>]. *)
Definition gets {A : Type} (f : W -> A) : M A := fun w => (Val (f w), w).

(** [self.<field> = v]. *)
Definition modify (f : W -> W) : M unit := fun w => (Val tt, f w).

(** [try: body / except Exception as e: handler(e)]. *)
Definition try_except {A : Type} (body : M A) (handler : string -> M A) : M A :=
  fun w =>
    match body w with
    | (Val a, w') => (Val a, w')
    | (Exc e, w') => handler e w'
    end.

(** [try: body / except Exception: pass]. *)
Definition attempt {A : Type} (body : M A) : M unit :=
  fun w => (Val tt, snd (body w)).

(** [try: body / finally: fin], where [fin] does not return. *)
Definition try_finally {A : Type} (body : M A) (fin : M unit) : M A :=
  fun w =>
    match body w with
    | (r, w') =>
        match fin w' with
        | (Val _, w'') => (r, w'')
        | (Exc e, w'') => (Exc e, w'')
        end
    end.

(** [try: body / finally: fin], where [fin] ends in [return]: the value
    returned by [fin] replaces whatever [body] did. *)
Definition finally_return {A B : Type} (body : M A) (fin : M B) : M B :=
  fun w => fin (snd (body w)).

Definition when (b : bool) (m : M unit) : M unit := if b then m else ret tt.

Context `{Traced W}.

Definition emit (e : event) : M unit :=
  modify (fun w => with_trace (trace_of w ++ [e]) w).

(** One SDK call on the robot [hw]. *)
Definition sdk (hw : Arm) (c : event) : M answer :=
  fun w =>
    let w' := with_trace (trace_of w ++ [c]) w in
    match respond hw (trace_of w) c with
    | Returns a => (Val a, w')
    | Raises e => (Exc e, w')
    end.

(** [bool(getattr(arm, "is_radian"))]. *)
Definition getattr_is_radian (hw : Arm) : M bool :=
  match attr_is_radian hw with
  | Returns b => ret b
  | Raises e => raise e
  end.

End Monad.

Declare Scope eff_scope.
Delimit Scope eff_scope with eff.

Notation "x <- m ;; k" := (bind m (fun x => k))
  (at level 61, m at next level, right associativity) : eff_scope.
Notation "' pat <- m ;; k" := (bind m (fun x => match x with pat => k end))
  (at level 61, pat pattern, m at next level, right associativity) : eff_scope.
Notation "m ;; k" := (bind m (fun _ => k))
  (at level 61, right associativity) : eff_scope.

End Eff.

(* ================================================================== *)
(** * xarm_state_lib.py and xarm_controller_lib.py *)
(* ================================================================== *)

Module XArmController.

Import Sdk Eff.
Local Open Scope eff_scope.

(** [ArmState] (xarm_state_lib.py). *)
Record ArmState : Type := mkArmState {
  connected : bool;
  ip : string;
  teach_enabled : bool;
  playing : bool;
  init_pose : option (list R);
  sdk_version : option string;
  last_error : string;
  max_tcp_lin_vel_mmps : R;
  max_tcp_lin_acc_mmps2 : R;
  last_play_speed_pct : R;
  is_radian : bool
}.

(** The dataclass defaults. *)
Definition ArmState_default : ArmState :=
  {| connected := false; ip := "192.168.1.221"; teach_enabled := false;
     playing := false; init_pose := None; sdk_version := None;
     last_error := ""; max_tcp_lin_vel_mmps := 200%R;
     max_tcp_lin_acc_mmps2 := 1000%R; last_play_speed_pct := 50%R;
     is_radian := false |}.

(** A motion thread object: the arguments [_p2p_loop] was started with and
    whether its body is still running. *)
Record Thread : Type := mkThread {
  amp_mm : R;
  speed_percent : R;
  accel_percent : R;
  axis : string;
  is_alive : bool
}.

(** The fields of an [XArmController], and the events it has caused. *)
Record Ctl : Type := mkCtl {
  _arm : option string;                 (* the SDK handle, by its address *)
  state : ArmState;
  _stop_event : bool;
  _motion_thread : option Thread;
  trace : list event
}.

(** [XArmController.__init__]. *)
Definition init : Ctl :=
  {| _arm := None; state := ArmState_default; _stop_event := false;
     _motion_thread := None; trace := [] |}.

#[export] Instance Ctl_Traced : Traced Ctl := {
  trace_of := trace;
  with_trace t w :=
    {| _arm := _arm w; state := state w; _stop_event := _stop_event w;
       _motion_thread := _motion_thread w; trace := t |}
}.

Local Abbreviation M := (Eff.M (W := Ctl)).

(** ** Field assignments *)

Definition set_arm (a : option string) : M unit :=
  modify (fun w => {| _arm := a; state := state w; _stop_event := _stop_event w;
                      _motion_thread := _motion_thread w; trace := trace w |}).

Definition set_stop_event (b : bool) : M unit :=
  modify (fun w => {| _arm := _arm w; state := state w; _stop_event := b;
                      _motion_thread := _motion_thread w; trace := trace w |}).

Definition set_motion_thread (t : option Thread) : M unit :=
  modify (fun w => {| _arm := _arm w; state := state w; _stop_event := _stop_event w;
                      _motion_thread := t; trace := trace w |}).

Definition upd_state (f : ArmState -> ArmState) : M unit :=
  modify (fun w => {| _arm := _arm w; state := f (state w);
                      _stop_event := _stop_event w;
                      _motion_thread := _motion_thread w; trace := trace w |}).

Definition set_connected (b : bool) : M unit :=
  upd_state (fun s =>
    {| connected := b; ip := ip s; teach_enabled := teach_enabled s;
       playing := playing s; init_pose := init_pose s;
       sdk_version := sdk_version s; last_error := last_error s;
       max_tcp_lin_vel_mmps := max_tcp_lin_vel_mmps s;
       max_tcp_lin_acc_mmps2 := max_tcp_lin_acc_mmps2 s;
       last_play_speed_pct := last_play_speed_pct s; is_radian := is_radian s |}).

Definition set_ip (v : string) : M unit :=
  upd_state (fun s =>
    {| connected := connected s; ip := v; teach_enabled := teach_enabled s;
       playing := playing s; init_pose := init_pose s;
       sdk_version := sdk_version s; last_error := last_error s;
       max_tcp_lin_vel_mmps := max_tcp_lin_vel_mmps s;
       max_tcp_lin_acc_mmps2 := max_tcp_lin_acc_mmps2 s;
       last_play_speed_pct := last_play_speed_pct s; is_radian := is_radian s |}).

Definition set_teach_enabled (b : bool) : M unit :=
  upd_state (fun s =>
    {| connected := connected s; ip := ip s; teach_enabled := b;
       playing := playing s; init_pose := init_pose s;
       sdk_version := sdk_version s; last_error := last_error s;
       max_tcp_lin_vel_mmps := max_tcp_lin_vel_mmps s;
       max_tcp_lin_acc_mmps2 := max_tcp_lin_acc_mmps2 s;
       last_play_speed_pct := last_play_speed_pct s; is_radian := is_radian s |}).

Definition set_playing (b : bool) : M unit :=
  upd_state (fun s =>
    {| connected := connected s; ip := ip s; teach_enabled := teach_enabled s;
       playing := b; init_pose := init_pose s;
       sdk_version := sdk_version s; last_error := last_error s;
       max_tcp_lin_vel_mmps := max_tcp_lin_vel_mmps s;
       max_tcp_lin_acc_mmps2 := max_tcp_lin_acc_mmps2 s;
       last_play_speed_pct := last_play_speed_pct s; is_radian := is_radian s |}).

Definition set_init_pose (p : option (list R)) : M unit :=
  upd_state (fun s =>
    {| connected := connected s; ip := ip s; teach_enabled := teach_enabled s;
       playing := playing s; init_pose := p;
       sdk_version := sdk_version s; last_error := last_error s;
       max_tcp_lin_vel_mmps := max_tcp_lin_vel_mmps s;
       max_tcp_lin_acc_mmps2 := max_tcp_lin_acc_mmps2 s;
       last_play_speed_pct := last_play_speed_pct s; is_radian := is_radian s |}).

Definition set_sdk_version (v : option string) : M unit :=
  upd_state (fun s =>
    {| connected := connected s; ip := ip s; teach_enabled := teach_enabled s;
       playing := playing s; init_pose := init_pose s;
       sdk_version := v; last_error := last_error s;
       max_tcp_lin_vel_mmps := max_tcp_lin_vel_mmps s;
       max_tcp_lin_acc_mmps2 := max_tcp_lin_acc_mmps2 s;
       last_play_speed_pct := last_play_speed_pct s; is_radian := is_radian s |}).

Definition set_last_error (v : string) : M unit :=
  upd_state (fun s =>
    {| connected := connected s; ip := ip s; teach_enabled := teach_enabled s;
       playing := playing s; init_pose := init_pose s;
       sdk_version := sdk_version s; last_error := v;
       max_tcp_lin_vel_mmps := max_tcp_lin_vel_mmps s;
       max_tcp_lin_acc_mmps2 := max_tcp_lin_acc_mmps2 s;
       last_play_speed_pct := last_play_speed_pct s; is_radian := is_radian s |}).

Definition set_max_tcp_lin_vel_mmps (v : R) : M unit :=
  upd_state (fun s =>
    {| connected := connected s; ip := ip s; teach_enabled := teach_enabled s;
       playing := playing s; init_pose := init_pose s;
       sdk_version := sdk_version s; last_error := last_error s;
       max_tcp_lin_vel_mmps := v;
       max_tcp_lin_acc_mmps2 := max_tcp_lin_acc_mmps2 s;
       last_play_speed_pct := last_play_speed_pct s; is_radian := is_radian s |}).

Definition set_max_tcp_lin_acc_mmps2 (v : R) : M unit :=
  upd_state (fun s =>
    {| connected := connected s; ip := ip s; teach_enabled := teach_enabled s;
       playing := playing s; init_pose := init_pose s;
       sdk_version := sdk_version s; last_error := last_error s;
       max_tcp_lin_vel_mmps := max_tcp_lin_vel_mmps s;
       max_tcp_lin_acc_mmps2 := v;
       last_play_speed_pct := last_play_speed_pct s; is_radian := is_radian s |}).

Definition set_last_play_speed_pct (v : R) : M unit :=
  upd_state (fun s =>
    {| connected := connected s; ip := ip s; teach_enabled := teach_enabled s;
       playing := playing s; init_pose := init_pose s;
       sdk_version := sdk_version s; last_error := last_error s;
       max_tcp_lin_vel_mmps := max_tcp_lin_vel_mmps s;
       max_tcp_lin_acc_mmps2 := max_tcp_lin_acc_mmps2 s;
       last_play_speed_pct := v; is_radian := is_radian s |}).

Definition set_is_radian (b : bool) : M unit :=
  upd_state (fun s =>
    {| connected := connected s; ip := ip s; teach_enabled := teach_enabled s;
       playing := playing s; init_pose := init_pose s;
       sdk_version := sdk_version s; last_error := last_error s;
       max_tcp_lin_vel_mmps := max_tcp_lin_vel_mmps s;
       max_tcp_lin_acc_mmps2 := max_tcp_lin_acc_mmps2 s;
       last_play_speed_pct := last_play_speed_pct s; is_radian := b |}).

(** [not self.state.connected or self._arm is None]. *)
Definition not_connected (w : Ctl) : bool :=
  negb (connected (state w)) || match _arm w with None => true | Some _ => false end.

Definition has_arm (w : Ctl) : bool :=
  match _arm w with None => false | Some _ => true end.

Section Methods.

Variable hw : Arm.

(** ** Helpers *)

(** [XArmController._check]. *)
Definition _check (c : Z) (ok_msg fail_msg : string) : M (bool * string) :=
  if (c =? 0)%Z then ret (true, ok_msg)
  else
    extra <- try_except
      (present <- gets has_arm ;;
       if present && has_attr hw "get_err_warn_code" then
         r <- sdk hw GetErrWarnCode ;;
         when (has_attr hw "clean_error") (attempt (sdk hw CleanError)) ;;
         when (has_attr hw "clean_warn") (attempt (sdk hw CleanWarn)) ;;
         ret ["err=" ++ Py.str_of_Z (err r); "warn=" ++ Py.str_of_Z (warn r)]
       else ret [])
      (fun _ => ret []) ;;
    ret (false,
         fail_msg ++ " (code " ++ Py.str_of_Z c
           ++ match extra with
              | [] => ""
              | _ => ", " ++ Py.join ", " extra
              end
           ++ ")").

(** [XArmController._set_mode_and_ready]. *)
Definition _set_mode_and_ready (mode : Z) : M (bool * string) :=
  present <- gets has_arm ;;
  if negb present then ret (false, "SDK not connected")
  else
    try_except
      (r <- sdk hw (SetMode mode) ;;
       '(ok, msg) <- _check (code r) ("mode=" ++ Py.str_of_Z mode) "set_mode failed" ;;
       if negb ok then ret (false, msg)
       else
         r <- sdk hw (SetState 0) ;;
         _check (code r) "ready" "set_state failed")
      (fun e => ret (false, "mode/state exception: " ++ e)).

(** ** Stop *)

(** [x, y, z, rx, ry, rz = list(pose)]: the [ValueError] of a pose that has
    not exactly six components. *)
Definition unpack6 (p : list R) : M unit :=
  if Nat.eqb (List.length p) 6 then ret tt
  else if Nat.ltb (List.length p) 6 then
    raise ("not enough values to unpack (expected 6, got "
             ++ Py.str_of_nat (List.length p) ++ ")")
  else raise "too many values to unpack (expected 6)".

(** The last locked block of [stop_motion]: back to position mode, then
    back to the saved pose. *)
Definition stop_finish : M string :=
  try_except
    (present <- gets has_arm ;;
     (* Ensure controller is in position mode after stopping *)
     when present (_set_mode_and_ready 0 ;; ret tt) ;;
     (* If we have a saved pose, return to it in position mode *)
     present <- gets has_arm ;;
     saved <- gets (fun w => init_pose (state w)) ;;
     match present, saved with
     | true, Some p =>
         vmax <- gets (fun w => max_tcp_lin_vel_mmps (state w)) ;;
         last <- gets (fun w => last_play_speed_pct (state w)) ;;
         let pct := (Py.max 0 (Py.min 100 last) / 100)%R in
         let ret_speed := Py.max 20 (Py.min vmax (vmax * pct)) in
         unpack6 p ;;
         r <- sdk hw (SetPosition p ret_speed None) ;;
         '(ok, msg) <- _check (code r) "returned" "set_position failed" ;;
         if negb ok then ret ("Stopped, return pose error: " ++ msg)
         else ret "Stopped"
     | _, _ => ret "Stopped"
     end)
    (fun e =>
       set_last_error ("Stop error: " ++ e) ;;
       gets (fun w => last_error (state w))).

(** [XArmController.stop_motion]. *)
Definition stop_motion : M string :=
  (* Phase 1: signal stop and extract thread under lock; nothing in it
     can raise *)
  nc <- gets not_connected ;;
  if nc then ret "Not connected"
  else
    was_playing <- gets (fun w => playing (state w)) ;;
    thread <- (if was_playing then
                 set_stop_event true ;; gets _motion_thread
               else ret None) ;;
    set_playing false ;;
    (* Phase 2: join without holding the lock *)
    match thread with
    | Some t => when (is_alive t) (emit (ThreadJoin "motion"))
    | None => ret tt
    end ;;
    (* Phase 3: finish shutdown under lock *)
    stop_finish.

(** ** Connection *)

(** [XArmController.connect]. *)
Definition connect (ip_in : string) : M string :=
  old_ip <- gets (fun w => ip (state w)) ;;
  set_ip (Py.str_or (Py.strip ip_in) old_ip) ;;
  if negb (installed hw) then
    set_last_error "xArm SDK is not installed. Run: pip install xarm" ;;
    gets (fun w => last_error (state w))
  else
    is_conn <- gets (fun w => connected (state w)) ;;
    addr <- gets (fun w => ip (state w)) ;;
    if is_conn then ret ("Already connected to " ++ addr)
    else
      try_except
        (sdk hw (Open addr) ;;
         set_arm (Some addr) ;;
         (* Cache unit preference if available *)
         attempt (when (has_attr hw "is_radian")
                       (b <- getattr_is_radian hw ;; set_is_radian b)) ;;
         (* Prepare for motion *)
         r <- sdk hw (MotionEnable true) ;;
         '(ok, msg) <- _check (code r) "motors on" "motion_enable failed" ;;
         if negb ok then set_last_error msg ;; ret msg
         else
           '(ok, msg) <- _set_mode_and_ready 0 ;;
           if negb ok then set_last_error msg ;; ret msg
           else
             (* Query TCP linear velocity/acceleration if supported *)
             attempt
               (when (has_attr hw "get_tcp_maxlin_vel")
                  (r <- sdk hw GetTcpMaxlinVel ;;
                   match num r with
                   | Some vmax => when (code r =? 0)%Z (set_max_tcp_lin_vel_mmps vmax)
                   | None => ret tt
                   end) ;;
                when (has_attr hw "get_tcp_maxlin_acc")
                  (r <- sdk hw GetTcpMaxlinAcc ;;
                   match num r with
                   | Some amax => when (code r =? 0)%Z (set_max_tcp_lin_acc_mmps2 amax)
                   | None => ret tt
                   end)) ;;
             (* Cache version if available *)
             attempt
               (r <- sdk hw GetVersion ;;
                when (code r =? 0)%Z (set_sdk_version (Some (text r)))) ;;
             set_connected true ;;
             set_last_error "Connected" ;;
             ret ("Connected to " ++ addr))
        (fun e =>
           set_arm None ;;
           set_connected false ;;
           set_last_error ("Connect failed: " ++ e) ;;
           gets (fun w => last_error (state w))).

(** [XArmController.disconnect]. *)
Definition disconnect : M string :=
  stop_motion ;;
  try_except
    (present <- gets has_arm ;;
     when present (try_finally (sdk hw Disconnect ;; ret tt) (set_arm None)) ;;
     set_connected false ;;
     set_teach_enabled false ;;
     set_last_error "Disconnected" ;;
     ret "Disconnected")
    (fun e =>
       set_last_error ("Disconnect error: " ++ e) ;;
       gets (fun w => last_error (state w))).

(** ** Teach/Drag *)

(** [XArmController.toggle_teach]. *)
Definition toggle_teach : M (string * string) :=
  nc <- gets not_connected ;;
  if nc then ret ("Not connected", "Not Draggable")
  else
    (* Stop motion outside lock *)
    is_playing <- gets (fun w => playing (state w)) ;;
    when is_playing (stop_motion ;; ret tt) ;;
    try_except
      (teaching <- gets (fun w => teach_enabled (state w)) ;;
       if negb teaching then
         '(ok, msg) <- _set_mode_and_ready 2 ;;
         if negb ok then
           (* Try to park in position mode for safety *)
           _set_mode_and_ready 0 ;;
           set_teach_enabled false ;;
           ret ("Teach enable failed: " ++ msg, "Not Draggable")
         else
           set_teach_enabled true ;;
           ret ("Teach enabled", "Draggable")
       else
         '(ok, msg) <- _set_mode_and_ready 0 ;;
         if negb ok then
           set_teach_enabled true ;;
           ret ("Teach disable failed: " ++ msg, "Draggable")
         else
           set_teach_enabled false ;;
           ret ("Teach disabled", "Not Draggable"))
      (fun e =>
         set_last_error ("Teach toggle failed: " ++ e) ;;
         msg <- gets (fun w => last_error (state w)) ;;
         ret (msg, "Not Draggable")).

(** ** Point-to-point motion *)

(** The [while not self._stop_event.is_set()] loop of [_p2p_loop].  The
    event is set by another thread; [polls] bounds the number of times the
    loop finds it clear. *)
Fixpoint bounce (polls : nat) (p_low p_high : list R) (v_target a_target : R)
         (current_target_high : bool) : M unit :=
  match polls with
  | O => ret tt
  | S polls' =>
      stop <- gets _stop_event ;;
      if stop then ret tt
      else
        let target := if current_target_high then p_high else p_low in
        moved <- try_except
                   (sdk hw (SetPosition target v_target (Some a_target)) ;; ret true)
                   (fun _ => ret false) ;;
        if moved then
          bounce polls' p_low p_high v_target a_target (negb current_target_high)
        else ret tt
  end.

(** [XArmController._p2p_loop]. *)
Definition _p2p_loop (polls : nat) (amp speed accel : R) (ax : string) : M unit :=
  present <- gets has_arm ;;
  if negb present then raise ""           (* assert self._arm is not None *)
  else
    max_v <- gets (fun w => max_tcp_lin_vel_mmps (state w)) ;;
    max_a <- gets (fun w => max_tcp_lin_acc_mmps2 (state w)) ;;
    let vmax := (max_v * 4)%R in
    let amax := (max_a * 4)%R in
    let pct_v := (Py.max 0 (Py.min 100 speed) / 100)%R in
    let pct_a := (Py.max 0 (Py.min 100 accel) / 100)%R in
    let v_target := (pct_v * vmax)%R in
    let a_target := (pct_a * amax)%R in
    saved <- gets (fun w => init_pose (state w)) ;;
    let pose := match saved with Some p => p | None => [] end in
    cached <- gets (fun w => is_radian (state w)) ;;
    let radian :=
      if has_attr hw "is_radian" then
        match attr_is_radian hw with
        | Returns b => b
        | Raises _ => cached
        end
      else cached in
    match PoseMath.p2p_endpoints pose radian ax amp with
    | Exc e => raise e
    | Val None => ret tt
    | Val (Some (p_low, p_high)) =>
        sdk hw (SetTcpJerk 50000) ;;
        bounce polls p_low p_high v_target a_target true
    end.

(** The motion thread: [_p2p_loop] on the arguments it was created with;
    when the body ends, however it ends, the thread is no longer alive. *)
Definition run_motion_thread (polls : nat) : M unit :=
  th <- gets _motion_thread ;;
  match th with
  | None => ret tt
  | Some t =>
      if is_alive t then
        attempt (_p2p_loop polls (amp_mm t) (speed_percent t) (accel_percent t) (axis t)) ;;
        set_motion_thread
          (Some {| amp_mm := amp_mm t; speed_percent := speed_percent t;
                   accel_percent := accel_percent t; axis := axis t;
                   is_alive := false |})
      else ret tt
  end.

(** [XArmController.play_point_to_point]. *)
Definition play_point_to_point (amplitude_cm speed accel : R) (ax : string)
  : M string :=
  nc <- gets not_connected ;;
  if nc then ret "Not connected"
  else
    is_playing <- gets (fun w => playing (state w)) ;;
    if is_playing then ret "Already playing"
    else
      try_except
        (* Save center pose *)
        (r <- sdk hw GetPosition ;;
         match (code r =? 0)%Z, pose r with
         | true, Some p =>
             set_init_pose (Some p) ;;
             (* Ensure we are in position mode and ready *)
             '(ok, msg) <- _set_mode_and_ready 0 ;;
             if negb ok then ret ("Failed to enter position mode: " ++ msg)
             else
               set_stop_event false ;;
               set_playing true ;;
               set_last_play_speed_pct (Py.max 0 (Py.min 100 speed)) ;;
               let amp := PoseMath.amp_mm_of_cm amplitude_cm in
               set_motion_thread
                 (Some {| amp_mm := amp; speed_percent := speed;
                          accel_percent := accel; axis := ax;
                          is_alive := true |}) ;;
               emit (ThreadStart "motion") ;;
               ret "Point-to-point motion started"
         | _, _ =>
             ret ("Failed to read TCP pose (code " ++ Py.str_of_Z (code r) ++ ")")
         end)
        (fun e =>
           set_playing false ;;
           set_last_error ("Play error: " ++ e) ;;
           gets (fun w => last_error (state w))).

End Methods.

(** ** The controller as a transition system *)

(** The commands of the UI and the one environment step (the motion thread
    running its body). *)
Inductive op : Type :=
| Connect (ip_in : string)
| DisconnectOp
| ToggleTeach
| Play (amplitude_cm speed accel : R) (ax : string)
| Stop
| MotionThreadRuns (polls : nat).

Definition exec (hw : Arm) (o : op) (w : Ctl) : Ctl :=
  match o with
  | Connect a => snd (connect hw a w)
  | DisconnectOp => snd (disconnect hw w)
  | ToggleTeach => snd (toggle_teach hw w)
  | Play a s c x => snd (play_point_to_point hw a s c x w)
  | Stop => snd (stop_motion hw w)
  | MotionThreadRuns n => snd (run_motion_thread hw n w)
  end.

(** The states a controller can be in after any sequence of commands, on
    any robot. *)
Inductive reachable (hw : Arm) : Ctl -> Prop :=
| reach_init : reachable hw init
| reach_step (w : Ctl) (o : op) :
    reachable hw w -> reachable hw (exec hw o w).

End XArmController.

(* ================================================================== *)
(** * app_xarm_memoryloop.py *)
(* ================================================================== *)

Module XArmGradioController.

Import Sdk Eff.
Local Open Scope eff_scope.

(** [DetectConfig]. *)
Record DetectConfig : Type := mkDetectConfig {
  motion_threshold : R;
  idle_timeout : R;
  report_hz : R
}.

Definition DetectConfig_default : DetectConfig :=
  {| motion_threshold := (15 / 1000)%R; idle_timeout := 1%R; report_hz := 100%R |}.

(** [AppState]. *)
Record AppState : Type := mkAppState {
  ip : string;
  connected : bool;
  teach_mode : bool;
  recording : bool;
  last_status : string;
  traj_filename : string;
  playback_speed : R;
  collision_sensitivity : Z;
  teach_sensitivity : Z
}.

Definition AppState_default : AppState :=
  {| ip := ""; connected := false; teach_mode := false; recording := false;
     last_status := "idle"; traj_filename := "gradio_record";
     playback_speed := 1%R; collision_sensitivity := 3%Z;
     teach_sensitivity := 3%Z |}.

(** The fields of an [XArmGradioController], and the events it has caused.
    [_play_thread] holds whether the thread object is alive. *)
Record Ctl : Type := mkCtl {
  detect_cfg : DetectConfig;
  arm : option string;
  state : AppState;
  _cb_registered : bool;
  _last_q : option (list R);
  _last_motion_t : R;
  _record_started : bool;
  _play_thread : option bool;
  _stop_play_evt : bool;
  trace : list event
}.

(** [XArmGradioController.__init__]. *)
Definition init (cfg : DetectConfig) : Ctl :=
  {| detect_cfg := cfg; arm := None; state := AppState_default;
     _cb_registered := false; _last_q := None; _last_motion_t := 0%R;
     _record_started := false; _play_thread := None; _stop_play_evt := false;
     trace := [] |}.

#[export] Instance Ctl_Traced : Traced Ctl := {
  trace_of := trace;
  with_trace t w :=
    {| detect_cfg := detect_cfg w; arm := arm w; state := state w;
       _cb_registered := _cb_registered w; _last_q := _last_q w;
       _last_motion_t := _last_motion_t w; _record_started := _record_started w;
       _play_thread := _play_thread w; _stop_play_evt := _stop_play_evt w;
       trace := t |}
}.

Local Abbreviation M := (Eff.M (W := Ctl)).

(** ** Field assignments *)

Definition set_arm (a : option string) : M unit :=
  modify (fun w =>
    {| detect_cfg := detect_cfg w; arm := a; state := state w;
       _cb_registered := _cb_registered w; _last_q := _last_q w;
       _last_motion_t := _last_motion_t w; _record_started := _record_started w;
       _play_thread := _play_thread w; _stop_play_evt := _stop_play_evt w;
       trace := trace w |}).

Definition upd_state (f : AppState -> AppState) : M unit :=
  modify (fun w =>
    {| detect_cfg := detect_cfg w; arm := arm w; state := f (state w);
       _cb_registered := _cb_registered w; _last_q := _last_q w;
       _last_motion_t := _last_motion_t w; _record_started := _record_started w;
       _play_thread := _play_thread w; _stop_play_evt := _stop_play_evt w;
       trace := trace w |}).

Definition set_cb_registered (b : bool) : M unit :=
  modify (fun w =>
    {| detect_cfg := detect_cfg w; arm := arm w; state := state w;
       _cb_registered := b; _last_q := _last_q w;
       _last_motion_t := _last_motion_t w; _record_started := _record_started w;
       _play_thread := _play_thread w; _stop_play_evt := _stop_play_evt w;
       trace := trace w |}).

Definition set_last_q (q : option (list R)) : M unit :=
  modify (fun w =>
    {| detect_cfg := detect_cfg w; arm := arm w; state := state w;
       _cb_registered := _cb_registered w; _last_q := q;
       _last_motion_t := _last_motion_t w; _record_started := _record_started w;
       _play_thread := _play_thread w; _stop_play_evt := _stop_play_evt w;
       trace := trace w |}).

Definition set_last_motion_t (t : R) : M unit :=
  modify (fun w =>
    {| detect_cfg := detect_cfg w; arm := arm w; state := state w;
       _cb_registered := _cb_registered w; _last_q := _last_q w;
       _last_motion_t := t; _record_started := _record_started w;
       _play_thread := _play_thread w; _stop_play_evt := _stop_play_evt w;
       trace := trace w |}).

Definition set_record_started (b : bool) : M unit :=
  modify (fun w =>
    {| detect_cfg := detect_cfg w; arm := arm w; state := state w;
       _cb_registered := _cb_registered w; _last_q := _last_q w;
       _last_motion_t := _last_motion_t w; _record_started := b;
       _play_thread := _play_thread w; _stop_play_evt := _stop_play_evt w;
       trace := trace w |}).

Definition set_play_thread (t : option bool) : M unit :=
  modify (fun w =>
    {| detect_cfg := detect_cfg w; arm := arm w; state := state w;
       _cb_registered := _cb_registered w; _last_q := _last_q w;
       _last_motion_t := _last_motion_t w; _record_started := _record_started w;
       _play_thread := t; _stop_play_evt := _stop_play_evt w;
       trace := trace w |}).

Definition set_stop_play_evt (b : bool) : M unit :=
  modify (fun w =>
    {| detect_cfg := detect_cfg w; arm := arm w; state := state w;
       _cb_registered := _cb_registered w; _last_q := _last_q w;
       _last_motion_t := _last_motion_t w; _record_started := _record_started w;
       _play_thread := _play_thread w; _stop_play_evt := b;
       trace := trace w |}).

Definition set_ip (v : string) : M unit :=
  upd_state (fun s =>
    {| ip := v; connected := connected s; teach_mode := teach_mode s;
       recording := recording s; last_status := last_status s;
       traj_filename := traj_filename s; playback_speed := playback_speed s;
       collision_sensitivity := collision_sensitivity s;
       teach_sensitivity := teach_sensitivity s |}).

Definition set_connected (b : bool) : M unit :=
  upd_state (fun s =>
    {| ip := ip s; connected := b; teach_mode := teach_mode s;
       recording := recording s; last_status := last_status s;
       traj_filename := traj_filename s; playback_speed := playback_speed s;
       collision_sensitivity := collision_sensitivity s;
       teach_sensitivity := teach_sensitivity s |}).

Definition set_teach_mode (b : bool) : M unit :=
  upd_state (fun s =>
    {| ip := ip s; connected := connected s; teach_mode := b;
       recording := recording s; last_status := last_status s;
       traj_filename := traj_filename s; playback_speed := playback_speed s;
       collision_sensitivity := collision_sensitivity s;
       teach_sensitivity := teach_sensitivity s |}).

Definition set_recording (b : bool) : M unit :=
  upd_state (fun s =>
    {| ip := ip s; connected := connected s; teach_mode := teach_mode s;
       recording := b; last_status := last_status s;
       traj_filename := traj_filename s; playback_speed := playback_speed s;
       collision_sensitivity := collision_sensitivity s;
       teach_sensitivity := teach_sensitivity s |}).

Definition set_last_status (v : string) : M unit :=
  upd_state (fun s =>
    {| ip := ip s; connected := connected s; teach_mode := teach_mode s;
       recording := recording s; last_status := v;
       traj_filename := traj_filename s; playback_speed := playback_speed s;
       collision_sensitivity := collision_sensitivity s;
       teach_sensitivity := teach_sensitivity s |}).

Definition set_playback_speed (v : R) : M unit :=
  upd_state (fun s =>
    {| ip := ip s; connected := connected s; teach_mode := teach_mode s;
       recording := recording s; last_status := last_status s;
       traj_filename := traj_filename s; playback_speed := v;
       collision_sensitivity := collision_sensitivity s;
       teach_sensitivity := teach_sensitivity s |}).

Definition has_arm (w : Ctl) : bool :=
  match arm w with None => false | Some _ => true end.

(** ** Motion detection *)

(** A report dictionary, through its [get] method. *)
Definition report : Type := string -> option (list R).

(** The joint vector of a report: the first truthy value among the four
    keys the SDK variants use. *)
Definition joints_of (data : report) : option (list R) :=
  Py.list_or (data "angles")
    (Py.list_or (data "joint_angles")
       (Py.list_or (data "angle") (data "joints"))).

(** [dq2] after the loop over [zip(q, self._last_q)]. *)
Definition dq2_of (q last_q : list R) : R :=
  fold_left (fun acc ab => (acc + (fst ab - snd ab) * (fst ab - snd ab))%R)
            (Py.zip q last_q) 0%R.

(** [dist]. *)
Definition dist_of (q last_q : list R) : R := sqrt (dq2_of q last_q).

(** [max_abs]; [None] when the [zip] is empty and [max] raises. *)
Definition max_abs_of (q last_q : list R) : option R :=
  Py.max_of (map (fun ab => Rabs (fst ab - snd ab)) (Py.zip q last_q)).

(** The value of [moved] for a report [q] against the previous sample;
    [Exc] when [max] raises. *)
Definition detect (cfg : DetectConfig) (last_q : option (list R)) (q : list R)
  : res bool :=
  match last_q with
  | None => Val false
  | Some lq =>
      match max_abs_of q lq with
      | None => Exc "max() arg is an empty sequence"
      | Some max_abs =>
          Val (Py.geb (dist_of q lq) (motion_threshold cfg)
               || Py.geb max_abs (motion_threshold cfg * (6 / 10))%R)
      end
  end.

Section Methods.

Variable hw : Arm.

(** The block "Attempt atomic stop+save" of [_on_report]. *)
Definition save_recording : M unit :=
  try_except
    (present <- gets has_arm ;;
     name <- gets (fun w => traj_filename (state w)) ;;
     when present (sdk hw (StopRecordTrajectory (Some name)) ;; ret tt) ;;
     set_recording false ;;
     set_record_started false ;;
     set_last_status "idle")
    (fun _ => set_last_status "record:save failed").

(** The block "Auto-exit teach mode after saving attempt" of [_on_report]. *)
Definition leave_teach : M unit :=
  attempt
    (present <- gets has_arm ;;
     when present
       (sdk hw (SetMode 0) ;;
        sdk hw (SetState 0) ;;
        registered <- gets _cb_registered ;;
        when registered
          (attempt (sdk hw (RegisterReportCallback false)) ;;
           set_cb_registered false)) ;;
     set_teach_mode false).

(** The block of [_on_report] that starts a recording. *)
Definition begin_recording : M unit :=
  try_except
    (present <- gets has_arm ;;
     when present (sdk hw StartRecordTrajectory ;; ret tt) ;;
     set_recording true ;;
     set_record_started true ;;
     set_last_status "recording")
    (fun _ => set_last_status "record:start failed").

(** [_on_report] from [if not self.state.teach_mode] on, [moved] being
    known. *)
Definition react (moved : bool) (now : R) : M unit :=
  teaching <- gets (fun w => teach_mode (state w)) ;;
  if negb teaching then
    (* reflect idle when not teaching *)
    set_last_status "idle"
  else if moved then
    set_last_motion_t now ;;
    started <- gets _record_started ;;
    when (negb started) begin_recording
  else
    started <- gets _record_started ;;
    last_t <- gets _last_motion_t ;;
    cfg <- gets detect_cfg ;;
    when (started && Py.geb (now - last_t) (idle_timeout cfg))
         (save_recording ;; leave_teach).

(** [XArmGradioController._on_report]; [now] is the value of [time.time()]. *)
Definition _on_report (data : report) (now : R) : M unit :=
  attempt
    (match joints_of data with
     | None | Some [] => ret tt
     | Some q =>
         cfg <- gets detect_cfg ;;
         last <- gets _last_q ;;
         moved <- match detect cfg last q with
                  | Val b => ret b
                  | Exc e => raise e
                  end ;;
         set_last_q (Some q) ;;
         react moved now
     end).

(** [XArmGradioController._ensure_report_callback]. *)
Definition _ensure_report_callback : M unit :=
  present <- gets has_arm ;;
  registered <- gets _cb_registered ;;
  if negb present then ret tt
  else if registered then ret tt
  else
    try_except
      (sdk hw (RegisterReportCallback true) ;; set_cb_registered true)
      (fun _ => set_cb_registered false).

(** [XArmGradioController._stop_playback_thread]. *)
Definition _stop_playback_thread : M unit :=
  th <- gets _play_thread ;;
  match th with
  | Some true => set_stop_play_evt true ;; emit (ThreadJoin "playback")
  | _ => ret tt
  end ;;
  set_play_thread None.

(** [XArmGradioController.connect]. *)
Definition connect (ip_in : string) : M (string * bool) :=
  if negb (installed hw) then ret ("xarm-python-sdk not installed", false)
  else
    present <- gets has_arm ;;
    if present then ret ("already connected", true)
    else
      try_except
        (sdk hw (Open ip_in) ;;
         set_arm (Some ip_in) ;;
         set_ip ip_in ;;
         (* Bringup *)
         sdk hw (MotionEnable true) ;;
         sdk hw (SetMode 0) ;;
         sdk hw (SetState 0) ;;
         (* Collision sensitivity default *)
         level <- gets (fun w => collision_sensitivity (state w)) ;;
         attempt (sdk hw (SetCollisionSensitivity level)) ;;
         (* Optional teach sensitivity *)
         level <- gets (fun w => teach_sensitivity (state w)) ;;
         when (has_attr hw "set_teach_sensitivity")
              (attempt (sdk hw (SetTeachSensitivity level))) ;;
         set_connected true ;;
         set_last_status "connected" ;;
         ret ("connected", true))
        (fun e =>
           set_arm None ;;
           set_connected false ;;
           ret ("connect failed: " ++ e, false)).

(** [XArmGradioController.disconnect]. *)
Definition disconnect : M (string * bool) :=
  _stop_playback_thread ;;
  present <- gets has_arm ;;
  is_rec <- gets (fun w => recording (state w)) ;;
  (* stop without saving if mid-gesture *)
  when (present && is_rec) (attempt (sdk hw (StopRecordTrajectory None))) ;;
  registered <- gets _cb_registered ;;
  when (present && registered)
       (attempt (sdk hw (RegisterReportCallback false)) ;;
        set_cb_registered false) ;;
  teaching <- gets (fun w => teach_mode (state w)) ;;
  when (present && teaching)
       (attempt (sdk hw (SetMode 0) ;; sdk hw (SetState 0))) ;;
  finally_return
    (attempt (present <- gets has_arm ;; when present (sdk hw Disconnect ;; ret tt)))
    (set_arm None ;;
     set_connected false ;;
     set_teach_mode false ;;
     set_recording false ;;
     set_last_status "disconnected" ;;
     ret ("disconnected", false)).

(** [XArmGradioController.toggle_teach]. *)
Definition toggle_teach (enable : bool) : M string :=
  present <- gets has_arm ;;
  if negb present then ret "not connected"
  else
    try_except
      ((if enable then
          sdk hw (SetMode 2) ;;
          sdk hw (SetState 0) ;;
          _ensure_report_callback ;;
          set_teach_mode true ;;
          set_last_status "waiting"
        else
          is_rec <- gets (fun w => recording (state w)) ;;
          when is_rec
            ((* stop without save on explicit exit *)
             attempt (sdk hw (StopRecordTrajectory None)) ;;
             set_recording false ;;
             set_record_started false) ;;
          sdk hw (SetMode 0) ;;
          sdk hw (SetState 0) ;;
          registered <- gets _cb_registered ;;
          when registered
            (attempt (sdk hw (RegisterReportCallback false)) ;;
             set_cb_registered false) ;;
          set_teach_mode false ;;
          set_last_status "idle") ;;
       gets (fun w => last_status (state w)))
      (fun e => ret ("teach toggle failed: " ++ e)).

(** [XArmGradioController.start_playback].  Of the playback thread only
    its start, its liveness and its join are kept; its body
    ([_playback_loop]) touches no field of the controller. *)
Definition start_playback (ui_speed : R) : M string :=
  present <- gets has_arm ;;
  if negb present then ret "not connected"
  else
    th <- gets _play_thread ;;
    match th with
    | Some true => ret "playback already running"
    | _ =>
        set_playback_speed (Py.max 0 (Py.min 5 ui_speed)) ;;
        set_stop_play_evt false ;;
        set_play_thread (Some true) ;;
        emit (ThreadStart "playback") ;;
        set_last_status "play:start" ;;
        gets (fun w => last_status (state w))
    end.

(** [XArmGradioController.stop_playback]. *)
Definition stop_playback : M string :=
  _stop_playback_thread ;;
  set_last_status "play:stop" ;;
  gets (fun w => last_status (state w)).

(** A run of report callbacks, oldest first. *)
Fixpoint on_reports (ticks : list (report * R)) (w : Ctl) : Ctl :=
  match ticks with
  | [] => w
  | (data, now) :: rest => on_reports rest (snd (_on_report data now w))
  end.

End Methods.

(** ** The controller as a transition system *)

Inductive op : Type :=
| Connect (ip_in : string)
| DisconnectOp
| ToggleTeach (enable : bool)
| Report (data : report) (now : R)
| StartPlayback (ui_speed : R)
| StopPlayback.

Definition exec (hw : Arm) (o : op) (w : Ctl) : Ctl :=
  match o with
  | Connect a => snd (connect hw a w)
  | DisconnectOp => snd (disconnect hw w)
  | ToggleTeach b => snd (toggle_teach hw b w)
  | Report d t => snd (_on_report hw d t w)
  | StartPlayback v => snd (start_playback v w)
  | StopPlayback => snd (stop_playback w)
  end.

Fixpoint run (hw : Arm) (ops : list op) (w : Ctl) : Ctl :=
  match ops with
  | [] => w
  | o :: rest => run hw rest (exec hw o w)
  end.

End XArmGradioController.

(* ================================================================== *)
(** * The motion criterion in the words of the specification *)
(* ================================================================== *)

Module DetectorSpec.

Import XArmGradioController.
Local Open Scope R_scope.

(** The per-joint deltas between a report and the previous one. *)
Definition deltas (q last_q : list R) : list R :=
  map (fun ab => fst ab - snd ab) (Py.zip q last_q).

(** The Euclidean norm of a vector. *)
Definition euclidean_norm (ds : list R) : R :=
  sqrt (fold_right (fun d acc => d * d + acc) 0 ds).

(** [m] is the maximum of [l]. *)
Definition is_max (m : R) (l : list R) : Prop :=
  In m l /\ forall x, In x l -> x <= m.

(** Motion, as the specification declares it:
    [dist >= motion_threshold OR max_abs >= 0.6 * motion_threshold]. *)
Definition spec_moved (threshold : R) (q last_q : list R) : Prop :=
  euclidean_norm (deltas q last_q) >= threshold
  \/ exists max_abs,
       is_max max_abs (map Rabs (deltas q last_q))
       /\ max_abs >= (6 / 10) * threshold.

(** A tick below both bounds:
    [dist < motion_threshold] and [max_abs < 0.6 * motion_threshold]. *)
Definition spec_still (threshold : R) (q last_q : list R) : Prop :=
  euclidean_norm (deltas q last_q) < threshold
  /\ forall max_abs,
       is_max max_abs (map Rabs (deltas q last_q)) ->
       max_abs < (6 / 10) * threshold.

(** A report that carries a usable joint vector. *)
Definition usable (data : report) : bool :=
  match joints_of data with
  | Some (_ :: _) => true
  | _ => false
  end.

(** A run of reports in which no tick crosses either bound: every usable
    report that has a predecessor has [dist < threshold] and
    [max_abs < 0.6 * threshold] against it.  [last] is the joint vector
    of the latest usable report before the run. *)
Fixpoint below_threshold (threshold : R) (last : option (list R))
         (ticks : list (report * R)) : Prop :=
  match ticks with
  | [] => True
  | (data, _) :: rest =>
      match joints_of data with
      | Some (a :: q) =>
          match last with
          | Some last_q => spec_still threshold (a :: q) last_q
          | None => True
          end
          /\ below_threshold threshold (Some (a :: q)) rest
      | _ => below_threshold threshold last rest
      end
  end.


End DetectorSpec.

(* ================================================================== *)
(** * What a method leaves unchanged, and what it returns *)
(* ================================================================== *)

Module Footprint.

Import Sdk Eff.

(** [keeps P m]: whatever [m] does, and however it ends, the object before
    and the object after are related by [P]. *)
Definition keeps {W A : Type} (P : W -> W -> Prop) (m : Eff.M (W := W) A) : Prop :=
  forall w, P w (snd (m w)).

(** [yields Q m]: when [m] returns, the value returned satisfies [Q]. *)
Definition yields {W A : Type} (Q : A -> Prop) (m : Eff.M (W := W) A) : Prop :=
  forall w a w', m w = (Val a, w') -> Q a.

End Footprint.

(* ================================================================== *)
(** * Predicates on XArmController states *)
(* ================================================================== *)

Module XArmSpec.

Import Sdk Eff XArmController.

(** Everything of the controller except the trace. *)
Definition frame (w w' : Ctl) : Prop :=
  _arm w' = _arm w /\ state w' = state w
  /\ _stop_event w' = _stop_event w /\ _motion_thread w' = _motion_thread w.

(** The handle and the two session flags. *)
Definition core (w w' : Ctl) : Prop :=
  _arm w' = _arm w
  /\ connected (state w') = connected (state w)
  /\ playing (state w') = playing (state w).

(** The status strings with which a stop on a connected session ends. *)
Definition terminal_status (msg : string) : Prop :=
  msg = "Stopped"
  \/ Py.startswith "Stopped, return pose error: " msg = true
  \/ Py.startswith "Stop error: " msg = true.

(** [playing] may only have been cleared. *)
Definition lowered (w w' : Ctl) : Prop :=
  _arm w' = _arm w
  /\ connected (state w') = connected (state w)
  /\ (playing (state w') = true -> playing (state w) = true).

Definition same_playing (w w' : Ctl) : Prop :=
  playing (state w') = playing (state w).

Definition same_session (w w' : Ctl) : Prop :=
  _arm w' = _arm w /\ connected (state w') = connected (state w).

(** [playing] is set only on a session that is connected and has its handle. *)
Definition playing_connected (w : Ctl) : Prop :=
  playing (state w) = true -> not_connected w = false.

(** No move command was added to the trace. *)
Definition no_new_move (w w' : Ctl) : Prop :=
  filter is_move (trace w') = filter is_move (trace w).

Definition not_move (e : event) : bool := negb (is_move e).

End XArmSpec.

(* ================================================================== *)
(** * Predicates on XArmGradioController states *)
(* ================================================================== *)

Module GradioSpec.

Import Sdk Eff XArmGradioController.

(** The controller with a new previous sample. *)
Definition sampled (q : list R) (w : Ctl) : Ctl := snd (set_last_q (Some q) w).

(** No recording was started: no start call was added to the trace and
    neither recording flag was raised. *)
Definition no_start (w w' : Ctl) : Prop :=
  filter is_start_record (trace w') = filter is_start_record (trace w)
  /\ (recording (state w') = true -> recording (state w) = true)
  /\ (_record_started w' = true -> _record_started w = true).

Definition not_start (e : event) : bool := negb (is_start_record e).

(** The detector's own data: the previous sample, the configuration, the
    trajectory name. *)
Definition same_detector (w w' : Ctl) : Prop :=
  _last_q w' = _last_q w
  /\ detect_cfg w' = detect_cfg w
  /\ traj_filename (state w') = traj_filename (state w).



End GradioSpec.

(* ================================================================== *)
(** * Robots and sessions used as examples *)
(* ================================================================== *)

Module Scenarios.

Import Sdk.

Definition ok_answer : answer :=
  {| code := 0; pose := None; num := None; text := ""; err := 0; warn := 0 |}.

(** A robot on which every call returns code 0 and [get_position] reads
    [p]. *)
Definition obedient (p : option (list R)) : Arm :=
  {| installed := true;
     has_attr := fun _ => false;
     attr_is_radian := Returns false;
     respond := fun _ c =>
       match c with
       | GetPosition =>
           Returns {| code := 0; pose := p; num := None; text := "";
                      err := 0; warn := 0 |}
       | _ => Returns ok_answer
       end |}.

(** A robot whose link is already dead when it is released: [disconnect]
    raises, every other call returns code 0. *)
Definition dead_on_release : Arm :=
  {| installed := true;
     has_attr := fun _ => false;
     attr_is_radian := Returns false;
     respond := fun _ c =>
       match c with
       | Disconnect => Raises "link down"
       | _ => Returns ok_answer
       end |}.

(** A robot that cannot store a trajectory: [stop_record_trajectory] with a
    file name raises, every other call returns code 0. *)
Definition save_fails : Arm :=
  {| installed := true;
     has_attr := fun _ => false;
     attr_is_radian := Returns true;
     respond := fun _ c =>
       match c with
       | StopRecordTrajectory (Some _) => Raises "save failed"
       | _ => Returns ok_answer
       end |}.

(** A robot that refuses to record: [start_record_trajectory] raises. *)
Definition record_refused : Arm :=
  {| installed := true;
     has_attr := fun _ => false;
     attr_is_radian := Returns true;
     respond := fun _ c =>
       match c with
       | StartRecordTrajectory => Raises "busy"
       | _ => Returns ok_answer
       end |}.


(** A full pose and a malformed one. *)
Definition home_pose : list R := [300; 0; 200; 180; 0; 0]%R.
Definition short_pose : list R := [300; 0; 200]%R.

(** An [XArmController] session after a successful connect. *)
Definition xarm_connected (hw : Arm) : XArmController.Ctl :=
  XArmController.exec hw (XArmController.Connect "192.168.1.221")
                      XArmController.init.

(** The same session after a successful play. *)
Definition xarm_playing (hw : Arm) : XArmController.Ctl :=
  XArmController.exec hw (XArmController.Play 5 50 50 "z") (xarm_connected hw).

(** Report dictionaries carrying one joint vector under ["angles"]. *)
Definition angles (q : list R) : XArmGradioController.report :=
  fun key => if String.eqb key "angles" then Some q else None.

(** An [XArmGradioController] in teach mode. *)
Definition gradio_teaching (hw : Arm) : XArmGradioController.Ctl :=
  XArmGradioController.run hw
    [XArmGradioController.Connect "192.168.1.221";
     XArmGradioController.ToggleTeach true]
    (XArmGradioController.init XArmGradioController.DetectConfig_default).

(** The same controller once a recording has been started, the last
    motion being seen at time 11 on the joint vector [1]. *)
Definition gradio_recording (hw : Arm) : XArmGradioController.Ctl :=
  snd (Eff.bind (XArmGradioController.set_last_q (Some [1%R]))
         (fun _ => Eff.bind (XArmGradioController.set_last_motion_t 11%R)
            (fun _ => XArmGradioController.begin_recording hw))
         (gradio_teaching hw)).

End Scenarios.

(* ================================================================== *)
(** * Further notions on poses and on the motion loop *)
(* ================================================================== *)

Module MotionSpec.

Import Sdk Eff XArmController.
Local Open Scope R_scope.

(** Column [j] of a 3x3 matrix stored as a list of rows. *)
Definition column (m : list (list R)) (j : nat) : R * R * R :=
  (PoseMath.at2 m 0 j, PoseMath.at2 m 1 j, PoseMath.at2 m 2 j).

(** Row [i] of a 3x3 matrix stored as a list of rows. *)
Definition row (m : list (list R)) (i : nat) : R * R * R :=
  (PoseMath.at2 m i 0, PoseMath.at2 m i 1, PoseMath.at2 m i 2).

Definition dot3 (u v : R * R * R) : R :=
  let '(a, b, c) := u in
  let '(x, y, z) := v in
  a * x + b * y + c * z.

Definition det3 (m : list (list R)) : R :=
  PoseMath.at2 m 0 0
    * (PoseMath.at2 m 1 1 * PoseMath.at2 m 2 2 - PoseMath.at2 m 1 2 * PoseMath.at2 m 2 1)
  - PoseMath.at2 m 0 1
    * (PoseMath.at2 m 1 0 * PoseMath.at2 m 2 2 - PoseMath.at2 m 1 2 * PoseMath.at2 m 2 0)
  + PoseMath.at2 m 0 2
    * (PoseMath.at2 m 1 0 * PoseMath.at2 m 2 1 - PoseMath.at2 m 1 1 * PoseMath.at2 m 2 0).

(** [n] moves between the two endpoints, the first one to the high
    endpoint when [high] is set, each to the other endpoint than the one
    before. *)
Fixpoint alternating (n : nat) (p_low p_high : list R) (v a : R) (high : bool)
  : list event :=
  match n with
  | O => []
  | S k =>
      SetPosition (if high then p_high else p_low) v (Some a)
        :: alternating k p_low p_high v a (negb high)
  end.

(** [v_target] of [_p2p_loop]. *)
Definition v_target_of (max_v speed : R) : R :=
  Py.max 0 (Py.min 100 speed) / 100 * (max_v * 4).

(** [a_target] of [_p2p_loop]. *)
Definition a_target_of (max_a accel : R) : R :=
  Py.max 0 (Py.min 100 accel) / 100 * (max_a * 4).

(** [ret_speed] of [stop_motion]. *)
Definition ret_speed_of (vmax last : R) : R :=
  Py.max 20 (Py.min vmax (vmax * (Py.max 0 (Py.min 100 last) / 100))).

(** Only [last_error] and the trace may differ. *)
Definition only_status (w w' : Ctl) : Prop :=
  _arm w' = _arm w
  /\ _stop_event w' = _stop_event w
  /\ _motion_thread w' = _motion_thread w
  /\ connected (state w') = connected (state w)
  /\ teach_enabled (state w') = teach_enabled (state w)
  /\ playing (state w') = playing (state w)
  /\ init_pose (state w') = init_pose (state w)
  /\ max_tcp_lin_vel_mmps (state w') = max_tcp_lin_vel_mmps (state w)
  /\ last_play_speed_pct (state w') = last_play_speed_pct (state w).

(** The handle and the address are as before. *)
Definition same_link (w w' : Ctl) : Prop :=
  _arm w' = _arm w /\ ip (state w') = ip (state w).

(** The controller after one more event. *)
Definition pushed (e : event) (w : Ctl) : Ctl := with_trace (trace w ++ [e]) w.

(** The thread started by a successful play. *)
Definition started_thread (amplitude_cm speed accel : R) (ax : string) : Thread :=
  {| amp_mm := PoseMath.amp_mm_of_cm amplitude_cm; speed_percent := speed;
     accel_percent := accel; axis := ax; is_alive := true |}.

End MotionSpec.

(* ================================================================== *)
(** * The motion threads of an XArmController *)
(* ================================================================== *)

Module MotionTasks.

Import Sdk Eff XArmController.

(** A controller together with the thread objects it created and no
    longer refers to.  [self._motion_thread = threading.Thread(...)]
    replaces the reference, not the thread: a thread that
    [stop_motion] has joined for its two seconds without success is
    still alive when the next play overwrites the slot. *)
Record Pool : Type := mkPool {
  ctl : Ctl;
  released : list Thread
}.


(** Whether [play_point_to_point] created and started a thread. *)
Definition started (r : res string) : bool :=
  match r with
  | Val msg => String.eqb msg "Point-to-point motion started"
  | Exc _ => false
  end.

(** The thread [t] after its body has ended. *)
Definition ended (t : Thread) : Thread :=
  {| amp_mm := amp_mm t; speed_percent := speed_percent t;
     accel_percent := accel_percent t; axis := axis t; is_alive := false |}.

Fixpoint end_nth (i : nat) (l : list Thread) : list Thread :=
  match l, i with
  | [], _ => []
  | t :: rest, O => ended t :: rest
  | t :: rest, S j => t :: end_nth j rest
  end.

(** What happens to a pool: a command of the UI or the run of the thread
    in the slot (an [op]), or the run of a released thread, which executes
    [_p2p_loop] on the arguments it was created with, on the same
    controller and so on the same stop event. *)
Inductive task_op : Type :=
| Command (o : op)
| ReleasedRuns (i : nat) (polls : nat).

Definition step (hw : Arm) (t : task_op) (p : Pool) : Pool :=
  match t with
  | Command (Play a s c x) =>
      let r := play_point_to_point hw a s c x (ctl p) in
      {| ctl := snd r;
         released :=
           if started (fst r) then
             match _motion_thread (ctl p) with
             | Some old => old :: released p
             | None => released p
             end
           else released p |}
  | Command o => {| ctl := exec hw o (ctl p); released := released p |}
  | ReleasedRuns i polls =>
      match nth_error (released p) i with
      | Some t =>
          if is_alive t then
            {| ctl := snd (_p2p_loop hw polls (amp_mm t) (speed_percent t)
                                     (accel_percent t) (axis t) (ctl p));
               released := end_nth i (released p) |}
          else p
      | None => p
      end
  end.

Fixpoint run_pool (hw : Arm) (ts : list task_op) (p : Pool) : Pool :=
  match ts with
  | [] => p
  | t :: rest => run_pool hw rest (step hw t p)
  end.



(** A command other than play. *)
Definition not_play (o : op) : bool :=
  match o with Play _ _ _ _ => false | _ => true end.

(** A step other than a play command. *)
Definition quiet (t : task_op) : bool :=
  match t with Command o => not_play o | ReleasedRuns _ _ => true end.


(** A stop event that was set is still set. *)
Definition event_kept (w w' : Ctl) : Prop :=
  _stop_event w = true -> _stop_event w' = true.


End MotionTasks.

(* ================================================================== *)
(** * app_xarm_memoryloop.py: settings *)
(* ================================================================== *)

Module GradioSettings.

Import Sdk Eff XArmGradioController.
Local Open Scope eff_scope.

Local Abbreviation M := (Eff.M (W := Ctl)).

(** [self.state.teach_sensitivity = level]. *)
Definition assign_teach_sensitivity (v : Z) : M unit :=
  upd_state (fun s =>
    {| ip := ip s; connected := connected s; teach_mode := teach_mode s;
       recording := recording s; last_status := last_status s;
       traj_filename := traj_filename s; playback_speed := playback_speed s;
       collision_sensitivity := collision_sensitivity s;
       teach_sensitivity := v |}).

(** [XArmGradioController.set_teach_sensitivity], on the integer its
    caller passes. *)
Definition set_teach_sensitivity (hw : Arm) (level : Z) : M string :=
  present <- gets has_arm ;;
  if negb present then ret "not connected"
  else
    let level := Z.max 0 (Z.min 5 level) in
    if negb (has_attr hw "set_teach_sensitivity") then
      ret "teach sensitivity unsupported"
    else
      try_except
        (r <- sdk hw (SetTeachSensitivity level) ;;
         assign_teach_sensitivity level ;;
         ret ("teach_sens:" ++ Py.str_of_Z level
                ++ " (code " ++ Py.str_of_Z (code r) ++ ")"))
        (fun e => ret ("teach sensitivity set failed: " ++ e)).

(** [XArmGradioController._snap_double_speed]. *)
Definition _snap_double_speed (ui_speed : R) : Z :=
  if Py.geb ui_speed 3 then 4%Z
  else if Py.geb ui_speed (15 / 10) then 2%Z
  else 1%Z.

End GradioSettings.

(* ================================================================== *)
(** * Predicates on XArmGradioController sessions *)
(* ================================================================== *)

Module SessionSpec.

Import Sdk Eff XArmGradioController.

(** The flags of a session agree with its handle: [connected] tells
    whether there is a handle; teach mode, a recording and a registered
    callback need one; a recording has been started. *)
Definition session_ok (w : Ctl) : bool :=
  Bool.eqb (connected (state w)) (has_arm w)
  && implb (teach_mode (state w)) (has_arm w)
  && implb (recording (state w)) (has_arm w && _record_started w)
  && implb (_cb_registered w) (has_arm w).

Definition is_playback_start (e : event) : bool :=
  match e with ThreadStart name => String.eqb name "playback" | _ => false end.

Definition is_playback_join (e : event) : bool :=
  match e with ThreadJoin name => String.eqb name "playback" | _ => false end.

(** The playback threads started, less the join calls made on playback
    threads.  A join call waits for one second at most: it need not have
    ended the thread it was made on. *)
Definition unjoined_starts (w : Ctl) : Z :=
  (Z.of_nat (List.length (filter is_playback_start (trace w)))
   - Z.of_nat (List.length (filter is_playback_join (trace w))))%Z.

(** The live playback thread objects the controller refers to, through
    [_play_thread]: one or none. *)
Definition held_playbacks (w : Ctl) : Z :=
  match _play_thread w with Some true => 1%Z | _ => 0%Z end.

(** Nothing of the session proper has changed: the handle, the session
    flags, the recording flag, the callback flag. *)
Definition same_flags (w w' : Ctl) : Prop :=
  arm w' = arm w
  /\ connected (state w') = connected (state w)
  /\ teach_mode (state w') = teach_mode (state w)
  /\ recording (state w') = recording (state w)
  /\ _record_started w' = _record_started w
  /\ _cb_registered w' = _cb_registered w.

(** The playback thread and its events are as before. *)
Definition same_playback (w w' : Ctl) : Prop :=
  _play_thread w' = _play_thread w
  /\ filter is_playback_start (trace w') = filter is_playback_start (trace w)
  /\ filter is_playback_join (trace w') = filter is_playback_join (trace w).

(** An event that is neither the start nor the join of a playback
    thread. *)
Definition not_playback (e : event) : bool :=
  negb (is_playback_start e || is_playback_join e).

(** A stop of the recording that stores it under some name. *)
Definition is_saving (e : event) : bool :=
  match e with StopRecordTrajectory (Some _) => true | _ => false end.

Definition not_saving (e : event) : bool := negb (is_saving e).

(** No recording was stored. *)
Definition no_save (w w' : Ctl) : Prop :=
  filter is_saving (trace w') = filter is_saving (trace w).

(** The two recording flags are as before. *)
Definition same_recording (w w' : Ctl) : Prop :=
  _record_started w' = _record_started w
  /\ recording (state w') = recording (state w).

End SessionSpec.

(* ================================================================== *)
(** * Properties of the planner geometry *)
(* ================================================================== *)

Module PoseMathFacts.

Import PoseMath.
Local Open Scope R_scope.

Lemma max_lower (a b : R) : a <= Py.max a b.
Proof. unfold Py.max. destruct (Rlt_dec a b); lra. Qed.

Lemma max_cases (a b : R) :
  (a < b /\ Py.max a b = b) \/ (b <= a /\ Py.max a b = a).
Proof. unfold Py.max. destruct (Rlt_dec a b); [left | right]; split; lra. Qed.

Lemma min_cases (a b : R) :
  (b < a /\ Py.min a b = b) \/ (a <= b /\ Py.min a b = a).
Proof. unfold Py.min. destruct (Rlt_dec b a); [left | right]; split; lra. Qed.

Lemma amp_mm_of_cm_range (amplitude_cm : R) :
  0 <= amp_mm_of_cm amplitude_cm <= 200.
Proof.
  unfold amp_mm_of_cm.
  destruct (min_cases 200 (amplitude_cm * 10)) as [[? Hm] | [? Hm]]; rewrite Hm;
    match goal with |- _ <= Py.max ?a ?b <= _ =>
      destruct (max_cases a b) as [[? Hx] | [? Hx]]; rewrite Hx end; lra.
Qed.

Lemma amp_mm_of_cm_50 : amp_mm_of_cm 50 = 200.
Proof.
  unfold amp_mm_of_cm.
  destruct (min_cases 200 (50 * 10)) as [[? Hm] | [? Hm]]; rewrite Hm;
    match goal with |- Py.max ?a ?b = _ =>
      destruct (max_cases a b) as [[? Hx] | [? Hx]]; rewrite Hx end; lra.
Qed.

Lemma twice_half_of (amp : R) : 0 <= amp -> 2 * half_of amp = amp.
Proof.
  intros Ha. unfold half_of.
  destruct (max_cases 0 amp) as [[? Hx] | [? Hx]]; rewrite Hx; lra.
Qed.

Lemma half_of_nonneg (amp : R) : 0 <= half_of amp.
Proof. unfold half_of. pose proof (max_lower 0 amp). lra. Qed.

Lemma valid_axis_col (axis : string) :
  In axis ["x"; "y"; "z"; "X"; "Y"; "Z"]%string ->
  exists col, _tool_axis_col axis = Val col /\ (col < 3)%nat.
Proof.
  simpl. intros [H|[H|[H|[H|[H|[H|[]]]]]]]; subst axis;
    [exists 0%nat|exists 1%nat|exists 2%nat|exists 0%nat|exists 1%nat|exists 2%nat];
    split; try reflexivity; lia.
Qed.

(** Every column of the roll-pitch-yaw matrix has squared length one. *)
Lemma column_unit (rx ry rz : R) (is_radian : bool) (col : nat) :
  (col < 3)%nat ->
  let Rm := _rpy_to_rot rx ry rz is_radian in
  at2 Rm 0 col * at2 Rm 0 col + at2 Rm 1 col * at2 Rm 1 col
    + at2 Rm 2 col * at2 Rm 2 col = 1.
Proof.
  intros Hc. unfold _rpy_to_rot.
  set (a := if is_radian then rx else Py.radians rx).
  set (b := if is_radian then ry else Py.radians ry).
  set (c := if is_radian then rz else Py.radians rz).
  pose proof (sin2_cos2 a) as Ha. pose proof (sin2_cos2 b) as Hb.
  pose proof (sin2_cos2 c) as Hc'. unfold Rsqr in *.
  destruct col as [|[|[|col]]]; [| | |lia]; cbn [at2 nth].
  - transitivity ((sin c * sin c + cos c * cos c) * (cos b * cos b) + sin b * sin b);
      [ring | rewrite Hc'; lra].
  - transitivity ((sin c * sin c + cos c * cos c)
                    * ((sin b * sin b) * (sin a * sin a) + cos a * cos a)
                  + (cos b * cos b) * (sin a * sin a)); [ring |].
    rewrite Hc'.
    transitivity ((sin b * sin b + cos b * cos b) * (sin a * sin a) + cos a * cos a);
      [ring | rewrite Hb; lra].
  - transitivity ((sin c * sin c + cos c * cos c)
                    * ((sin b * sin b) * (cos a * cos a) + sin a * sin a)
                  + (cos b * cos b) * (cos a * cos a)); [ring |].
    rewrite Hc'.
    transitivity ((sin b * sin b + cos b * cos b) * (cos a * cos a) + sin a * sin a);
      [ring | rewrite Hb; lra].
Qed.

(** The guard [max(1e-9, norm)] is inert: the direction is the column. *)
Lemma tool_direction_column (rx ry rz : R) (is_radian : bool) (col : nat) :
  (col < 3)%nat ->
  let Rm := _rpy_to_rot rx ry rz is_radian in
  tool_direction rx ry rz is_radian col
  = (at2 Rm 0 col, at2 Rm 1 col, at2 Rm 2 col).
Proof.
  intros Hc Rm. unfold tool_direction. fold Rm.
  pose proof (column_unit rx ry rz is_radian col Hc) as Hu.
  cbv zeta in Hu. fold Rm in Hu. rewrite Hu, sqrt_1.
  destruct (max_cases (1 / 1000000000) 1) as [[_ Hx] | [Hx _]]; [|exfalso; lra].
  rewrite Hx. f_equal; [f_equal|]; field.
Qed.

Lemma tool_direction_unit (rx ry rz : R) (is_radian : bool) (col : nat) :
  (col < 3)%nat -> norm3 (tool_direction rx ry rz is_radian col) = 1.
Proof.
  intros Hc. rewrite tool_direction_column by exact Hc.
  unfold norm3. pose proof (column_unit rx ry rz is_radian col Hc) as Hu.
  cbv zeta in Hu. rewrite Hu. apply sqrt_1.
Qed.

(** The endpoints of a six-component pose, spelled out. *)
Lemma p2p_endpoints_six (x y z rx ry rz amp : R) (is_radian : bool)
      (axis : string) (col : nat) :
  _tool_axis_col axis = Val col ->
  p2p_endpoints [x; y; z; rx; ry; rz] is_radian axis amp
  = let '(fx, fy, fz) := tool_direction rx ry rz is_radian col in
    let half := half_of amp in
    Val (Some ([x - fx * half; y - fy * half; z - fz * half; rx; ry; rz],
               [x + fx * half; y + fy * half; z + fz * half; rx; ry; rz])).
Proof.
  intros Hcol. unfold p2p_endpoints. cbn [List.length Nat.ltb Nat.leb].
  rewrite Hcol. reflexivity.
Qed.

(** C4: for a six-component centre pose and a tool axis among X, Y, Z, the
    planner returns two endpoints whose midpoint is the centre pose, the
    direction along which they are offset has length one, and both
    endpoints carry the orientation of the centre. *)
Theorem endpoints_centred_unit_direction
        (x y z rx ry rz amp : R) (is_radian : bool) (axis : string) :
  In axis ["x"; "y"; "z"; "X"; "Y"; "Z"]%string ->
  exists col fx fy fz low high,
    _tool_axis_col axis = Val col
    /\ tool_direction rx ry rz is_radian col = (fx, fy, fz)
    /\ p2p_endpoints [x; y; z; rx; ry; rz] is_radian axis amp = Val (Some (low, high))
    /\ low = [x - fx * half_of amp; y - fy * half_of amp; z - fz * half_of amp;
              rx; ry; rz]
    /\ high = [x + fx * half_of amp; y + fy * half_of amp; z + fz * half_of amp;
               rx; ry; rz]
    /\ midpoint low high = [x; y; z; rx; ry; rz]
    /\ norm3 (fx, fy, fz) = 1
    /\ skipn 3 low = [rx; ry; rz]
    /\ skipn 3 high = [rx; ry; rz].
Proof.
  intros Hax. destruct (valid_axis_col axis Hax) as (col & Hcol & Hlt).
  pose proof (tool_direction_unit rx ry rz is_radian col Hlt) as Hunit.
  pose proof (p2p_endpoints_six x y z rx ry rz amp is_radian axis col Hcol) as Hend.
  destruct (tool_direction rx ry rz is_radian col) as [[fx fy] fz] eqn:Hdir.
  cbv zeta in Hend.
  exists col, fx, fy, fz.
  eexists; eexists.
  repeat split; try eassumption; try reflexivity.
  unfold midpoint. cbn [Py.zip map fst snd].
  repeat (apply (f_equal2 cons); [field|]). reflexivity.
Qed.

Lemma endpoints_centred_unit_direction_witness :
  In "Z"%string ["x"; "y"; "z"; "X"; "Y"; "Z"]%string
  /\ exists col fx fy fz low high,
    _tool_axis_col "Z" = Val col
    /\ tool_direction 0 0 0 true col = (fx, fy, fz)
    /\ p2p_endpoints [300; 0; 200; 0; 0; 0] true "Z" 100 = Val (Some (low, high))
    /\ low = [300 - fx * half_of 100; 0 - fy * half_of 100; 200 - fz * half_of 100;
              0; 0; 0]
    /\ high = [300 + fx * half_of 100; 0 + fy * half_of 100; 200 + fz * half_of 100;
               0; 0; 0]
    /\ midpoint low high = [300; 0; 200; 0; 0; 0]
    /\ norm3 (fx, fy, fz) = 1
    /\ skipn 3 low = [0; 0; 0]
    /\ skipn 3 high = [0; 0; 0].
Proof.
  split.
  - simpl. tauto.
  - apply (endpoints_centred_unit_direction 300 0 200 0 0 0 100 true "Z").
    simpl. tauto.
Defined.

(** C5: the peak-to-peak distance between the endpoints the motion loop
    bounces between is the requested amplitude (centimetres times ten)
    clamped into [0, 200] millimetres; a request of 50 cm gives 200 mm. *)
Theorem effective_amplitude_clamped
        (amplitude_cm x y z rx ry rz : R) (is_radian : bool) (axis : string) :
  In axis ["x"; "y"; "z"; "X"; "Y"; "Z"]%string ->
  exists low high,
    p2p_endpoints [x; y; z; rx; ry; rz] is_radian axis (amp_mm_of_cm amplitude_cm)
    = Val (Some (low, high))
    /\ travel low high = Py.max 0 (Py.min 200 (amplitude_cm * 10))
    /\ 0 <= travel low high <= 200
    /\ (amplitude_cm = 50 -> travel low high = 200).
Proof.
  intros Hax. destruct (valid_axis_col axis Hax) as (col & Hcol & Hlt).
  pose proof (tool_direction_unit rx ry rz is_radian col Hlt) as Hunit.
  pose proof (p2p_endpoints_six x y z rx ry rz (amp_mm_of_cm amplitude_cm)
                                is_radian axis col Hcol) as Hend.
  destruct (tool_direction rx ry rz is_radian col) as [[fx fy] fz] eqn:Hdir.
  cbv zeta in Hend.
  eexists; eexists. split; [exact Hend|].
  assert (Ht : travel
                 [x - fx * half_of (amp_mm_of_cm amplitude_cm);
                  y - fy * half_of (amp_mm_of_cm amplitude_cm);
                  z - fz * half_of (amp_mm_of_cm amplitude_cm); rx; ry; rz]
                 [x + fx * half_of (amp_mm_of_cm amplitude_cm);
                  y + fy * half_of (amp_mm_of_cm amplitude_cm);
                  z + fz * half_of (amp_mm_of_cm amplitude_cm); rx; ry; rz]
               = amp_mm_of_cm amplitude_cm).
  { pose proof (amp_mm_of_cm_range amplitude_cm) as Hr.
    pose proof (twice_half_of _ (proj1 Hr)) as H2.
    set (h := half_of (amp_mm_of_cm amplitude_cm)) in *.
    unfold travel, norm3 in *.
    replace ((x + fx * h - (x - fx * h)) * (x + fx * h - (x - fx * h))
             + (y + fy * h - (y - fy * h)) * (y + fy * h - (y - fy * h))
             + (z + fz * h - (z - fz * h)) * (z + fz * h - (z - fz * h)))
      with ((2 * h) * (2 * h) * (fx * fx + fy * fy + fz * fz)) by ring.
    rewrite sqrt_mult_alt by nra.
    rewrite Hunit, sqrt_square by lra. lra. }
  rewrite Ht. split; [reflexivity|]. split; [apply amp_mm_of_cm_range|].
  intros ->. apply amp_mm_of_cm_50.
Qed.

Lemma effective_amplitude_clamped_witness :
  In "x"%string ["x"; "y"; "z"; "X"; "Y"; "Z"]%string
  /\ exists low high,
    p2p_endpoints [300; 0; 200; 180; 0; 0] false "x" (amp_mm_of_cm 50)
    = Val (Some (low, high))
    /\ travel low high = Py.max 0 (Py.min 200 (50 * 10))
    /\ 0 <= travel low high <= 200
    /\ (50 = 50 -> travel low high = 200).
Proof.
  split.
  - simpl. tauto.
  - apply (effective_amplitude_clamped 50 300 0 200 180 0 0 false "x").
    simpl. tauto.
Defined.

End PoseMathFacts.

(* ================================================================== *)
(** * Reasoning about methods *)
(* ================================================================== *)

Module EffFacts.

Import Sdk Eff Footprint.
Local Open Scope eff_scope.

Lemma bind_gets {W A B : Type} (f : W -> A) (k : A -> Eff.M B) (w : W) :
  bind (gets f) k w = k (f w) w.
Proof. reflexivity. Qed.

Lemma bind_modify {W B : Type} (f : W -> W) (k : unit -> Eff.M B) (w : W) :
  bind (modify f) k w = k tt (f w).
Proof. reflexivity. Qed.

(** ** Footprints *)

Section Keeps.

Context {W : Type} `{Traced W}.

Variable P : W -> W -> Prop.
Variable allowed : event -> bool.
Hypothesis P_refl : forall w, P w w.
Hypothesis P_trans : forall w1 w2 w3, P w1 w2 -> P w2 w3 -> P w1 w3.
Hypothesis P_event :
  forall w e, allowed e = true -> P w (with_trace (trace_of w ++ [e]) w).

Lemma keeps_ret {A : Type} (a : A) : keeps P (ret a).
Proof. intros w. apply P_refl. Qed.

Lemma keeps_raise {A : Type} (e : string) : keeps P (@raise W A e).
Proof. intros w. apply P_refl. Qed.

Lemma keeps_gets {A : Type} (f : W -> A) : keeps P (gets f).
Proof. intros w. apply P_refl. Qed.

Lemma keeps_bind {A B : Type} (m : Eff.M A) (k : A -> Eff.M B) :
  keeps P m -> (forall a, keeps P (k a)) -> keeps P (bind m k).
Proof.
  intros Hm Hk w. unfold bind. specialize (Hm w).
  destruct (m w) as [[a|e] w1]; cbn in *.
  - eapply P_trans; [exact Hm | apply Hk].
  - exact Hm.
Qed.

Lemma keeps_try_except {A : Type} (m : Eff.M A) (h : string -> Eff.M A) :
  keeps P m -> (forall e, keeps P (h e)) -> keeps P (try_except m h).
Proof.
  intros Hm Hh w. unfold try_except. specialize (Hm w).
  destruct (m w) as [[a|e] w1]; cbn in *.
  - exact Hm.
  - eapply P_trans; [exact Hm | apply Hh].
Qed.

Lemma keeps_attempt {A : Type} (m : Eff.M A) : keeps P m -> keeps P (attempt m).
Proof. intros Hm w. apply Hm. Qed.

Lemma keeps_try_finally {A : Type} (m : Eff.M A) (fin : Eff.M unit) :
  keeps P m -> keeps P fin -> keeps P (try_finally m fin).
Proof.
  intros Hm Hf w. unfold try_finally. specialize (Hm w).
  destruct (m w) as [r w1]. specialize (Hf w1).
  destruct (fin w1) as [[u|e] w2]; cbn in *; eapply P_trans; eassumption.
Qed.

Lemma keeps_finally_return {A B : Type} (m : Eff.M A) (fin : Eff.M B) :
  keeps P m -> keeps P fin -> keeps P (finally_return m fin).
Proof.
  intros Hm Hf w. unfold finally_return.
  eapply P_trans; [apply Hm | apply Hf].
Qed.

Lemma keeps_when (b : bool) (m : Eff.M unit) : keeps P m -> keeps P (when b m).
Proof. intros Hm. destruct b; [exact Hm | apply keeps_ret]. Qed.

Lemma keeps_sdk (hw : Arm) (c : event) : allowed c = true -> keeps P (sdk hw c).
Proof.
  intros Hc w. unfold sdk.
  destruct (respond hw (trace_of w) c); apply P_event, Hc.
Qed.

Lemma keeps_emit (e : event) : allowed e = true -> keeps P (emit e).
Proof. intros He w. apply P_event, He. Qed.

Lemma keeps_getattr (hw : Arm) : keeps P (getattr_is_radian hw).
Proof.
  unfold getattr_is_radian. destruct (attr_is_radian hw);
    [apply keeps_ret | apply keeps_raise].
Qed.

End Keeps.

Lemma keeps_weaken {W A : Type} (P Q : W -> W -> Prop) (m : Eff.M (W := W) A) :
  (forall w w', P w w' -> Q w w') -> keeps P m -> keeps Q m.
Proof. intros H K w. apply H, K. Qed.

(** Structural steps of a footprint proof; [al] tells which events the
    footprint admits. *)
Ltac keeps_step_with al :=
  lazymatch goal with
  | |- keeps _ (bind _ _) => apply keeps_bind
  | |- keeps _ (try_except _ _) => apply keeps_try_except
  | |- keeps _ (try_finally _ _) => apply keeps_try_finally
  | |- keeps _ (finally_return _ _) => apply keeps_finally_return
  | |- keeps _ (attempt _) => apply keeps_attempt
  | |- keeps _ (when _ _) => apply keeps_when
  | |- keeps _ (sdk _ _) => apply (keeps_sdk _ al)
  | |- keeps _ (emit _) => apply (keeps_emit _ al)
  | |- keeps _ (ret _) => apply keeps_ret
  | |- keeps _ (raise _) => apply keeps_raise
  | |- keeps _ (gets _) => apply keeps_gets
  | |- keeps _ (getattr_is_radian _) => apply keeps_getattr
  | |- keeps _ (if ?b then _ else _) => destruct b
  | |- keeps _ (match ?x with _ => _ end) => destruct x
  | |- forall _, keeps _ _ => intro
  end.

Ltac keeps_step := keeps_step_with (fun _ : Sdk.event => true).


Lemma yields_ret {W A : Type} (Q : A -> Prop) (a : A) :
  Q a -> yields Q (@ret W A a).
Proof. intros H w a' w' E. inversion E; subst. exact H. Qed.

Lemma yields_bind {W A B : Type} (Q : B -> Prop)
      (m : Eff.M (W := W) A) (k : A -> Eff.M B) :
  (forall a, yields Q (k a)) -> yields Q (bind m k).
Proof.
  intros Hk w b w' E. unfold bind in E.
  destruct (m w) as [[a|e] w1]; [eapply Hk; exact E | discriminate].
Qed.

Lemma yields_try_except {W A : Type} (Q : A -> Prop) (m : Eff.M (W := W) A)
      (h : string -> Eff.M A) :
  yields Q m -> (forall e, yields Q (h e)) -> yields Q (try_except m h).
Proof.
  intros Hm Hh w a w' E. unfold try_except in E.
  destruct (m w) as [[a1|e] w1] eqn:Em.
  - inversion E; subst. eapply Hm; exact Em.
  - eapply Hh; exact E.
Qed.

Ltac yields_step :=
  lazymatch goal with
  | |- yields _ (bind _ _) => apply yields_bind
  | |- yields _ (ret _) => apply yields_ret
  | |- yields _ (if ?b then _ else _) => destruct b
  | |- yields _ (match ?x with _ => _ end) => destruct x
  | |- forall _, yields _ _ => intro
  end.

End EffFacts.

(* ================================================================== *)
(** * Properties of XArmController *)
(* ================================================================== *)

Module XArmFacts.

Import Sdk Eff Footprint EffFacts XArmController XArmSpec.
Local Open Scope eff_scope.

Lemma startswith_append (s t : string) : Py.startswith s (s ++ t) = true.
Proof.
  induction s as [|a s IH]; cbn.
  - reflexivity.
  - rewrite Ascii.eqb_refl. exact IH.
Qed.



Lemma frame_refl w : frame w w.
Proof. repeat split. Qed.

Lemma frame_trans w1 w2 w3 : frame w1 w2 -> frame w2 w3 -> frame w1 w3.
Proof. unfold frame. intuition congruence. Qed.

Lemma frame_trace w t : frame w (with_trace t w).
Proof. repeat split. Qed.

Lemma core_refl w : core w w.
Proof. repeat split. Qed.

Lemma core_trans w1 w2 w3 : core w1 w2 -> core w2 w3 -> core w1 w3.
Proof. unfold core. intuition congruence. Qed.

Lemma core_trace w t : core w (with_trace t w).
Proof. repeat split. Qed.

Lemma frame_core w w' : frame w w' -> core w w'.
Proof. unfold frame, core. intros (? & -> & _). auto. Qed.

Create HintDb footprint.

#[local] Hint Resolve frame_refl frame_trans frame_trace
  core_refl core_trans core_trace : footprint.

Section WithArm.

Variable hw : Arm.

Lemma keeps_frame_check (c : Z) (ok_msg fail_msg : string) :
  keeps frame (_check hw c ok_msg fail_msg).
Proof.
  unfold _check. repeat (try solve [eauto with footprint]; keeps_step).
Qed.

Lemma keeps_frame_set_mode_and_ready (mode : Z) :
  keeps frame (_set_mode_and_ready hw mode).
Proof.
  unfold _set_mode_and_ready.
  repeat (try solve [eauto with footprint | apply keeps_frame_check]; keeps_step).
Qed.

(** ** Calls that never raise *)

Lemma sdk_cases (c : event) (w : Ctl) :
  exists w', frame w w'
    /\ ((exists a, sdk hw c w = (Val a, w')) \/ (exists e, sdk hw c w = (Exc e, w'))).
Proof.
  unfold sdk. eexists. split.
  2:{ destruct (respond hw (trace_of w) c); [left | right]; eexists; reflexivity. }
  repeat split.
Qed.

Lemma check_total (c : Z) (ok_msg fail_msg : string) (w : Ctl) :
  exists r w',
    _check hw c ok_msg fail_msg w = (Val r, w') /\ frame w w'
    /\ (fst r = true -> snd r = ok_msg)
    /\ (fst r = false -> Py.startswith fail_msg (snd r) = true).
Proof.
  pose proof (keeps_frame_check c ok_msg fail_msg w) as F.
  unfold _check in *. destruct (c =? 0)%Z.
  - exists (true, ok_msg), w. cbn. repeat split; auto. discriminate.
  - unfold bind at 1 in F. unfold bind at 1.
    match goal with |- context [try_except ?b ?h w] =>
      assert (Hx : exists l, fst (try_except b h w) = Val l);
      [| destruct (try_except b h w) as [r w1]; cbn [fst] in Hx;
         destruct Hx as (l & ->) ]
    end.
    { unfold try_except.
      match goal with |- context [match ?m w with _ => _ end] =>
        destruct (m w) as [[l|e] w1] end; eexists; reflexivity. }
    cbn in F. eexists; eexists. split; [reflexivity|]. split; [exact F|].
    cbn. split; [discriminate|]. intros _. apply startswith_append.
Qed.

Lemma set_mode_and_ready_total (mode : Z) (w : Ctl) :
  exists r w', _set_mode_and_ready hw mode w = (Val r, w') /\ frame w w'.
Proof.
  pose proof (keeps_frame_set_mode_and_ready mode w) as F.
  assert (Hx : exists r, fst (_set_mode_and_ready hw mode w) = Val r).
  { unfold _set_mode_and_ready, bind at 1, gets at 1.
    destruct (negb (has_arm w)); [eexists; reflexivity|].
    unfold try_except.
    match goal with |- context [match ?m w with _ => _ end] =>
      destruct (m w) as [[l|e] w1] end; eexists; reflexivity. }
  destruct (_set_mode_and_ready hw mode w) as [r w']. cbn in *.
  destruct Hx as (r' & ->). eauto.
Qed.

(** ** Stopping *)


Ltac setter :=
  solve [ intros ?; cbn; unfold frame, core; cbn; auto ].

Lemma keeps_core_check (c : Z) (ok_msg fail_msg : string) :
  keeps core (_check hw c ok_msg fail_msg).
Proof. eapply keeps_weaken; [apply frame_core | apply keeps_frame_check]. Qed.

Lemma keeps_core_set_mode_and_ready (mode : Z) :
  keeps core (_set_mode_and_ready hw mode).
Proof.
  eapply keeps_weaken; [apply frame_core | apply keeps_frame_set_mode_and_ready].
Qed.

Ltac keeps_core :=
  repeat (try solve [ eauto with footprint
                    | apply keeps_core_check
                    | apply keeps_core_set_mode_and_ready
                    | setter ];
          keeps_step).

Lemma keeps_core_stop_finish : keeps core (stop_finish hw).
Proof. unfold stop_finish, unpack6. keeps_core. Qed.

Lemma stop_finish_spec (w : Ctl) :
  exists msg w',
    stop_finish hw w = (Val msg, w') /\ terminal_status msg /\ core w w'.
Proof.
  pose proof (keeps_core_stop_finish w) as K.
  unfold stop_finish in *. unfold try_except in *.
  match goal with |- context [match ?m w with _ => _ end] =>
    assert (Y : yields terminal_status m);
    [| destruct (m w) as [[msg|e] w1] eqn:E ]
  end.
  { repeat yields_step; unfold terminal_status; auto. }
  - exists msg, w1. split; [reflexivity|]. split; [eapply Y; exact E | exact K].
  - eexists; eexists. split; [reflexivity|]. split; [| exact K].
    right; right. reflexivity.
Qed.

Lemma stop_motion_spec (w : Ctl) :
  not_connected w = false ->
  exists msg w',
    stop_motion hw w = (Val msg, w')
    /\ terminal_status msg
    /\ playing (state w') = false.
Proof.
  intros Hnc. unfold stop_motion.
  cbv beta iota delta [bind gets ret modify when set_playing set_stop_event
                       upd_state emit].
  rewrite Hnc.
  destruct (playing (state w)); cbn -[stop_finish];
    [destruct (_motion_thread w) as [t|]; cbn -[stop_finish];
     [destruct (is_alive t); cbn -[stop_finish]|]|];
    match goal with |- context [stop_finish hw ?x] =>
      destruct (stop_finish_spec x) as (msg & w' & E & T & (_ & _ & Hp)) end;
    rewrite E; exists msg, w'; (split; [reflexivity|]); (split; [exact T|]);
    rewrite Hp; reflexivity.
Qed.

(** C3: on a connected session (the flag is set and the handle is there),
    [stop_motion] returns one of its terminal status strings and leaves
    [playing] false, whatever the robot answers to the mode change and to
    the move back to the saved pose (a non-zero code or an exception
    included). *)
Theorem stop_motion_terminal (w : Ctl) :
  connected (state w) = true ->
  _arm w <> None ->
  exists msg w',
    stop_motion hw w = (Val msg, w')
    /\ terminal_status msg
    /\ playing (state w') = false.
Proof.
  intros Hc Ha. apply stop_motion_spec.
  unfold not_connected. rewrite Hc. destruct (_arm w); [reflexivity|congruence].
Qed.

(** ** The session invariant: playing only while connected *)




Lemma lowered_refl w : lowered w w.
Proof. repeat split; auto. Qed.

Lemma lowered_trans w1 w2 w3 : lowered w1 w2 -> lowered w2 w3 -> lowered w1 w3.
Proof. unfold lowered. intuition congruence. Qed.

Lemma lowered_trace w t : lowered w (with_trace t w).
Proof. repeat split; auto. Qed.

Lemma same_playing_refl w : same_playing w w.
Proof. reflexivity. Qed.

Lemma same_playing_trans w1 w2 w3 :
  same_playing w1 w2 -> same_playing w2 w3 -> same_playing w1 w3.
Proof. unfold same_playing. congruence. Qed.

Lemma same_playing_trace w t : same_playing w (with_trace t w).
Proof. reflexivity. Qed.

Lemma same_session_refl w : same_session w w.
Proof. split; reflexivity. Qed.

Lemma same_session_trans w1 w2 w3 :
  same_session w1 w2 -> same_session w2 w3 -> same_session w1 w3.
Proof. unfold same_session. intuition congruence. Qed.

Lemma same_session_trace w t : same_session w (with_trace t w).
Proof. split; reflexivity. Qed.

Lemma core_lowered w w' : core w w' -> lowered w w'.
Proof. unfold core, lowered. intuition congruence. Qed.

Lemma core_same_playing w w' : core w w' -> same_playing w w'.
Proof. unfold core, same_playing. tauto. Qed.

Lemma core_same_session w w' : core w w' -> same_session w w'.
Proof. unfold core, same_session. tauto. Qed.

#[local] Hint Resolve lowered_refl lowered_trans lowered_trace
  same_playing_refl same_playing_trans same_playing_trace
  same_session_refl same_session_trans same_session_trace : footprint.

(** Footprint proofs over any relation that [core] implies. *)
Ltac keeps_from_core H :=
  repeat (try solve [ eauto with footprint
                    | eapply keeps_weaken; [apply H | apply keeps_core_check]
                    | eapply keeps_weaken;
                      [apply H | apply keeps_core_set_mode_and_ready]
                    | eapply keeps_weaken; [apply H | apply keeps_core_stop_finish]
                    | intros ?; cbn;
                      unfold lowered, same_playing, same_session; cbn;
                      repeat split; intros; auto; discriminate ];
          keeps_step).

Lemma keeps_lowered_stop_motion : keeps lowered (stop_motion hw).
Proof. unfold stop_motion. keeps_from_core core_lowered. Qed.

Lemma stop_motion_clears (w : Ctl) :
  not_connected w = false -> playing (state (snd (stop_motion hw w))) = false.
Proof.
  intros Hnc.
  destruct (stop_motion_spec w Hnc) as (msg & w' & -> & _ & Hp). exact Hp.
Qed.

Lemma keeps_core_bounce (polls : nat) (p_low p_high : list R) (v a : R) (high : bool) :
  keeps core (bounce hw polls p_low p_high v a high).
Proof.
  revert high. induction polls as [|n IH]; intros high; cbn [bounce].
  - keeps_core.
  - repeat (try solve [eauto with footprint | apply IH | setter]; keeps_step).
Qed.

Lemma keeps_core_run_motion_thread (polls : nat) :
  keeps core (run_motion_thread hw polls).
Proof.
  unfold run_motion_thread, _p2p_loop.
  repeat (try solve [eauto with footprint | apply keeps_core_bounce | setter]; keeps_step).
Qed.

Lemma keeps_lowered_toggle_teach : keeps lowered (toggle_teach hw).
Proof.
  unfold toggle_teach.
  repeat (try solve [apply keeps_lowered_stop_motion]; 
          keeps_from_core core_lowered).
Qed.


Lemma lowered_invariant (w w' : Ctl) :
  lowered w w' -> playing_connected w -> playing_connected w'.
Proof.
  unfold lowered, playing_connected, not_connected.
  intros (-> & -> & Hp) Hi Hp'. auto.
Qed.

Lemma play_invariant (amplitude_cm speed accel : R) (ax : string) (w : Ctl) :
  playing_connected w ->
  playing_connected (snd (play_point_to_point hw amplitude_cm speed accel ax w)).
Proof.
  intros Hi. unfold play_point_to_point, bind at 1, gets at 1.
  destruct (not_connected w) eqn:Hnc; [exact Hi|].
  unfold bind at 1, gets at 1.
  destruct (playing (state w)) eqn:Hp; [exact Hi|].
  match goal with |- playing_connected (snd (?m w)) =>
    assert (K : keeps same_session m) end.
  { keeps_from_core core_same_session. }
  specialize (K w). destruct K as (Ka & Kc).
  intros _. unfold not_connected in *. rewrite Ka, Kc. exact Hnc.
Qed.

Lemma connect_invariant (ip_in : string) (w : Ctl) :
  playing_connected w -> playing_connected (snd (connect hw ip_in w)).
Proof.
  intros Hi. unfold connect, set_ip, upd_state.
  rewrite bind_gets, bind_modify.
  destruct (installed hw); cbn [negb].
  2:{ cbn. exact Hi. }
  rewrite !bind_gets. cbn [state connected].
  destruct (connected (state w)) eqn:Hc.
  { unfold playing_connected, not_connected in *. cbn. rewrite Hc in Hi. exact Hi. }
  match goal with |- playing_connected (snd (?m ?x)) =>
    assert (K : keeps same_playing m); [| specialize (K x) ] end.
  { keeps_from_core core_same_playing. }
  unfold same_playing in K.
  intros Hp. rewrite K in Hp. cbn in Hp. apply Hi in Hp.
  unfold not_connected in Hp. rewrite Hc in Hp. discriminate.
Qed.

Lemma disconnect_invariant (w : Ctl) :
  playing_connected w -> playing_connected (snd (disconnect hw w)).
Proof.
  intros Hi. unfold disconnect, bind at 1.
  assert (Hs : playing (state (snd (stop_motion hw w))) = false).
  { destruct (not_connected w) eqn:Hnc.
    - pose proof (keeps_lowered_stop_motion w) as (_ & _ & Hl).
      destruct (playing (state (snd (stop_motion hw w)))); [|reflexivity].
      specialize (Hl eq_refl). apply Hi in Hl. congruence.
    - apply stop_motion_clears. exact Hnc. }
  destruct (stop_motion hw w) as [[msg|e] w1]; cbn [snd] in *.
  2:{ intros Hp. congruence. }
  match goal with |- playing_connected (snd (?m w1)) =>
    assert (K : keeps same_playing m); [| specialize (K w1) ] end.
  { keeps_from_core core_same_playing. }
  unfold same_playing in K. intros Hp. congruence.
Qed.

Lemma exec_invariant (o : op) (w : Ctl) :
  playing_connected w -> playing_connected (exec hw o w).
Proof.
  intros Hi. destruct o; cbn [exec].
  - apply connect_invariant, Hi.
  - apply disconnect_invariant, Hi.
  - eapply lowered_invariant; [apply keeps_lowered_toggle_teach | exact Hi].
  - apply play_invariant, Hi.
  - eapply lowered_invariant; [apply keeps_lowered_stop_motion | exact Hi].
  - eapply lowered_invariant;
      [apply core_lowered, keeps_core_run_motion_thread | exact Hi].
Qed.

Lemma reachable_invariant (w : Ctl) : reachable hw w -> playing_connected w.
Proof.
  induction 1 as [|w o _ IH].
  - intros Hp. discriminate.
  - apply exec_invariant, IH.
Qed.

(** In every state the controller can reach by its commands and the runs
    of the thread in its slot, when [playing] is set a further
    [play_point_to_point] returns "Already playing" and changes nothing:
    every field keeps its value, no SDK call is made and no thread is
    started. *)
Theorem play_while_playing_rejected
        (amplitude_cm speed accel : R) (ax : string) (w : Ctl) :
  reachable hw w ->
  playing (state w) = true ->
  play_point_to_point hw amplitude_cm speed accel ax w = (Val "Already playing", w).
Proof.
  intros Hr Hp. pose proof (reachable_invariant w Hr Hp) as Hnc.
  unfold play_point_to_point, bind, gets. rewrite Hnc, Hp. reflexivity.
Qed.

(** ** Moves *)



Lemma no_new_move_refl w : no_new_move w w.
Proof. reflexivity. Qed.

Lemma no_new_move_trans w1 w2 w3 :
  no_new_move w1 w2 -> no_new_move w2 w3 -> no_new_move w1 w3.
Proof. unfold no_new_move. congruence. Qed.

Lemma no_new_move_event w e :
  not_move e = true -> no_new_move w (with_trace (trace_of w ++ [e]) w).
Proof.
  unfold no_new_move, not_move. intros He. cbn.
  rewrite filter_app. cbn. destruct (is_move e); [discriminate|].
  apply app_nil_r.
Qed.

Ltac keeps_no_move :=
  repeat (try solve [ apply no_new_move_refl
                    | apply no_new_move_trans
                    | apply no_new_move_event
                    | reflexivity
                    | intros ?; reflexivity ];
          keeps_step_with not_move).

Lemma keeps_no_move_check (c : Z) (ok_msg fail_msg : string) :
  keeps no_new_move (_check hw c ok_msg fail_msg).
Proof. unfold _check. keeps_no_move. Qed.

Lemma keeps_no_move_set_mode_and_ready (mode : Z) :
  keeps no_new_move (_set_mode_and_ready hw mode).
Proof.
  unfold _set_mode_and_ready.
  repeat (try solve [apply keeps_no_move_check]; keeps_no_move).
Qed.

Lemma keeps_no_move_play (amplitude_cm speed accel : R) (ax : string) :
  keeps no_new_move (play_point_to_point hw amplitude_cm speed accel ax).
Proof.
  unfold play_point_to_point.
  repeat (try solve [apply keeps_no_move_set_mode_and_ready]; keeps_no_move).
Qed.

(** The thread body on a saved pose with fewer than six components. *)
Lemma p2p_loop_short_pose (polls : nat) (amp speed accel : R) (ax : string)
      (p : list R) (w : Ctl) :
  init_pose (state w) = Some p ->
  (List.length p < 6)%nat ->
  snd (_p2p_loop hw polls amp speed accel ax w) = w.
Proof.
  intros Hp Hlen. unfold _p2p_loop. rewrite !bind_gets.
  destruct (has_arm w); cbn [negb]; [|reflexivity].
  rewrite !bind_gets. rewrite Hp. cbv zeta.
  unfold PoseMath.p2p_endpoints.
  apply Nat.ltb_lt in Hlen. rewrite Hlen. reflexivity.
Qed.

(** What the code keeps of the abort on a malformed read: when the pose
    read by [play_point_to_point] has fewer than six components, the pose
    is saved as it is and no move command is issued, neither by
    [play_point_to_point] nor by the motion task, which returns as soon as
    it runs without a single SDK call. *)
Theorem short_pose_no_move
        (amplitude_cm speed accel : R) (ax : string) (polls : nat)
        (w : Ctl) (r : answer) (p : list R) :
  not_connected w = false ->
  playing (state w) = false ->
  respond hw (trace w) GetPosition = Returns r ->
  code r = 0%Z ->
  pose r = Some p ->
  (List.length p < 6)%nat ->
  let w1 := snd (play_point_to_point hw amplitude_cm speed accel ax w) in
  let w2 := snd (run_motion_thread hw polls w1) in
  init_pose (state w1) = Some p
  /\ filter is_move (trace w1) = filter is_move (trace w)
  /\ trace w2 = trace w1.
Proof.
  intros Hnc Hpl Hr Hc Hp Hlen w1 w2.
  assert (Hinit : init_pose (state w1) = Some p).
  { subst w1. unfold play_point_to_point.
    rewrite bind_gets, Hnc, bind_gets, Hpl.
    unfold try_except, bind at 1, sdk at 1.
    change (trace_of w) with (trace w). rewrite Hr, Hc, Hp. cbn [Z.eqb].
    unfold set_init_pose, upd_state. rewrite bind_modify.
    match goal with |- context [bind (_set_mode_and_ready hw 0) ?k ?x] =>
      unfold bind at 1;
      destruct (set_mode_and_ready_total 0 x) as ([ok msg] & w' & E & F) end.
    rewrite E. destruct F as (_ & Fs & _).
    destruct ok; cbn; rewrite Fs; reflexivity. }
  split; [exact Hinit|]. split; [apply keeps_no_move_play|].
  subst w2. unfold run_motion_thread. rewrite bind_gets.
  destruct (_motion_thread w1) as [t|]; [|reflexivity].
  destruct (is_alive t); [|reflexivity].
  unfold bind, attempt.
  rewrite (p2p_loop_short_pose _ _ _ _ _ p w1 Hinit Hlen). reflexivity.
Qed.

End WithArm.

(** ** Examples *)

Import Scenarios.

Lemma stop_motion_terminal_witness :
  connected (state (xarm_playing (obedient (Some home_pose)))) = true
  /\ _arm (xarm_playing (obedient (Some home_pose))) <> None
  /\ exists msg w',
      stop_motion (obedient (Some home_pose))
                  (xarm_playing (obedient (Some home_pose))) = (Val msg, w')
      /\ terminal_status msg
      /\ playing (state w') = false.
Proof.
  split; [reflexivity|]. split; [discriminate|].
  apply (stop_motion_terminal (obedient (Some home_pose))
                              (xarm_playing (obedient (Some home_pose)))).
  - reflexivity.
  - discriminate.
Defined.

Lemma play_while_playing_rejected_witness :
  reachable (obedient (Some home_pose)) (xarm_playing (obedient (Some home_pose)))
  /\ playing (state (xarm_playing (obedient (Some home_pose)))) = true
  /\ play_point_to_point (obedient (Some home_pose)) 20 80 80 "x"
                         (xarm_playing (obedient (Some home_pose)))
     = (Val "Already playing", xarm_playing (obedient (Some home_pose))).
Proof.
  assert (Hr : reachable (obedient (Some home_pose))
                         (xarm_playing (obedient (Some home_pose)))).
  { unfold xarm_playing, xarm_connected. do 2 apply reach_step. apply reach_init. }
  split; [exact Hr|]. split; [reflexivity|].
  apply (play_while_playing_rejected (obedient (Some home_pose)) 20 80 80 "x"
           (xarm_playing (obedient (Some home_pose))) Hr).
  reflexivity.
Defined.

(** C8 fails on the code: on a pose of three components read with code
    0, [play_point_to_point] does not abort.  It reports that the motion
    started, sets [playing] and starts the motion thread; the thread ends
    at once without a call to the robot; [playing] stays set, so that a
    further play is answered "Already playing"; and the stop that follows
    fails on unpacking the saved pose. *)
Theorem short_pose_starts_task :
  let hw := obedient (Some short_pose) in
  let out := play_point_to_point hw 5 50 50 "z" (xarm_connected hw) in
  let w1 := snd out in
  let w2 := snd (run_motion_thread hw 7 w1) in
  (List.length short_pose < 6)%nat
  /\ playing (state (xarm_connected hw)) = false
  /\ fst out = Val "Point-to-point motion started"
  /\ playing (state w1) = true
  /\ existsb is_thread_start (trace w1) = true
  /\ option_map is_alive (_motion_thread w1) = Some true
  /\ trace w2 = trace w1
  /\ option_map is_alive (_motion_thread w2) = Some false
  /\ playing (state w2) = true
  /\ fst (play_point_to_point hw 5 50 50 "z" w2) = Val "Already playing"
  /\ fst (stop_motion hw w2)
     = Val "Stop error: not enough values to unpack (expected 6, got 3)".
Proof.
  cbv zeta. apply conj; [vm_compute; lia|].
  repeat apply conj; vm_compute; reflexivity.
Qed.

Lemma short_pose_no_move_witness :
  let hw := obedient (Some short_pose) in
  let w := xarm_connected hw in
  let w1 := snd (play_point_to_point hw 5 50 50 "z" w) in
  let w2 := snd (run_motion_thread hw 7 w1) in
  init_pose (state w1) = Some short_pose
  /\ filter is_move (trace w1) = filter is_move (trace w)
  /\ trace w2 = trace w1.
Proof.
  cbv zeta.
  apply (short_pose_no_move (obedient (Some short_pose)) 5 50 50 "z" 7
           (xarm_connected (obedient (Some short_pose)))
           {| code := 0; pose := Some short_pose; num := None; text := "";
              err := 0; warn := 0 |} short_pose).
  - reflexivity.
  - reflexivity.
  - reflexivity.
  - reflexivity.
  - reflexivity.
  - cbn. lia.
Defined.

(** C1 on [XArmController]: when the release call raises, [disconnect]
    drops the handle and reports the error, but [connected] stays true. *)
Theorem disconnect_keeps_connected_when_release_raises :
  let w := xarm_connected dead_on_release in
  let out := disconnect dead_on_release w in
  connected (state w) = true
  /\ fst out = Val "Disconnect error: link down"
  /\ _arm (snd out) = None
  /\ connected (state (snd out)) = true.
Proof.
  cbv zeta. repeat split; reflexivity.
Qed.

(** After that, the session can never be connected again. *)
Lemma stuck_after_failed_release :
  let w := snd (disconnect dead_on_release (xarm_connected dead_on_release)) in
  fst (connect (obedient (Some home_pose)) "192.168.1.221" w)
  = Val "Already connected to 192.168.1.221"
  /\ fst (stop_motion (obedient (Some home_pose)) w) = Val "Not connected".
Proof.
  cbv zeta. split; reflexivity.
Qed.

End XArmFacts.

(* ================================================================== *)
(** * Properties of XArmGradioController *)
(* ================================================================== *)

Module GradioFacts.

Import Sdk Eff Footprint EffFacts XArmGradioController DetectorSpec GradioSpec.
Local Open Scope eff_scope.

(** ** The detector computes the specified criterion *)

Section Criterion.

Local Open Scope R_scope.

Lemma geb_true_iff (a b : R) : Py.geb a b = true <-> a >= b.
Proof.
  unfold Py.geb. destruct (Rge_dec a b); split; auto; discriminate.
Qed.

Lemma geb_false_iff (a b : R) : Py.geb a b = false <-> a < b.
Proof.
  unfold Py.geb. destruct (Rge_dec a b); split; intros; try discriminate;
    try reflexivity; lra.
Qed.

Lemma fold_left_squares (l : list (R * R)) (acc : R) :
  fold_left (fun s ab => s + (fst ab - snd ab) * (fst ab - snd ab)) l acc
  = acc + fold_right (fun d s => d * d + s) 0
                     (map (fun ab => fst ab - snd ab) l).
Proof.
  revert acc. induction l as [|ab l IH]; intros acc; cbn.
  - ring.
  - rewrite IH. ring.
Qed.

(** The loop that accumulates [dq2] computes the Euclidean norm. *)
Lemma dist_of_norm (q last_q : list R) :
  dist_of q last_q = euclidean_norm (deltas q last_q).
Proof.
  unfold dist_of, dq2_of, euclidean_norm, deltas.
  rewrite fold_left_squares. f_equal. ring.
Qed.

Lemma fold_left_max (l : list R) (x : R) :
  let m := fold_left Py.max l x in
  (m = x \/ In m l) /\ x <= m /\ forall y, In y l -> y <= m.
Proof.
  revert x. induction l as [|a l IH]; intros x; cbn.
  - repeat split; auto; try lra. intros y [].
  - destruct (IH (Py.max x a)) as (Hin & Hle & Hall).
    assert (Hx : x <= Py.max x a /\ a <= Py.max x a
                 /\ (Py.max x a = x \/ Py.max x a = a)).
    { unfold Py.max. destruct (Rlt_dec x a); repeat split; auto; lra. }
    destruct Hx as (Hx1 & Hx2 & Hx3).
    repeat split.
    + destruct Hin as [Hin | Hin]; [|right; right; exact Hin].
      destruct Hx3 as [E | E]; rewrite Hin;
        [left; exact E | right; left; symmetry; exact E].
    + lra.
    + intros y [-> | Hy]; [lra | auto].
Qed.

(** Python's [max] returns the maximum. *)
Lemma max_of_is_max (l : list R) (m : R) : Py.max_of l = Some m -> is_max m l.
Proof.
  destruct l as [|x l]; [discriminate|]. cbn. intros E. inversion E; subst m.
  destruct (fold_left_max l x) as (Hin & Hle & Hall). split.
  - destruct Hin as [-> | Hin]; [left; reflexivity | right; exact Hin].
  - intros y [<- | Hy]; auto.
Qed.

Lemma is_max_unique (l : list R) (m m' : R) : is_max m l -> is_max m' l -> m = m'.
Proof.
  intros (Hin & Hall) (Hin' & Hall').
  apply Hall' in Hin. apply Hall in Hin'. lra.
Qed.

Lemma max_abs_of_deltas (q last_q : list R) :
  max_abs_of q last_q = Py.max_of (map Rabs (deltas q last_q)).
Proof. unfold max_abs_of, deltas. rewrite map_map. reflexivity. Qed.

(** Against a previous sample with which the report shares a joint, the
    detector returns, and says "moved" exactly when the specification
    does. *)
Lemma detect_spec (cfg : DetectConfig) (q last_q : list R) :
  Py.zip q last_q <> [] ->
  exists b,
    detect cfg (Some last_q) q = Val b
    /\ (b = true <-> spec_moved (motion_threshold cfg) q last_q).
Proof.
  intros Hz. unfold detect. rewrite max_abs_of_deltas, dist_of_norm.
  destruct (Py.max_of (map Rabs (deltas q last_q))) as [m|] eqn:Hm.
  2:{ exfalso. unfold deltas in Hm. destruct (Py.zip q last_q); [congruence|].
      discriminate. }
  pose proof (max_of_is_max _ _ Hm) as Hmax.
  eexists. split; [reflexivity|].
  rewrite orb_true_iff, !geb_true_iff. unfold spec_moved. split.
  - intros [H | H]; [left; exact H | right]. exists m. split; [exact Hmax | lra].
  - intros [H | (m' & Hmax' & H)]; [left; exact H | right].
    rewrite (is_max_unique _ _ _ Hmax Hmax'). lra.
Qed.

Lemma spec_still_not_moved (threshold : R) (q last_q : list R) :
  spec_still threshold q last_q -> ~ spec_moved threshold q last_q.
Proof.
  intros (Hd & Hm) [H | (m & Hmax & H)]; [lra|].
  specialize (Hm m Hmax). lra.
Qed.

(** Without a previous sample nothing is classified as motion. *)
Lemma detect_first (cfg : DetectConfig) (q : list R) :
  detect cfg None q = Val false.
Proof. reflexivity. Qed.

End Criterion.

(** ** One report, case by case *)

Lemma bind_ret {W A B : Type} (a : A) (k : A -> Eff.M (W := W) B) (w : W) :
  bind (ret a) k w = k a w.
Proof. reflexivity. Qed.


Section Ticks.

Variable hw : Arm.

Lemma on_report_unusable (data : report) (now : R) (w : Ctl) :
  usable data = false -> _on_report hw data now w = (Val tt, w).
Proof.
  unfold usable, _on_report, attempt.
  destruct (joints_of data) as [[|a q]|]; intros H; try discriminate; reflexivity.
Qed.

Lemma on_report_usable (data : report) (now : R) (w : Ctl)
      (a : R) (q : list R) (b : bool) :
  joints_of data = Some (a :: q) ->
  detect (detect_cfg w) (_last_q w) (a :: q) = Val b ->
  _on_report hw data now w = (Val tt, snd (react hw b now (sampled (a :: q) w))).
Proof.
  intros Hj Hd. unfold _on_report, attempt. rewrite Hj.
  rewrite !bind_gets, Hd, bind_ret. unfold sampled, set_last_q.
  rewrite bind_modify. reflexivity.
Qed.

Lemma on_report_detect_raises (data : report) (now : R) (w : Ctl)
      (a : R) (q : list R) (e : string) :
  joints_of data = Some (a :: q) ->
  detect (detect_cfg w) (_last_q w) (a :: q) = Exc e ->
  _on_report hw data now w = (Val tt, w).
Proof.
  intros Hj Hd. unfold _on_report, attempt. rewrite Hj.
  rewrite !bind_gets, Hd. reflexivity.
Qed.


Lemma react_waiting (now : R) (w : Ctl) :
  teach_mode (state w) = true ->
  _record_started w = false
  \/ (now - _last_motion_t w < idle_timeout (detect_cfg w))%R ->
  react hw false now w = (Val tt, w).
Proof.
  intros Ht Hw. unfold react. rewrite !bind_gets, Ht. cbn [negb].
  rewrite !bind_gets.
  destruct Hw as [-> | Hw]; [reflexivity|].
  apply geb_false_iff in Hw. rewrite Hw, andb_false_r. reflexivity.
Qed.

Lemma react_idle (now : R) (w : Ctl) :
  teach_mode (state w) = true ->
  _record_started w = true ->
  (now - _last_motion_t w >= idle_timeout (detect_cfg w))%R ->
  react hw false now w = (save_recording hw ;; leave_teach hw) w.
Proof.
  intros Ht Hs Hi. unfold react. rewrite !bind_gets, Ht. cbn [negb].
  rewrite !bind_gets, Hs. apply geb_true_iff in Hi. rewrite Hi. reflexivity.
Qed.

Lemma react_moved (now : R) (w : Ctl) :
  teach_mode (state w) = true ->
  _record_started w = false ->
  react hw true now w = begin_recording hw (snd (set_last_motion_t now w)).
Proof.
  intros Ht Hs. unfold react. rewrite !bind_gets, Ht. cbn [negb].
  unfold set_last_motion_t. rewrite bind_modify, bind_gets.
  unfold modify. cbn [_record_started snd]. rewrite Hs. reflexivity.
Qed.

(** ** Footprints *)



Lemma no_start_refl w : no_start w w.
Proof. repeat split; auto. Qed.

Lemma no_start_trans w1 w2 w3 : no_start w1 w2 -> no_start w2 w3 -> no_start w1 w3.
Proof. unfold no_start. intros (-> & ? & ?) (-> & ? & ?). auto. Qed.

Lemma no_start_event w e :
  not_start e = true -> no_start w (with_trace (trace_of w ++ [e]) w).
Proof.
  unfold no_start, not_start. intros He. cbn.
  rewrite filter_app. cbn. destruct (is_start_record e); [discriminate|].
  rewrite app_nil_r. auto.
Qed.

Ltac keeps_no_start :=
  repeat (try solve [ apply no_start_refl
                    | apply no_start_trans
                    | apply no_start_event
                    | reflexivity
                    | intros ?; unfold no_start; cbn; repeat split; intros;
                      auto; discriminate ];
          keeps_step_with not_start).

Lemma keeps_no_start_react (now : R) : keeps no_start (react hw false now).
Proof.
  unfold react, save_recording, leave_teach. cbv iota. keeps_no_start.
Qed.


Lemma same_detector_refl w : same_detector w w.
Proof. repeat split. Qed.

Lemma same_detector_trans w1 w2 w3 :
  same_detector w1 w2 -> same_detector w2 w3 -> same_detector w1 w3.
Proof. unfold same_detector. intuition congruence. Qed.

Lemma same_detector_event w (e : event) :
  true = true -> same_detector w (with_trace (trace_of w ++ [e]) w).
Proof. repeat split. Qed.

Ltac keeps_detector :=
  repeat (try solve [ apply same_detector_refl
                    | apply same_detector_trans
                    | apply same_detector_event
                    | reflexivity
                    | intros ?; unfold same_detector; cbn; auto ];
          keeps_step).

Lemma keeps_detector_react (b : bool) (now : R) :
  keeps same_detector (react hw b now).
Proof.
  unfold react, begin_recording, save_recording, leave_teach. keeps_detector.
Qed.

(** A usable report leaves its joint vector as the previous sample. *)
Lemma on_report_sample (data : report) (now : R) (w : Ctl)
      (a : R) (q : list R) (b : bool) :
  joints_of data = Some (a :: q) ->
  detect (detect_cfg w) (_last_q w) (a :: q) = Val b ->
  same_detector (sampled (a :: q) w) (snd (_on_report hw data now w)).
Proof.
  intros Hj Hd. rewrite (on_report_usable data now w a q b Hj Hd). cbn [snd].
  apply keeps_detector_react.
Qed.

(** The previous sample is never an empty vector: that is the case when
    the controller is created, and no command or report changes it. *)
Lemma exec_sample_nonempty (o : op) (w : Ctl) :
  _last_q w <> Some [] -> _last_q (exec hw o w) <> Some [].
Proof.
  intros Hne.
  assert (K : forall (A : Type) (m : Eff.M A),
             keeps same_detector m -> _last_q (snd (m w)) <> Some []).
  { intros A m Hm. destruct (Hm w) as (-> & _). exact Hne. }
  destruct o; cbn [exec].
  - apply K. unfold connect. keeps_detector.
  - apply K. unfold disconnect, _stop_playback_thread. keeps_detector.
  - apply K. unfold toggle_teach, _ensure_report_callback. keeps_detector.
  - destruct (joints_of data) as [[|a q]|] eqn:Hj.
    1,3: rewrite on_report_unusable by (unfold usable; now rewrite Hj); exact Hne.
    destruct (detect (detect_cfg w) (_last_q w) (a :: q)) as [b|e] eqn:Hd.
    + destruct (on_report_sample data now w a q b Hj Hd) as (-> & _).
      discriminate.
    + rewrite (on_report_detect_raises data now w a q e Hj Hd). exact Hne.
  - apply K. unfold start_playback. keeps_detector.
  - apply K. unfold stop_playback, _stop_playback_thread. keeps_detector.
Qed.

Lemma sample_never_empty (ops : list op) (cfg : DetectConfig) :
  _last_q (run hw ops (init cfg)) <> Some [].
Proof.
  assert (G : forall w, _last_q w <> Some [] -> _last_q (run hw ops w) <> Some []).
  { induction ops as [|o rest IH]; intros w Hw; [exact Hw|].
    cbn [run]. apply IH, exec_sample_nonempty, Hw. }
  apply G. discriminate.
Qed.

(** A report that is not classified as motion starts no recording. *)
Lemma on_report_quiet (data : report) (now : R) (w : Ctl) :
  (forall a q, joints_of data = Some (a :: q) ->
               detect (detect_cfg w) (_last_q w) (a :: q) <> Val true) ->
  no_start w (snd (_on_report hw data now w)).
Proof.
  intros Hq. destruct (joints_of data) as [[|a q]|] eqn:Hj.
  - rewrite on_report_unusable; [apply no_start_refl|]. unfold usable. now rewrite Hj.
  - specialize (Hq a q eq_refl).
    destruct (detect (detect_cfg w) (_last_q w) (a :: q)) as [[|]|e] eqn:Hd.
    + congruence.
    + rewrite (on_report_usable data now w a q false Hj Hd). cbn [snd].
      eapply no_start_trans; [|apply keeps_no_start_react].
      unfold no_start, sampled. cbn. auto.
    + rewrite (on_report_detect_raises data now w a q e Hj Hd). apply no_start_refl.
  - rewrite on_report_unusable; [apply no_start_refl|]. unfold usable. now rewrite Hj.
Qed.

Lemma on_reports_unusable (ticks : list (report * R)) (w : Ctl) :
  filter (fun t => usable (fst t)) ticks = [] -> on_reports hw ticks w = w.
Proof.
  induction ticks as [|[data now] rest IH]; cbn [on_reports filter fst];
    [reflexivity|].
  destruct (usable data) eqn:Hu; [discriminate|]. intros Hr.
  rewrite on_report_unusable by exact Hu. cbn [snd]. apply IH, Hr.
Qed.

(** C10: as long as no previous joint sample exists, a run of reports
    with at most one usable report starts no recording, and the detector
    classifies no joint vector as motion: the first usable report, whatever
    its joint values, only becomes the previous sample, so that two usable
    reports are needed before motion can be declared. *)
Theorem first_report_never_motion (ticks : list (report * R)) (w : Ctl) :
  _last_q w = None ->
  (List.length (filter (fun t => usable (fst t)) ticks) <= 1)%nat ->
  (forall q, detect (detect_cfg w) (_last_q w) q = Val false)
  /\ no_start w (on_reports hw ticks w).
Proof.
  intros Hl Hn. split; [intros q; rewrite Hl; reflexivity|].
  revert w Hl Hn. induction ticks as [|[data now] rest IH]; intros w Hl Hn.
  - apply no_start_refl.
  - cbn [on_reports]. cbn [filter fst] in Hn.
    destruct (usable data) eqn:Hu.
    + cbn [List.length] in Hn.
      assert (Hr : filter (fun t => usable (fst t)) rest = []).
      { destruct (filter (fun t => usable (fst t)) rest); [reflexivity|].
        cbn in Hn. lia. }
      rewrite (on_reports_unusable rest _ Hr).
      apply on_report_quiet. intros a q _. rewrite Hl. discriminate.
    + rewrite on_report_unusable by exact Hu. cbn [snd]. apply IH; assumption.
Qed.

(** ** Starting a recording *)

Lemma zip_nonempty (a : R) (q last_q : list R) :
  last_q <> [] -> Py.zip (a :: q) last_q <> [].
Proof. destruct last_q; [congruence | discriminate]. Qed.

(** A run that stays below both bounds starts no recording. *)
Lemma below_threshold_no_start (pre : list (report * R)) (w : Ctl) :
  _last_q w <> Some [] ->
  below_threshold (motion_threshold (detect_cfg w)) (_last_q w) pre ->
  no_start w (on_reports hw pre w)
  /\ detect_cfg (on_reports hw pre w) = detect_cfg w
  /\ _last_q (on_reports hw pre w) <> Some [].
Proof.
  revert w. induction pre as [|[data now] rest IH]; intros w Hne Hb.
  - cbn. auto using no_start_refl.
  - cbn [on_reports]. cbn [below_threshold] in Hb.
    destruct (joints_of data) as [[|a q]|] eqn:Hj.
    1,3: rewrite on_report_unusable by (unfold usable; now rewrite Hj);
         cbn [snd]; apply IH; assumption.
    destruct Hb as (Hq & Hb).
    assert (Hd : detect (detect_cfg w) (_last_q w) (a :: q) = Val false).
    { destruct (_last_q w) as [lq|]; [|reflexivity].
      assert (Hlq : lq <> []) by congruence.
      destruct (detect_spec (detect_cfg w) (a :: q) lq (zip_nonempty a q lq Hlq))
        as ([|] & E & Hiff); [|exact E].
      exfalso. apply (spec_still_not_moved _ _ _ Hq), Hiff. reflexivity. }
    pose proof (on_report_sample data now w a q false Hj Hd) as (Sq & Sc & _).
    assert (Hn : no_start w (snd (_on_report hw data now w))).
    { apply on_report_quiet. intros a' q' E. rewrite Hj in E.
      inversion E; subst. rewrite Hd. discriminate. }
    unfold sampled, set_last_q, modify in Sq, Sc.
    cbn [snd _last_q detect_cfg] in Sq, Sc.
    destruct (IH (snd (_on_report hw data now w))) as (N & C & L).
    + rewrite Sq. discriminate.
    + rewrite Sc, Sq. exact Hb.
    + split; [eapply no_start_trans; eassumption|]. split; [congruence | exact L].
Qed.

Lemma begin_recording_spec (w : Ctl) :
  (forall e, respond hw (trace w) StartRecordTrajectory <> Raises e) ->
  recording (state (snd (begin_recording hw w))) = true
  /\ _record_started (snd (begin_recording hw w)) = true
  /\ last_status (state (snd (begin_recording hw w))) = "recording"
  /\ (has_arm w = true ->
      trace (snd (begin_recording hw w)) = trace w ++ [StartRecordTrajectory])%list.
Proof.
  intros Hok.
  destruct (respond hw (trace w) StartRecordTrajectory) as [r|e] eqn:E;
    [|exfalso; exact (Hok e eq_refl)].
  unfold begin_recording, try_except, when, bind, gets, ret, sdk.
  cbn [trace_of Ctl_Traced].
  destruct (has_arm w); [rewrite E|]; cbn; repeat split; auto; discriminate.
Qed.

(** A report classified as motion in teach mode, before any recording was
    started, starts one unless the start call raises. *)
Lemma crossing_starts (data : report) (now : R) (w : Ctl) (a : R) (q : list R) :
  joints_of data = Some (a :: q) ->
  detect (detect_cfg w) (_last_q w) (a :: q) = Val true ->
  teach_mode (state w) = true ->
  _record_started w = false ->
  (forall e, respond hw (trace w) StartRecordTrajectory <> Raises e) ->
  recording (state (snd (_on_report hw data now w))) = true
  /\ _record_started (snd (_on_report hw data now w)) = true
  /\ last_status (state (snd (_on_report hw data now w))) = "recording"
  /\ (has_arm w = true ->
      trace (snd (_on_report hw data now w)) = trace w ++ [StartRecordTrajectory])%list.
Proof.
  intros Hj Hd Ht Hs Hok.
  rewrite (on_report_usable data now w a q true Hj Hd). cbn [snd].
  rewrite react_moved by assumption.
  apply (begin_recording_spec (snd (set_last_motion_t now (sampled (a :: q) w)))).
  exact Hok.
Qed.

(** C6, as the code has it: against the previous sample the detector
    says "moved" exactly when the Euclidean norm of the joint deltas is at
    least [motion_threshold] or the largest absolute delta is at least
    [0.6 * motion_threshold]; a run of reports that stays below both
    bounds starts no recording; and a report that crosses a bound in teach
    mode, no recording having been started, starts one provided the start
    call does not raise. *)
Theorem motion_criterion_drives_recording
        (pre : list (report * R)) (data : report) (now : R)
        (w : Ctl) (a : R) (q last_q : list R) :
  _last_q w <> Some [] ->
  below_threshold (motion_threshold (detect_cfg w)) (_last_q w) pre ->
  _last_q (on_reports hw pre w) = Some last_q ->
  joints_of data = Some (a :: q) ->
  let threshold := motion_threshold (detect_cfg w) in
  let w1 := on_reports hw pre w in
  let w2 := snd (_on_report hw data now w1) in
  no_start w w1
  /\ (exists moved,
        detect (detect_cfg w1) (Some last_q) (a :: q) = Val moved
        /\ (moved = true <-> spec_moved threshold (a :: q) last_q))
  /\ (~ spec_moved threshold (a :: q) last_q -> no_start w1 w2)
  /\ (spec_moved threshold (a :: q) last_q ->
      teach_mode (state w1) = true ->
      _record_started w1 = false ->
      (forall e, respond hw (trace w1) StartRecordTrajectory <> Raises e) ->
      recording (state w2) = true
      /\ _record_started w2 = true
      /\ (has_arm w1 = true -> trace w2 = trace w1 ++ [StartRecordTrajectory])%list).
Proof.
  intros Hne Hb Hl Hj threshold w1 w2.
  destruct (below_threshold_no_start pre w Hne Hb) as (N & C & L).
  fold w1 in N, C, L, Hl.
  assert (Hlq : last_q <> []) by (intros ->; congruence).
  destruct (detect_spec (detect_cfg w1) (a :: q) last_q (zip_nonempty a q _ Hlq))
    as (moved & E & Hiff).
  rewrite C in Hiff. fold threshold in Hiff.
  split; [exact N|]. split; [exists moved; split; assumption|]. split.
  - intros Hnot. apply on_report_quiet. intros a' q' Ej.
    rewrite Hj in Ej. inversion Ej; subst a' q'. rewrite Hl, E.
    intros Et. inversion Et; subst moved. apply Hnot, Hiff. reflexivity.
  - intros Hm Ht Hs Hok. apply Hiff in Hm. subst moved.
    rewrite <- Hl in E.
    destruct (crossing_starts data now w1 a q Hj E Ht Hs Hok) as (? & ? & ? & ?).
    auto.
Qed.

(** ** Stopping a recording on idle *)














(** ** A report, evaluated *)

Lemma on_report_moved_eval (data : report) (now : R) (w : Ctl) (a : R) (q : list R) :
  joints_of data = Some (a :: q) ->
  detect (detect_cfg w) (_last_q w) (a :: q) = Val true ->
  teach_mode (state w) = true ->
  _record_started w = false ->
  snd (_on_report hw data now w)
  = snd (begin_recording hw (snd (set_last_motion_t now (sampled (a :: q) w)))).
Proof.
  intros Hj Hd Ht Hs. rewrite (on_report_usable data now w a q true Hj Hd).
  cbn [snd]. rewrite react_moved by assumption. reflexivity.
Qed.

Lemma on_report_idle_eval (data : report) (now : R) (w : Ctl) (a : R) (q : list R) :
  joints_of data = Some (a :: q) ->
  detect (detect_cfg w) (_last_q w) (a :: q) = Val false ->
  teach_mode (state w) = true ->
  _record_started w = true ->
  (now - _last_motion_t w >= idle_timeout (detect_cfg w))%R ->
  snd (_on_report hw data now w)
  = snd ((save_recording hw ;; leave_teach hw) (sampled (a :: q) w)).
Proof.
  intros Hj Hd Ht Hs Hi. rewrite (on_report_usable data now w a q false Hj Hd).
  cbn [snd]. rewrite react_idle by assumption. reflexivity.
Qed.


Lemma on_report_unstarted_eval (data : report) (now : R) (w : Ctl)
      (a : R) (q : list R) :
  joints_of data = Some (a :: q) ->
  detect (detect_cfg w) (_last_q w) (a :: q) = Val false ->
  teach_mode (state w) = true ->
  _record_started w = false ->
  snd (_on_report hw data now w) = sampled (a :: q) w.
Proof.
  intros Hj Hd Ht Hs. rewrite (on_report_usable data now w a q false Hj Hd).
  cbn [snd]. rewrite react_waiting by auto. reflexivity.
Qed.

(** ** Disconnecting *)

(** [XArmGradioController.disconnect] always ends disconnected, whatever
    the robot does. *)
Lemma disconnect_always_clears (w : Ctl) :
  fst (disconnect hw w) = Val ("disconnected", false)
  /\ connected (state (snd (disconnect hw w))) = false
  /\ arm (snd (disconnect hw w)) = None
  /\ teach_mode (state (snd (disconnect hw w))) = false
  /\ recording (state (snd (disconnect hw w))) = false.
Proof.
  unfold disconnect, _stop_playback_thread, finally_return, attempt, when,
    bind, gets, ret.
  destruct (_play_thread w) as [[|]|]; cbn;
    repeat match goal with
           | |- context [if ?b then _ else _] => destruct b; cbn
           end; auto.
Qed.

End Ticks.

(** ** Examples *)

Import Scenarios.

Lemma detect_crossing_example :
  detect DetectConfig_default (Some [0%R]) [1%R] = Val true.
Proof.
  unfold detect, max_abs_of, dist_of, dq2_of.
  cbn [Py.zip map fold_left Py.max_of fst snd motion_threshold DetectConfig_default].
  f_equal. apply orb_true_iff. right. apply geb_true_iff.
  unfold Rabs. destruct (Rcase_abs (1 - 0)); lra.
Qed.

Lemma detect_still_example :
  detect DetectConfig_default (Some [1%R]) [1%R] = Val false.
Proof.
  unfold detect, max_abs_of, dist_of, dq2_of.
  cbn [Py.zip map fold_left Py.max_of fst snd motion_threshold DetectConfig_default].
  f_equal. apply orb_false_iff. split; apply geb_false_iff.
  - replace (0 + (1 - 1) * (1 - 1))%R with 0%R by ring. rewrite sqrt_0. lra.
  - unfold Rabs. destruct (Rcase_abs (1 - 1)); lra.
Qed.

(** Closed goals about example sessions are settled by evaluation. *)
Ltac ev := vm_compute; reflexivity.

Ltac by_detect H :=
  lazymatch type of H with
  | detect ?c ?l ?q = _ =>
      lazymatch goal with
      | |- detect ?c' ?l' ?q = _ =>
          replace c' with c by ev; replace l' with l by ev; exact H
      end
  end.

Ltac idle_elapsed now last :=
  lazymatch goal with
  | |- (now - ?t >= ?d)%R =>
      replace t with last by ev; replace d with 1%R by ev; lra
  end.

(** The recording session of the examples is the one two reports lead to. *)
Lemma gradio_recording_reached :
  on_reports (obedient None) [(angles [0%R], 10%R); (angles [1%R], 11%R)]
             (gradio_teaching (obedient None))
  = gradio_recording (obedient None).
Proof.
  cbn [on_reports].
  rewrite (on_report_moved_eval (obedient None) (angles [1%R]) 11%R _ 1%R []);
    [ev | ev | by_detect detect_crossing_example | ev | ev].
Qed.

Lemma spec_moved_example :
  spec_moved (motion_threshold DetectConfig_default) [1%R] [0%R].
Proof.
  destruct (detect_spec DetectConfig_default [1%R] [0%R]) as (b & E & Hiff);
    [discriminate|].
  apply Hiff. rewrite detect_crossing_example in E. congruence.
Qed.

(** C6, as stated, fails: in teach mode, with no recording started, a
    report crosses a bound; the start call raises, and no recording is
    started. *)
Lemma crossing_without_recording :
  let hw := record_refused in
  let w := on_reports hw [(angles [0%R], 10%R); (angles [1%R], 11%R)]
                      (gradio_teaching hw) in
  teach_mode (state (gradio_teaching hw)) = true
  /\ _record_started (gradio_teaching hw) = false
  /\ spec_moved (motion_threshold DetectConfig_default) [1%R] [0%R]
  /\ teach_mode (state w) = true
  /\ existsb is_start_record (trace w) = true
  /\ recording (state w) = false
  /\ _record_started w = false
  /\ last_status (state w) = "record:start failed".
Proof.
  cbv zeta. cbn [on_reports].
  rewrite (on_report_moved_eval record_refused (angles [1%R]) 11%R _ 1%R []);
    [| ev | by_detect detect_crossing_example | ev | ev].
  split; [ev|]. split; [ev|].
  split; [exact spec_moved_example|]. repeat split; ev.
Qed.


(** C9 fails on the code: connect, enter teach mode, move, stay idle; the
    save raises, the recording flag stays set, and teach mode is left. *)
Theorem recording_outlives_teach_mode :
  let w := run save_fails
               [Connect "192.168.1.221"; ToggleTeach true;
                Report (angles [0%R]) 10%R; Report (angles [1%R]) 11%R;
                Report (angles [1%R]) 13%R]
               (init DetectConfig_default) in
  recording (state w) = true
  /\ teach_mode (state w) = false
  /\ last_status (state w) = "record:save failed".
Proof.
  cbv zeta. cbn [run exec].
  rewrite (on_report_moved_eval save_fails (angles [1%R]) 11%R _ 1%R []);
    [| ev | by_detect detect_crossing_example | ev | ev].
  rewrite (on_report_idle_eval save_fails (angles [1%R]) 13%R _ 1%R []);
    [| ev | by_detect detect_still_example | ev | ev | idle_elapsed 13%R 11%R].
  repeat split; ev.
Qed.

(** The sibling path: leaving teach mode by hand clears the recording
    flag even when stopping the recording raises. *)
Lemma toggle_teach_clears_recording :
  let hw := {| installed := true; has_attr := fun _ => false;
               attr_is_radian := Returns true;
               respond := fun _ c =>
                 match c with
                 | StopRecordTrajectory _ => Raises "save failed"
                 | _ => Returns ok_answer
                 end |} in
  let w := snd (toggle_teach hw false (gradio_recording hw)) in
  recording (state (gradio_recording hw)) = true
  /\ recording (state w) = false
  /\ teach_mode (state w) = false.
Proof.
  cbv zeta. repeat split; ev.
Qed.

Lemma first_report_never_motion_witness :
  _last_q (gradio_teaching (obedient None)) = None
  /\ (List.length (filter (fun t => usable (fst t)) [(angles [5%R], 10%R)]) <= 1)%nat
  /\ (forall q, detect (detect_cfg (gradio_teaching (obedient None)))
                       (_last_q (gradio_teaching (obedient None))) q = Val false)
  /\ no_start (gradio_teaching (obedient None))
              (on_reports (obedient None) [(angles [5%R], 10%R)]
                          (gradio_teaching (obedient None))).
Proof.
  split; [ev|]. split; [vm_compute; lia|].
  apply (first_report_never_motion (obedient None) [(angles [5%R], 10%R)]
           (gradio_teaching (obedient None))).
  - ev.
  - vm_compute. lia.
Defined.

Lemma motion_criterion_drives_recording_witness :
  let hw := obedient None in
  let w := gradio_teaching hw in
  let threshold := motion_threshold (detect_cfg w) in
  let w1 := on_reports hw [(angles [0%R], 10%R)] w in
  let w2 := snd (_on_report hw (angles [1%R]) 11%R w1) in
  no_start w w1
  /\ (exists moved,
        detect (detect_cfg w1) (Some [0%R]) [1%R] = Val moved
        /\ (moved = true <-> spec_moved threshold [1%R] [0%R]))
  /\ (~ spec_moved threshold [1%R] [0%R] -> no_start w1 w2)
  /\ (spec_moved threshold [1%R] [0%R] ->
      teach_mode (state w1) = true ->
      _record_started w1 = false ->
      (forall e, respond hw (trace w1) StartRecordTrajectory <> Raises e) ->
      recording (state w2) = true
      /\ _record_started w2 = true
      /\ (has_arm w1 = true -> trace w2 = trace w1 ++ [StartRecordTrajectory])%list).
Proof.
  cbv zeta.
  apply (motion_criterion_drives_recording (obedient None)
           [(angles [0%R], 10%R)] (angles [1%R]) 11%R
           (gradio_teaching (obedient None)) 1%R [] [0%R]).
  - intros E. assert (N : _last_q (gradio_teaching (obedient None)) = None)
      by ev. rewrite N in E. discriminate E.
  - replace (_last_q (gradio_teaching (obedient None))) with (@None (list R))
      by ev. split; exact I.
  - ev.
  - ev.
Defined.


End GradioFacts.

(* ================================================================== *)
(** * Further properties of the planner geometry *)
(* ================================================================== *)

Module PoseMathMore.

Import PoseMath MotionSpec.
Local Open Scope R_scope.

Ltac trig_poly rx ry rz is_radian :=
  unfold _rpy_to_rot;
  set (a := if is_radian then rx else Py.radians rx);
  set (p := if is_radian then ry else Py.radians ry);
  set (c := if is_radian then rz else Py.radians rz);
  pose proof (sin2_cos2 a) as Ha; pose proof (sin2_cos2 p) as Hp;
  pose proof (sin2_cos2 c) as Hc; unfold Rsqr in Ha, Hp, Hc;
  generalize dependent (sin a); generalize dependent (cos a);
  generalize dependent (sin p); generalize dependent (cos p);
  generalize dependent (sin c); generalize dependent (cos c);
  intros.

(** The matrix of [_rpy_to_rot] is a rotation: its columns are
    orthonormal, so are its rows, and its determinant is one; in degrees
    or radians alike. *)
Theorem rpy_to_rot_is_rotation (rx ry rz : R) (is_radian : bool) (i j : nat) :
  (i < 3)%nat ->
  (j < 3)%nat ->
  let m := _rpy_to_rot rx ry rz is_radian in
  dot3 (column m i) (column m j) = (if Nat.eqb i j then 1 else 0)
  /\ dot3 (row m i) (row m j) = (if Nat.eqb i j then 1 else 0)
  /\ det3 m = 1.
Proof.
  intros Hi Hj m. subst m. repeat split.
  - trig_poly rx ry rz is_radian.
    destruct i as [|[|[|i]]]; [| | |lia]; destruct j as [|[|[|j]]]; try lia;
      cbn [column at2 nth dot3 Nat.eqb]; nsatz.
  - trig_poly rx ry rz is_radian.
    destruct i as [|[|[|i]]]; [| | |lia]; destruct j as [|[|[|j]]]; try lia;
      cbn [row at2 nth dot3 Nat.eqb]; nsatz.
  - trig_poly rx ry rz is_radian. unfold det3, at2. cbn [nth]. nsatz.
Qed.

Lemma rpy_to_rot_is_rotation_witness :
  (0 < 3)%nat /\ (2 < 3)%nat
  /\ let m := _rpy_to_rot 180 0 90 false in
     dot3 (column m 0) (column m 2) = (if Nat.eqb 0 2 then 1 else 0)
     /\ dot3 (row m 0) (row m 2) = (if Nat.eqb 0 2 then 1 else 0)
     /\ det3 m = 1.
Proof.
  split; [lia|]. split; [lia|].
  apply (rpy_to_rot_is_rotation 180 0 90 false 0 2); lia.
Defined.

End PoseMathMore.

(* ================================================================== *)
(** * Further properties of XArmController *)
(* ================================================================== *)

Module XArmMore.

Import Sdk Eff Footprint EffFacts XArmController XArmSpec MotionSpec XArmFacts.
Local Open Scope eff_scope.

Lemma only_status_refl w : only_status w w.
Proof. repeat split. Qed.

Lemma only_status_trans w1 w2 w3 :
  only_status w1 w2 -> only_status w2 w3 -> only_status w1 w3.
Proof. unfold only_status. intuition congruence. Qed.

Lemma only_status_event w (e : event) :
  true = true -> only_status w (with_trace (trace_of w ++ [e]) w).
Proof. repeat split. Qed.

Lemma frame_only_status w w' : frame w w' -> only_status w w'.
Proof. unfold frame, only_status. intros (-> & -> & -> & ->). repeat split. Qed.

Lemma endpoints_exist (x y z rx ry rz amp : R) (is_radian : bool) (ax : string) :
  In ax ["x"; "y"; "z"; "X"; "Y"; "Z"] ->
  exists p_low p_high,
    PoseMath.p2p_endpoints [x; y; z; rx; ry; rz] is_radian ax amp
    = Val (Some (p_low, p_high)).
Proof.
  intros Hax.
  destruct (PoseMathFacts.valid_axis_col ax Hax) as (col & Hcol & _).
  rewrite (PoseMathFacts.p2p_endpoints_six x y z rx ry rz amp is_radian ax col Hcol).
  destruct (PoseMath.tool_direction rx ry rz is_radian col) as [[fx fy] fz].
  eexists; eexists; reflexivity.
Qed.

Lemma bind_return {W A B : Type} (a : A) (k : A -> Eff.M (W := W) B) (w : W) :
  bind (ret a) k w = k a w.
Proof. reflexivity. Qed.

Lemma bind_val {W A B : Type} (m : Eff.M (W := W) A) (k : A -> Eff.M B)
      (w w1 : W) (a : A) :
  m w = (Val a, w1) -> bind m k w = k a w1.
Proof. intros E. unfold bind. rewrite E. reflexivity. Qed.

Lemma bind_exc {W A B : Type} (m : Eff.M (W := W) A) (k : A -> Eff.M B)
      (w w1 : W) (e : string) :
  m w = (Exc e, w1) -> bind m k w = (Exc e, w1).
Proof. intros E. unfold bind. rewrite E. reflexivity. Qed.

Lemma try_val {W A : Type} (m : Eff.M (W := W) A) (h : string -> Eff.M A)
      (w w1 : W) (a : A) :
  m w = (Val a, w1) -> try_except m h w = (Val a, w1).
Proof. intros E. unfold try_except. rewrite E. reflexivity. Qed.

Lemma try_exc {W A : Type} (m : Eff.M (W := W) A) (h : string -> Eff.M A)
      (w w1 : W) (e : string) :
  m w = (Exc e, w1) -> try_except m h w = h e w1.
Proof. intros E. unfold try_except. rewrite E. reflexivity. Qed.

Section WithArm.

Variable hw : Arm.

Lemma sdk_run (c : event) (w : Ctl) :
  sdk hw c w
  = (match respond hw (trace w) c with
     | Returns a => Val a
     | Raises e => Exc e
     end, pushed c w).
Proof. unfold sdk, pushed. cbn. destruct (respond hw (trace w) c); reflexivity. Qed.

Lemma check_zero (ok_msg fail_msg : string) (w : Ctl) :
  _check hw 0 ok_msg fail_msg w = (Val (true, ok_msg), w).
Proof. reflexivity. Qed.

Lemma check_nonzero (c : Z) (ok_msg fail_msg : string) (w : Ctl) :
  c <> 0%Z ->
  exists msg w',
    _check hw c ok_msg fail_msg w = (Val (false, msg), w') /\ frame w w'.
Proof.
  intros Hc. destruct (check_total hw c ok_msg fail_msg w) as ([ok msg] & w' & E & F & _).
  exists msg, w'. split; [|exact F]. rewrite E.
  assert (ok = false); [|subst; reflexivity].
  unfold _check in E. destruct (Z.eqb_spec c 0); [contradiction|].
  unfold bind in E.
  match type of E with context [try_except ?b ?h w] =>
    destruct (try_except b h w) as [[l|e] w1] end; inversion E; reflexivity.
Qed.

Lemma set_mode_and_ready_outcome (mode : Z) (w : Ctl) :
  has_arm w = true ->
  exists ok msg w',
    _set_mode_and_ready hw mode w = (Val (ok, msg), w')
    /\ frame w w'
    /\ (ok = true <->
        exists a1 a2,
          respond hw (trace w) (SetMode mode) = Returns a1 /\ code a1 = 0%Z
          /\ respond hw (trace w ++ [SetMode mode]) (SetState 0) = Returns a2
          /\ code a2 = 0%Z)
    /\ (ok = true ->
        msg = "ready" /\ trace w' = (trace w ++ [SetMode mode; SetState 0])%list).
Proof.
  intros Ha. unfold _set_mode_and_ready. rewrite bind_gets, Ha. cbn [negb].
  destruct (respond hw (trace w) (SetMode mode)) as [a1|e1] eqn:E1.
  2:{ erewrite try_exc by (erewrite bind_exc by (rewrite sdk_run, E1; reflexivity);
                           reflexivity).
      eexists false, _, _. split; [reflexivity|]. split; [repeat split|].
      split; [split; [discriminate | intros (? & ? & H & _); discriminate H]
             | discriminate]. }
  destruct (Z.eq_dec (code a1) 0) as [C1|C1].
  2:{ destruct (check_nonzero (code a1) ("mode=" ++ Py.str_of_Z mode)
                  "set_mode failed" (pushed (SetMode mode) w) C1)
        as (msg & w1 & Ec & F1).
      erewrite try_val
        by (erewrite bind_val by (rewrite sdk_run, E1; reflexivity);
            erewrite bind_val by exact Ec; reflexivity).
      eexists false, msg, w1. split; [reflexivity|].
      split; [eapply frame_trans; [|exact F1]; repeat split|].
      split; [split; [discriminate|] | discriminate].
      intros (a1' & a2 & H & C & _). inversion H; subst. contradiction. }
  destruct (respond hw (trace w ++ [SetMode mode]) (SetState 0)) as [a2|e2] eqn:E2.
  2:{ erewrite try_exc
        by (erewrite bind_val by (rewrite sdk_run, E1; reflexivity);
            rewrite C1; erewrite bind_val by apply check_zero; cbn [negb];
            erewrite bind_exc by (rewrite sdk_run; cbn [pushed with_trace Ctl_Traced trace];
                                  rewrite E2; reflexivity);
            reflexivity).
      eexists false, _, _. split; [reflexivity|]. split; [repeat split|].
      split; [split; [discriminate|] | discriminate].
      intros (? & ? & _ & _ & H & _). discriminate H. }
  destruct (Z.eq_dec (code a2) 0) as [C2|C2].
  2:{ destruct (check_nonzero (code a2) "ready" "set_state failed"
                  (pushed (SetState 0) (pushed (SetMode mode) w)) C2)
        as (msg & w1 & Ec & F1).
      erewrite try_val
        by (erewrite bind_val by (rewrite sdk_run, E1; reflexivity);
            rewrite C1; erewrite bind_val by apply check_zero; cbn [negb];
            erewrite bind_val by (rewrite sdk_run; cbn [pushed with_trace Ctl_Traced trace];
                                  rewrite E2; reflexivity);
            exact Ec).
      eexists false, msg, w1. split; [reflexivity|].
      split; [eapply frame_trans; [|exact F1]; repeat split|].
      split; [split; [discriminate|] | discriminate].
      intros (? & a2' & _ & _ & H & C). inversion H; subst. contradiction. }
  erewrite try_val
    by (erewrite bind_val by (rewrite sdk_run, E1; reflexivity);
        rewrite C1; erewrite bind_val by apply check_zero; cbn [negb];
        erewrite bind_val by (rewrite sdk_run; cbn [pushed with_trace Ctl_Traced trace];
                              rewrite E2; reflexivity);
        rewrite C2; apply check_zero).
  eexists true, "ready", _. split; [reflexivity|]. split; [repeat split|].
  split; [split; [|reflexivity] |].
  - intros _. exists a1, a2. auto.
  - intros _. split; [reflexivity|]. cbn. rewrite <- app_assoc. reflexivity.
Qed.

(** [_set_mode_and_ready] reports success exactly when the robot answered
    code 0 to [set_mode] and then to [set_state]; it never raises, changes
    no field, and on success has made exactly these two calls. *)
Theorem set_mode_and_ready_confirms (mode : Z) (w : Ctl) :
  has_arm w = true ->
  exists ok msg w',
    _set_mode_and_ready hw mode w = (Val (ok, msg), w')
    /\ frame w w'
    /\ (ok = true <->
        exists a1 a2,
          respond hw (trace w) (SetMode mode) = Returns a1 /\ code a1 = 0%Z
          /\ respond hw (trace w ++ [SetMode mode]) (SetState 0) = Returns a2
          /\ code a2 = 0%Z)
    /\ (ok = true ->
        msg = "ready" /\ trace w' = (trace w ++ [SetMode mode; SetState 0])%list).
Proof. apply set_mode_and_ready_outcome. Qed.

(** ** Symbolic execution *)

Lemma bind_sdk {B : Type} (c : event) (k : answer -> Eff.M B) (w : Ctl) :
  bind (sdk hw c) k w
  = match respond hw (trace w) c with
    | Returns a => k a (pushed c w)
    | Raises e => (Exc e, pushed c w)
    end.
Proof. unfold bind. rewrite sdk_run. destruct (respond hw (trace w) c); reflexivity. Qed.

Lemma bind_attempt {A B : Type} (m : Eff.M A) (k : unit -> Eff.M B) (w : Ctl) :
  bind (attempt m) k w = k tt (snd (m w)).
Proof. reflexivity. Qed.

Lemma set_mode_and_ready_result (mode : Z) (w : Ctl) :
  exists ok msg w',
    _set_mode_and_ready hw mode w = (Val (ok, msg), w')
    /\ frame w w' /\ no_new_move w w'.
Proof.
  destruct (set_mode_and_ready_total hw mode w) as ([ok msg] & w' & E & F).
  exists ok, msg, w'. split; [exact E|]. split; [exact F|].
  pose proof (keeps_no_move_set_mode_and_ready hw mode w) as N.
  rewrite E in N. exact N.
Qed.

Lemma check_result (c : Z) (ok_msg fail_msg : string) (w : Ctl) :
  exists ok msg w',
    _check hw c ok_msg fail_msg w = (Val (ok, msg), w')
    /\ frame w w' /\ no_new_move w w'
    /\ (ok = true <-> c = 0%Z).
Proof.
  destruct (Z.eq_dec c 0) as [->|Hc].
  - exists true, ok_msg, w. rewrite check_zero. repeat split; auto.
  - destruct (check_nonzero c ok_msg fail_msg w Hc) as (msg & w' & E & F).
    exists false, msg, w'. split; [exact E|]. split; [exact F|]. split.
    + pose proof (keeps_no_move_check hw c ok_msg fail_msg w) as N.
      rewrite E in N. exact N.
    + split; [discriminate | contradiction].
Qed.

(** [_check] never raises, whatever the robot does while its error codes
    are read and cleared: it reports success exactly on code 0, then with
    the given text and without touching the robot; it changes no field of
    the controller and commands no move. *)
Theorem check_ok_iff_zero (c : Z) (ok_msg fail_msg : string) (w : Ctl) :
  exists ok msg w',
    _check hw c ok_msg fail_msg w = (Val (ok, msg), w')
    /\ frame w w'
    /\ no_new_move w w'
    /\ (ok = true <-> c = 0%Z)
    /\ (ok = true -> msg = ok_msg /\ w' = w).
Proof.
  destruct (check_result c ok_msg fail_msg w) as (ok & msg & w' & E & F & N & Hiff).
  exists ok, msg, w'. split; [exact E|]. split; [exact F|]. split; [exact N|].
  split; [exact Hiff|]. intros Hok. apply Hiff in Hok. subst c.
  rewrite check_zero in E. injection E as _ <- <-. split; reflexivity.
Qed.

Ltac setters :=
  unfold set_arm, set_stop_event, set_motion_thread, set_connected, set_ip,
    set_teach_enabled, set_playing, set_init_pose, set_sdk_version,
    set_last_error, set_max_tcp_lin_vel_mmps, set_max_tcp_lin_acc_mmps2,
    set_last_play_speed_pct, set_is_radian, upd_state.

Ltac sym :=
  repeat first [ rewrite bind_gets | rewrite bind_modify | rewrite bind_return
               | rewrite bind_sdk ].

(** ** The move back to the saved pose *)

Lemma ret_speed_bounds (vmax last : R) :
  (20 <= ret_speed_of vmax last <= Py.max 20 vmax)%R.
Proof.
  unfold ret_speed_of.
  set (x := (vmax * (Py.max 0 (Py.min 100 last) / 100))%R). clearbody x.
  unfold Py.max, Py.min.
  repeat match goal with
         | |- context [Rlt_dec ?a ?b] => destruct (Rlt_dec a b)
         end; lra.
Qed.

Lemma stop_finish_moves (w : Ctl) :
  filter is_move (trace (snd (stop_finish hw w)))
  = (filter is_move (trace w)
       ++ match has_arm w, init_pose (state w) with
          | true, Some p =>
              if Nat.eqb (List.length p) 6 then
                [SetPosition p (ret_speed_of (max_tcp_lin_vel_mmps (state w))
                                             (last_play_speed_pct (state w))) None]
              else []
          | _, _ => []
          end)%list.
Proof.
  unfold stop_finish, try_except. rewrite bind_gets.
  destruct (has_arm w) eqn:Ha.
  2:{ unfold when. sym. rewrite Ha. cbn. symmetry. apply app_nil_r. }
  unfold when. cbv iota.
  destruct (set_mode_and_ready_result 0 w) as (ok & msg & w1 & E & F & N).
  rewrite (bind_val _ _ _ _ _ (bind_val _ _ _ _ _ E)).
  rewrite !bind_gets.
  assert (Ha1 : has_arm w1 = true).
  { unfold has_arm in *. destruct F as (-> & _). exact Ha. }
  destruct F as (_ & Fs & _). rewrite Ha1, Fs. unfold no_new_move in N.
  destruct (init_pose (state w)) as [p|].
  2:{ cbn. rewrite N. symmetry. apply app_nil_r. }
  rewrite !bind_gets. unfold unpack6.
  destruct (Nat.eqb (List.length p) 6) eqn:Hlen.
  2:{ destruct (Nat.ltb (List.length p) 6); cbn; rewrite N;
        symmetry; apply app_nil_r. }
  rewrite bind_return, bind_sdk. rewrite Fs.
  fold (ret_speed_of (max_tcp_lin_vel_mmps (state w)) (last_play_speed_pct (state w))).
  set (mv := SetPosition p _ None).
  assert (Hpush : filter is_move (trace (pushed mv w1))
                  = (filter is_move (trace w) ++ [mv])%list).
  { cbn. rewrite filter_app, N. reflexivity. }
  destruct (respond hw (trace w1) mv) as [a|e].
  - destruct (check_result (code a) "returned" "set_position failed" (pushed mv w1))
      as (ok' & msg' & w2 & Ec & _ & N2 & _).
    rewrite (bind_val _ _ _ _ _ Ec). unfold no_new_move in N2.
    destruct ok'; cbn; rewrite N2; exact Hpush.
  - cbn. rewrite filter_app, N. reflexivity.
Qed.

(** [stop_motion] commands at most one move: back to the saved pose,
    exactly when the session is connected and the saved pose has six
    components, at a speed between 20 mm/s and [max(20, vmax)]. *)
Theorem stop_motion_return_move (w : Ctl) :
  let vmax := max_tcp_lin_vel_mmps (state w) in
  let speed := ret_speed_of vmax (last_play_speed_pct (state w)) in
  filter is_move (trace (snd (stop_motion hw w)))
  = (filter is_move (trace w)
       ++ match not_connected w, init_pose (state w) with
          | false, Some p =>
              if Nat.eqb (List.length p) 6 then [SetPosition p speed None] else []
          | _, _ => []
          end)%list
  /\ (20 <= speed <= Py.max 20 vmax)%R.
Proof.
  cbv zeta. split; [|apply ret_speed_bounds].
  unfold stop_motion. rewrite bind_gets.
  destruct (not_connected w) eqn:Hnc.
  { cbn. symmetry. apply app_nil_r. }
  assert (Ha : has_arm w = true).
  { unfold not_connected in Hnc. unfold has_arm.
    destruct (connected (state w)); [|discriminate].
    destruct (_arm w); [reflexivity|discriminate]. }
  cbv beta iota delta [bind gets ret modify when set_playing set_stop_event
                       upd_state emit].
  destruct (playing (state w)); cbn -[stop_finish];
    [destruct (_motion_thread w) as [t|]; cbn -[stop_finish];
     [destruct (is_alive t); cbn -[stop_finish]|]|];
    rewrite stop_finish_moves; unfold has_arm in *; cbn;
    rewrite ?filter_app; cbn; rewrite ?app_nil_r;
    destruct (_arm w); try discriminate; reflexivity.
Qed.

(** ** The bounce loop *)

Lemma alternating_snoc (n : nat) (p_low p_high : list R) (v a : R) (high : bool)
      (mv : event) (pre : list event) :
  alternating n p_low p_high v a (negb high) = (pre ++ [mv])%list ->
  alternating (S n) p_low p_high v a high
  = ((SetPosition (if high then p_high else p_low) v (Some a) :: pre) ++ [mv])%list.
Proof. intros E. cbn [alternating]. rewrite E. reflexivity. Qed.

Lemma bounce_moves (polls : nat) (p_low p_high : list R) (v a : R) (high : bool)
      (w : Ctl) :
  exists n,
    (n <= polls)%nat
    /\ trace (snd (bounce hw polls p_low p_high v a high w))
       = (trace w ++ alternating n p_low p_high v a high)%list
    /\ frame w (snd (bounce hw polls p_low p_high v a high w))
    /\ (_stop_event w = true -> n = 0%nat)
    /\ (n = polls \/ _stop_event w = true
        \/ exists e pre mv,
             alternating n p_low p_high v a high = (pre ++ [mv])%list
             /\ respond hw (trace w ++ pre) mv = Raises e).
Proof.
  revert high w. induction polls as [|k IH]; intros high w.
  - exists 0%nat. cbn. rewrite app_nil_r. repeat split; auto.
  - cbn [bounce]. rewrite bind_gets.
    destruct (_stop_event w) eqn:Hev.
    + exists 0%nat. cbn. rewrite app_nil_r. repeat split; auto. lia.
    + set (mv := SetPosition (if high then p_high else p_low) v (Some a)).
      destruct (respond hw (trace w) mv) as [r|e] eqn:Er.
      * erewrite bind_val
          by (erewrite try_val by (rewrite bind_sdk, Er; reflexivity); reflexivity).
        destruct (IH (negb high) (pushed mv w)) as (n & Hn & Ht & Hf & H0 & Hlast).
        exists (S n). split; [lia|]. split.
        { rewrite Ht. cbn. rewrite <- app_assoc. reflexivity. }
        split.
        { eapply frame_trans; [|exact Hf]. repeat split. }
        split; [discriminate|].
        destruct Hlast as [-> | [H | (e & pre & mv' & Ea & Hr)]].
        -- left. reflexivity.
        -- cbn in H. congruence.
        -- right. right. exists e, (mv :: pre), mv'. split.
           ++ apply alternating_snoc. exact Ea.
           ++ cbn in Hr. rewrite <- app_assoc in Hr. exact Hr.
      * erewrite bind_val
          by (erewrite try_exc by (rewrite bind_sdk, Er; reflexivity); reflexivity).
        exists 1%nat. split; [lia|]. split; [reflexivity|].
        split; [repeat split|]. split; [discriminate|].
        right. right. exists e, [], mv. split; [reflexivity|].
        rewrite app_nil_r. exact Er.
Qed.

Lemma target_bounds (max_v speed : R) :
  (0 <= max_v)%R -> (0 <= v_target_of max_v speed <= 4 * max_v)%R.
Proof.
  intros Hm. unfold v_target_of.
  assert (Hp : (0 <= Py.max 0 (Py.min 100 speed) / 100 <= 1)%R).
  { unfold Py.max, Py.min.
    repeat match goal with
           | |- context [Rlt_dec ?a ?b] => destruct (Rlt_dec a b)
           end; lra. }
  set (pct := (Py.max 0 (Py.min 100 speed) / 100)%R) in *. clearbody pct. nra.
Qed.

(** The motion loop on a saved pose of six components and a tool axis
    among x, y, z: it commands at most [polls] moves, to the two planned
    endpoints in turn, the high one first, all at the speed and
    acceleration derived from the percentages, which lie between zero and
    four times the cached maxima; with the stop event set it commands
    none. *)
Theorem p2p_loop_alternates
        (polls : nat) (amp speed accel : R) (ax : string)
        (x y z rx ry rz : R) (w : Ctl) :
  has_arm w = true ->
  init_pose (state w) = Some [x; y; z; rx; ry; rz] ->
  In ax ["x"; "y"; "z"; "X"; "Y"; "Z"] ->
  let v := v_target_of (max_tcp_lin_vel_mmps (state w)) speed in
  let a := a_target_of (max_tcp_lin_acc_mmps2 (state w)) accel in
  let w' := snd (_p2p_loop hw polls amp speed accel ax w) in
  exists radian p_low p_high n,
    PoseMath.p2p_endpoints [x; y; z; rx; ry; rz] radian ax amp
    = Val (Some (p_low, p_high))
    /\ (n <= polls)%nat
    /\ filter is_move (trace w')
       = (filter is_move (trace w) ++ alternating n p_low p_high v a true)%list
    /\ (_stop_event w = true -> n = 0%nat)
    /\ frame w w'
    /\ ((0 <= max_tcp_lin_vel_mmps (state w))%R ->
        (0 <= v <= 4 * max_tcp_lin_vel_mmps (state w))%R)
    /\ ((0 <= max_tcp_lin_acc_mmps2 (state w))%R ->
        (0 <= a <= 4 * max_tcp_lin_acc_mmps2 (state w))%R).
Proof.
  intros Ha Hp Hax v a w'.
  set (radian := if has_attr hw "is_radian"
                 then match attr_is_radian hw with
                      | Returns b => b
                      | Raises _ => is_radian (state w)
                      end
                 else is_radian (state w)).
  destruct (endpoints_exist x y z rx ry rz amp radian ax Hax) as (p_low & p_high & He).
  assert (Hfilter : forall l,
             Forall (fun e => is_move e = true) l -> filter is_move l = l).
  { induction l as [|e l IHl]; intros Hl; [reflexivity|].
    inversion Hl; subst. cbn. rewrite H1, IHl by assumption. reflexivity. }
  assert (Hall : forall n high,
             Forall (fun e => is_move e = true) (alternating n p_low p_high v a high)).
  { induction n as [|n IHn]; intros high; cbn; constructor; auto. }
  exists radian, p_low, p_high.
  subst w'. unfold _p2p_loop. rewrite bind_gets, Ha. cbn [negb].
  rewrite !bind_gets, Hp. cbv zeta. fold radian. rewrite He.
  rewrite bind_sdk.
  destruct (respond hw (trace w) (SetTcpJerk 50000)) as [r|e].
  - destruct (bounce_moves polls p_low p_high v a true (pushed (SetTcpJerk 50000) w))
      as (n & Hn & Ht & Hf & H0 & _).
    exists n. split; [reflexivity|]. split; [exact Hn|]. split.
    { change (filter is_move
                (trace (snd (bounce hw polls p_low p_high v a true
                               (pushed (SetTcpJerk 50000) w))))
              = (filter is_move (trace w) ++ alternating n p_low p_high v a true)%list).
      rewrite Ht. cbn. rewrite !filter_app. cbn.
      rewrite app_nil_r, (Hfilter _ (Hall n true)). reflexivity. }
    split; [exact H0|]. split.
    { eapply frame_trans; [|exact Hf]. repeat split. }
    split; intros H; [apply target_bounds | apply (target_bounds _ accel)]; exact H.
  - exists 0%nat. split; [reflexivity|]. split; [lia|]. split.
    { cbn. rewrite filter_app. cbn. reflexivity. }
    split; [reflexivity|]. split; [repeat split|].
    split; intros H; [apply target_bounds | apply (target_bounds _ accel)]; exact H.
Qed.

(** ** Stopping the motion thread *)

#[local] Hint Resolve only_status_refl only_status_trans only_status_event : footprint.

Lemma keeps_status_check (c : Z) (ok_msg fail_msg : string) :
  keeps only_status (_check hw c ok_msg fail_msg).
Proof. eapply keeps_weaken; [apply frame_only_status | apply keeps_frame_check]. Qed.

Lemma keeps_status_set_mode_and_ready (mode : Z) :
  keeps only_status (_set_mode_and_ready hw mode).
Proof.
  eapply keeps_weaken; [apply frame_only_status | apply keeps_frame_set_mode_and_ready].
Qed.

Ltac keeps_status :=
  repeat (try solve [ eauto with footprint
                    | apply keeps_status_check
                    | apply keeps_status_set_mode_and_ready
                    | intros ?; cbn; unfold only_status; cbn; repeat split ];
          keeps_step).

Lemma keeps_status_stop_finish : keeps only_status (stop_finish hw).
Proof. unfold stop_finish, unpack6. keeps_status. Qed.

Lemma stop_motion_session (w : Ctl) :
  not_connected w = false ->
  exists msg w',
    stop_motion hw w = (Val msg, w')
    /\ _arm w' = _arm w
    /\ connected (state w') = connected (state w)
    /\ teach_enabled (state w') = teach_enabled (state w)
    /\ playing (state w') = false
    /\ (playing (state w) = true -> _stop_event w' = true).
Proof.
  intros Hnc. unfold stop_motion.
  cbv beta iota delta [bind gets ret modify when set_playing set_stop_event
                       upd_state emit].
  rewrite Hnc.
  destruct (playing (state w)); cbn -[stop_finish];
    [destruct (_motion_thread w) as [t|]; cbn -[stop_finish];
     [destruct (is_alive t); cbn -[stop_finish]|]|];
    match goal with |- context [stop_finish hw ?x] =>
      destruct (stop_finish_spec hw x) as (msg & w' & E & _ & _);
      pose proof (keeps_status_stop_finish x) as K
    end;
    rewrite E in *; cbn [snd] in K; exists msg, w';
    destruct K as (K1 & K2 & K3 & K4 & K5 & K6 & _);
    rewrite K1, K2, K4, K5, K6; cbn; repeat split; auto; discriminate.
Qed.

Lemma p2p_loop_stopped (polls : nat) (amp speed accel : R) (ax : string) (w : Ctl) :
  _stop_event w = true ->
  no_new_move w (snd (_p2p_loop hw polls amp speed accel ax w)).
Proof.
  intros Hs. unfold no_new_move, _p2p_loop. rewrite bind_gets.
  destruct (has_arm w); cbn [negb]; [|reflexivity].
  rewrite !bind_gets. cbv zeta.
  match goal with |- context [PoseMath.p2p_endpoints ?p ?r ?a ?m] =>
    destruct (PoseMath.p2p_endpoints p r a m) as [[[p_low p_high]|]|e]
  end; [|reflexivity|reflexivity].
  rewrite bind_sdk.
  destruct (respond hw (trace w) (SetTcpJerk 50000)) as [r|e].
  - match goal with |- context [bounce hw polls ?l ?h ?v ?a true ?x] =>
      destruct (bounce_moves polls l h v a true x) as (n & _ & Ht & _ & H0 & _)
    end.
    rewrite Ht, (H0 Hs). cbn. rewrite app_nil_r, filter_app. cbn.
    apply app_nil_r.
  - cbn. rewrite filter_app. cbn. apply app_nil_r.
Qed.

Lemma run_motion_thread_stopped (polls : nat) (w : Ctl) :
  _stop_event w = true ->
  no_new_move w (snd (run_motion_thread hw polls w)).
Proof.
  intros Hs. unfold run_motion_thread. rewrite bind_gets.
  destruct (_motion_thread w) as [t|]; [|reflexivity].
  destruct (is_alive t); [|reflexivity].
  unfold bind, attempt, set_motion_thread, modify, no_new_move. cbn -[_p2p_loop].
  apply p2p_loop_stopped. exact Hs.
Qed.

(** ** Starting a motion *)

Lemma speed_pct_range (speed : R) : (0 <= Py.max 0 (Py.min 100 speed) <= 100)%R.
Proof.
  unfold Py.max, Py.min.
  repeat match goal with
         | |- context [Rlt_dec ?a ?b] => destruct (Rlt_dec a b)
         end; lra.
Qed.

Lemma play_outcome (amplitude_cm speed accel : R) (ax : string) (w : Ctl) :
  not_connected w = false ->
  exists msg w',
    play_point_to_point hw amplitude_cm speed accel ax w = (Val msg, w')
    /\ (playing (state w') = true <->
        msg = "Point-to-point motion started" \/ msg = "Already playing")
    /\ (msg = "Point-to-point motion started" ->
        (exists r p,
            respond hw (trace w) GetPosition = Returns r
            /\ code r = 0%Z /\ pose r = Some p
            /\ init_pose (state w') = Some p)
        /\ _stop_event w' = false
        /\ _motion_thread w' = Some (started_thread amplitude_cm speed accel ax)
        /\ (0 <= last_play_speed_pct (state w') <= 100)%R
        /\ exists pre, trace w' = (pre ++ [ThreadStart "motion"])%list)
    /\ (msg <> "Point-to-point motion started" ->
        _motion_thread w' = _motion_thread w /\ _stop_event w' = _stop_event w).
Proof.
  intros Hnc. unfold play_point_to_point. rewrite bind_gets, Hnc, bind_gets.
  destruct (playing (state w)) eqn:Hp.
  { exists "Already playing", w. split; [reflexivity|].
    split; [split; auto|]. split; [discriminate | auto]. }
  unfold try_except. rewrite bind_sdk.
  destruct (respond hw (trace w) GetPosition) as [r|e] eqn:Er.
  2:{ cbn. eexists _, _. split; [reflexivity|]. cbn.
      split; [split; [discriminate | intros [H|H]; discriminate H]|].
      split; [intros H; discriminate H | auto]. }
  assert (Hfail : forall m : string,
             exists msg w',
               (Val ("Failed to read TCP pose (code " ++ m), pushed GetPosition w)
               = (Val msg, w')
               /\ (playing (state w') = true <->
                   msg = "Point-to-point motion started" \/ msg = "Already playing")
               /\ (msg = "Point-to-point motion started" ->
                   (exists r p,
                       respond hw (trace w) GetPosition = Returns r
                       /\ code r = 0%Z /\ pose r = Some p
                       /\ init_pose (state w') = Some p)
                   /\ _stop_event w' = false
                   /\ _motion_thread w'
                      = Some (started_thread amplitude_cm speed accel ax)
                   /\ (0 <= last_play_speed_pct (state w') <= 100)%R
                   /\ exists pre, trace w' = (pre ++ [ThreadStart "motion"])%list)
               /\ (msg <> "Point-to-point motion started" ->
                   _motion_thread w' = _motion_thread w
                   /\ _stop_event w' = _stop_event w)).
  { intros m. eexists _, _. split; [reflexivity|]. cbn. rewrite Hp.
    split; [split; [discriminate | intros [H|H]; discriminate H]|].
    split; [intros H; discriminate H | auto]. }
  rewrite Er in Hfail.
  destruct (code r =? 0)%Z eqn:Hc; [|cbv beta iota delta [ret]; apply Hfail].
  destruct (pose r) as [p|] eqn:Hpose; [|cbv beta iota delta [ret]; apply Hfail].
  clear Hfail. unfold set_init_pose, upd_state. rewrite bind_modify.
  match goal with |- context [bind (_set_mode_and_ready hw 0) _ ?x] =>
    destruct (set_mode_and_ready_result 0 x) as (ok & m1 & w1 & E & F & _)
  end.
  rewrite (bind_val _ _ _ _ _ E).
  destruct F as (F1 & F2 & F3 & F4).
  destruct ok; cbn [negb].
  - cbn. eexists _, _. split; [reflexivity|]. cbn.
    split; [split; auto|]. split; [|intros H; contradiction H; reflexivity].
    intros _. split.
    { exists r, p. rewrite F2. cbn. apply Z.eqb_eq in Hc. auto. }
    split; [reflexivity|]. split; [reflexivity|]. split; [apply speed_pct_range|].
    eexists. reflexivity.
  - cbn. eexists _, _. split; [reflexivity|]. rewrite F2, F3, F4. cbn. rewrite Hp.
    split; [split; [discriminate | intros [H|H]; discriminate H]|].
    split; [intros H; discriminate H | auto].
Qed.

(** [play_point_to_point] on a connected session never raises, and its
    status tells what it did: [playing] is set afterwards exactly when the
    status is "Point-to-point motion started" or "Already playing"; a
    start means that the robot answered code 0 with a pose to
    [get_position], that this pose is the saved one, that the stop event is
    clear, that the thread holds the clamped amplitude and the given
    arguments, that the remembered speed lies in [0, 100], and that the
    thread start is the last event; without a start the thread and the
    stop event are as before. *)
Theorem play_status_faithful (amplitude_cm speed accel : R) (ax : string) (w : Ctl) :
  not_connected w = false ->
  exists msg w',
    play_point_to_point hw amplitude_cm speed accel ax w = (Val msg, w')
    /\ (playing (state w') = true <->
        msg = "Point-to-point motion started" \/ msg = "Already playing")
    /\ (msg = "Point-to-point motion started" ->
        (exists r p,
            respond hw (trace w) GetPosition = Returns r
            /\ code r = 0%Z /\ pose r = Some p
            /\ init_pose (state w') = Some p)
        /\ _stop_event w' = false
        /\ _motion_thread w' = Some (started_thread amplitude_cm speed accel ax)
        /\ (0 <= last_play_speed_pct (state w') <= 100)%R
        /\ exists pre, trace w' = (pre ++ [ThreadStart "motion"])%list)
    /\ (msg <> "Point-to-point motion started" ->
        _motion_thread w' = _motion_thread w /\ _stop_event w' = _stop_event w).
Proof. apply play_outcome. Qed.

Lemma endpoints_invalid_axis (pose : list R) (radian : bool) (ax e : string)
      (amp : R) :
  PoseMath._tool_axis_col ax = Exc e ->
  PoseMath.p2p_endpoints pose radian ax amp = Val None
  \/ exists e', PoseMath.p2p_endpoints pose radian ax amp = Exc e'.
Proof.
  intros Hax. unfold PoseMath.p2p_endpoints.
  destruct (List.length pose <? 6)%nat; [left; reflexivity|]. right.
  destruct pose as [|x [|y [|z [|rx [|ry [|rz [|? ?]]]]]]]; eauto.
  rewrite Hax. eauto.
Qed.

(** [play_point_to_point] does not check the axis label: when it reports
    a start for a label that [_tool_axis_col] rejects, the motion thread
    ends at once, having called the robot not a single time, and
    [playing] stays set. *)
Theorem invalid_axis_starts_idle_thread
        (amplitude_cm speed accel : R) (ax e : string) (polls : nat) (w w1 : Ctl) :
  not_connected w = false ->
  PoseMath._tool_axis_col ax = Exc e ->
  play_point_to_point hw amplitude_cm speed accel ax w
  = (Val "Point-to-point motion started", w1) ->
  let w2 := snd (run_motion_thread hw polls w1) in
  trace w2 = trace w1
  /\ playing (state w2) = true
  /\ _motion_thread w2
     = Some {| amp_mm := PoseMath.amp_mm_of_cm amplitude_cm; speed_percent := speed;
               accel_percent := accel; axis := ax; is_alive := false |}.
Proof.
  intros Hnc Hax Hplay w2.
  destruct (play_outcome amplitude_cm speed accel ax w Hnc)
    as (msg & w' & E & Hiff & Hstart & _).
  rewrite Hplay in E. injection E as <- <-.
  destruct (Hstart eq_refl) as (_ & _ & Hth & _).
  assert (Hpl : playing (state w1) = true) by (apply Hiff; left; reflexivity).
  subst w2. unfold run_motion_thread. rewrite bind_gets, Hth.
  cbn [started_thread is_alive amp_mm speed_percent accel_percent axis].
  rewrite bind_attempt. unfold set_motion_thread, modify.
  assert (Hloop : snd (_p2p_loop hw polls (PoseMath.amp_mm_of_cm amplitude_cm)
                                 speed accel ax w1) = w1).
  { unfold _p2p_loop. rewrite bind_gets.
    destruct (has_arm w1); cbn [negb]; [|reflexivity].
    rewrite !bind_gets. cbv zeta.
    match goal with |- context [PoseMath.p2p_endpoints ?p ?r ax ?m] =>
      destruct (endpoints_invalid_axis p r ax e m Hax) as [-> | (e' & ->)]
    end; reflexivity. }
  rewrite Hloop. cbn. auto.
Qed.

(** ** Teach mode *)

(** [toggle_teach] on a connected session never raises; the badge it
    returns agrees with [teach_enabled] afterwards; [playing] is cleared;
    the handle and [connected] are kept; and [teach_enabled] has changed
    exactly when the status is "Teach enabled" or "Teach disabled". *)
Theorem toggle_teach_badge_faithful (w : Ctl) :
  not_connected w = false ->
  exists msg label w',
    toggle_teach hw w = (Val (msg, label), w')
    /\ (label = "Draggable" /\ teach_enabled (state w') = true
        \/ label = "Not Draggable" /\ teach_enabled (state w') = false)
    /\ playing (state w') = false
    /\ same_session w w'
    /\ (teach_enabled (state w') = negb (teach_enabled (state w))
        <-> msg = "Teach enabled" \/ msg = "Teach disabled").
Proof.
  intros Hnc. unfold toggle_teach. rewrite bind_gets, Hnc, bind_gets.
  assert (Hrest : forall w0 : Ctl,
             _arm w0 = _arm w ->
             connected (state w0) = connected (state w) ->
             teach_enabled (state w0) = teach_enabled (state w) ->
             playing (state w0) = false ->
             exists msg label w',
               try_except
                 (teaching <- gets (fun w => teach_enabled (state w)) ;;
                  if negb teaching then
                    '(ok, msg) <- _set_mode_and_ready hw 2 ;;
                    if negb ok then
                      _set_mode_and_ready hw 0 ;;
                      set_teach_enabled false ;;
                      ret ("Teach enable failed: " ++ msg, "Not Draggable")
                    else
                      set_teach_enabled true ;;
                      ret ("Teach enabled", "Draggable")
                  else
                    '(ok, msg) <- _set_mode_and_ready hw 0 ;;
                    if negb ok then
                      set_teach_enabled true ;;
                      ret ("Teach disable failed: " ++ msg, "Draggable")
                    else
                      set_teach_enabled false ;;
                      ret ("Teach disabled", "Not Draggable"))
                 (fun e =>
                    set_last_error ("Teach toggle failed: " ++ e) ;;
                    msg <- gets (fun w => last_error (state w)) ;;
                    ret (msg, "Not Draggable")) w0
               = (Val (msg, label), w')
               /\ (label = "Draggable" /\ teach_enabled (state w') = true
                   \/ label = "Not Draggable" /\ teach_enabled (state w') = false)
               /\ playing (state w') = false
               /\ same_session w w'
               /\ (teach_enabled (state w') = negb (teach_enabled (state w))
                   <-> msg = "Teach enabled" \/ msg = "Teach disabled")).
  { intros w0 Ha Hcn Hte Hpl. unfold try_except. rewrite bind_gets, Hte.
    destruct (teach_enabled (state w)) eqn:Ht; cbn [negb].
    - destruct (set_mode_and_ready_result 0 w0) as (ok & m1 & w1 & E & F & _).
      rewrite (bind_val _ _ _ _ _ E). destruct F as (F1 & F2 & _).
      destruct ok; cbn; eexists _, _, _; (split; [reflexivity|]); cbn;
        rewrite ?F1, ?F2, ?Ha, ?Hcn, ?Hpl; unfold same_session; cbn;
        rewrite ?F1, ?F2, ?Ha, ?Hcn.
      + split; [right; auto|]. split; [reflexivity|]. split; [auto|].
        split; auto.
      + split; [left; auto|]. split; [reflexivity|]. split; [auto|].
        split; [discriminate | intros [H|H]; discriminate H].
    - destruct (set_mode_and_ready_result 2 w0) as (ok & m1 & w1 & E & F & _).
      rewrite (bind_val _ _ _ _ _ E). destruct F as (F1 & F2 & _).
      destruct ok; cbn [negb].
      + cbn. eexists _, _, _. split; [reflexivity|]. cbn.
        rewrite ?F1, ?F2, ?Ha, ?Hcn, ?Hpl; unfold same_session; cbn;
          rewrite ?F1, ?F2, ?Ha, ?Hcn.
        split; [left; auto|]. split; [reflexivity|]. split; [auto|].
        split; auto.
      + destruct (set_mode_and_ready_result 0 w1) as (ok2 & m2 & w2 & E2 & G & _).
        rewrite (bind_val _ _ _ _ _ E2). destruct G as (G1 & G2 & _).
        cbn. eexists _, _, _. split; [reflexivity|]. cbn.
        rewrite ?G1, ?G2, ?F1, ?F2, ?Ha, ?Hcn, ?Hpl; unfold same_session; cbn;
          rewrite ?G1, ?G2, ?F1, ?F2, ?Ha, ?Hcn.
        split; [right; auto|]. split; [reflexivity|]. split; [auto|].
        split; [discriminate | intros [H|H]; discriminate H]. }
  destruct (playing (state w)) eqn:Hp; unfold when.
  - destruct (stop_motion_session w Hnc) as (m0 & w0 & E & A1 & A2 & A3 & A4 & _).
    rewrite (bind_val _ _ _ _ _ (bind_val _ _ _ _ _ E)).
    apply Hrest; assumption.
  - rewrite bind_return. apply Hrest; auto.
Qed.

(** ** Disconnecting *)

(** [disconnect] never raises and always drops the handle, whether or not
    the release raised; the status "Disconnected" means that [connected]
    and [teach_enabled] are cleared, and any other status is a
    "Disconnect error"; afterwards play, stop and teach all answer
    "Not connected" and leave the controller as it is. *)
Theorem disconnect_drops_handle (w : Ctl) :
  exists msg w',
    disconnect hw w = (Val msg, w')
    /\ _arm w' = None
    /\ (msg = "Disconnected"
        /\ connected (state w') = false /\ teach_enabled (state w') = false
        \/ Py.startswith "Disconnect error: " msg = true)
    /\ stop_motion hw w' = (Val "Not connected", w')
    /\ toggle_teach hw w' = (Val ("Not connected", "Not Draggable"), w')
    /\ forall amplitude_cm speed accel ax,
        play_point_to_point hw amplitude_cm speed accel ax w'
        = (Val "Not connected", w').
Proof.
  assert (Hafter : forall w' : Ctl,
             _arm w' = None ->
             stop_motion hw w' = (Val "Not connected", w')
             /\ toggle_teach hw w' = (Val ("Not connected", "Not Draggable"), w')
             /\ forall amplitude_cm speed accel ax,
                 play_point_to_point hw amplitude_cm speed accel ax w'
                 = (Val "Not connected", w')).
  { intros w' Ha.
    assert (Hnc : not_connected w' = true).
    { unfold not_connected. rewrite Ha. apply orb_true_r. }
    repeat split; intros; unfold stop_motion, toggle_teach, play_point_to_point;
      rewrite bind_gets, Hnc; reflexivity. }
  assert (Hstop : exists m0 w0, stop_motion hw w = (Val m0, w0) /\ _arm w0 = _arm w).
  { destruct (not_connected w) eqn:Hnc.
    - exists "Not connected", w. unfold stop_motion. rewrite bind_gets, Hnc. auto.
    - destruct (stop_motion_session w Hnc) as (m0 & w0 & E & A1 & _).
      exists m0, w0. auto. }
  destruct Hstop as (m0 & w0 & E & Ha0).
  unfold disconnect. rewrite (bind_val _ _ _ _ _ E). unfold try_except.
  rewrite bind_gets. unfold has_arm.
  destruct (_arm w0) as [a|] eqn:Harm; unfold when.
  - unfold bind at 1. unfold try_finally. rewrite bind_sdk.
    destruct (respond hw (trace w0) Disconnect) as [r|e].
    + eexists _, _. split; [reflexivity|].
      split; [reflexivity|]. split; [left; repeat split|]. apply Hafter. reflexivity.
    + eexists _, _. split; [reflexivity|].
      split; [reflexivity|]. split; [right; apply startswith_append|].
      apply Hafter. reflexivity.
  - eexists _, _. split; [reflexivity|].
    split; [exact Harm|]. split; [left; repeat split|]. apply Hafter. exact Harm.
Qed.

(** ** Connecting *)

Lemma same_link_refl w : same_link w w.
Proof. split; reflexivity. Qed.

Lemma same_link_trans w1 w2 w3 : same_link w1 w2 -> same_link w2 w3 -> same_link w1 w3.
Proof. unfold same_link. intuition congruence. Qed.

Lemma same_link_event w (e : event) :
  true = true -> same_link w (with_trace (trace_of w ++ [e]) w).
Proof. split; reflexivity. Qed.

#[local] Hint Resolve same_link_refl same_link_trans same_link_event : footprint.

Ltac keeps_link :=
  repeat (try solve [ eauto with footprint
                    | intros ?; cbn; unfold same_link; cbn; split; reflexivity ];
          keeps_step).

(** The part of [connect] after the mode change: the optional queries and
    the final assignments. *)
Lemma connect_tail (addr : string) (w : Ctl) :
  exists w',
    (attempt
       (when (has_attr hw "get_tcp_maxlin_vel")
          (r <- sdk hw GetTcpMaxlinVel ;;
           match num r with
           | Some vmax => when (code r =? 0)%Z (set_max_tcp_lin_vel_mmps vmax)
           | None => ret tt
           end) ;;
        when (has_attr hw "get_tcp_maxlin_acc")
          (r <- sdk hw GetTcpMaxlinAcc ;;
           match num r with
           | Some amax => when (code r =? 0)%Z (set_max_tcp_lin_acc_mmps2 amax)
           | None => ret tt
           end)) ;;
     attempt
       (r <- sdk hw GetVersion ;;
        when (code r =? 0)%Z (set_sdk_version (Some (text r)))) ;;
     set_connected true ;;
     set_last_error "Connected" ;;
     ret ("Connected to " ++ addr)) w
    = (Val ("Connected to " ++ addr), w')
    /\ connected (state w') = true
    /\ last_error (state w') = "Connected"
    /\ same_link w w'.
Proof.
  rewrite bind_attempt.
  match goal with |- context [snd (?m w)] =>
    assert (K1 : keeps same_link m) by keeps_link;
    specialize (K1 w); set (w1 := snd (m w)) in *
  end.
  rewrite bind_attempt.
  match goal with |- context [snd (?m w1)] =>
    assert (K2 : keeps same_link m) by keeps_link;
    specialize (K2 w1); set (w2 := snd (m w1)) in *
  end.
  clearbody w1 w2. eexists. split; [reflexivity|]. cbn.
  split; [reflexivity|]. split; [reflexivity|].
  destruct K1 as (A1 & B1), K2 as (A2 & B2). split; cbn; congruence.
Qed.

(** [connect] on a session that is not connected, with the SDK installed:
    it never raises; it stores the requested address (or keeps the old one
    when the request is blank); it ends connected exactly when the robot
    opened the link and answered code 0 to [motion_enable], [set_mode(0)]
    and [set_state(0)], whatever the optional queries do; a connected
    session holds the handle and the status "Connected to <ip>"; and a
    failed connect returns the text it stores in [last_error]. *)
Theorem connect_succeeds_iff_bringup (ip_in : string) (w : Ctl) :
  installed hw = true ->
  connected (state w) = false ->
  let addr := Py.str_or (Py.strip ip_in) (ip (state w)) in
  exists msg w',
    connect hw ip_in w = (Val msg, w')
    /\ ip (state w') = addr
    /\ (connected (state w') = true <->
        exists a0 a1 a2 a3,
          respond hw (trace w) (Open addr) = Returns a0
          /\ respond hw (trace w ++ [Open addr]) (MotionEnable true) = Returns a1
          /\ code a1 = 0%Z
          /\ respond hw (trace w ++ [Open addr; MotionEnable true]) (SetMode 0)
             = Returns a2
          /\ code a2 = 0%Z
          /\ respond hw (trace w ++ [Open addr; MotionEnable true; SetMode 0])
                     (SetState 0) = Returns a3
          /\ code a3 = 0%Z)
    /\ (connected (state w') = true ->
        msg = "Connected to " ++ addr
        /\ _arm w' = Some addr
        /\ last_error (state w') = "Connected")
    /\ (connected (state w') = false -> last_error (state w') = msg).
Proof.
  intros Hinst Hc addr. unfold connect, set_ip, upd_state.
  rewrite bind_gets, bind_modify, Hinst. cbn [negb].
  rewrite !bind_gets. cbn [state connected ip]. rewrite Hc. fold addr.
  unfold try_except. rewrite bind_sdk. cbn [trace].
  destruct (respond hw (trace w) (Open addr)) as [a0|e0] eqn:E0.
  2:{ cbn. eexists _, _. split; [reflexivity|]. cbn. split; [reflexivity|].
      split; [split; [discriminate | intros (? & ? & ? & ? & H & _); discriminate H]|].
      split; [discriminate | reflexivity]. }
  unfold set_arm. rewrite bind_modify, bind_attempt.
  match goal with |- context [snd (?m ?x)] =>
    assert (H1 : exists w1, snd (m x) = w1
                            /\ trace w1 = (trace w ++ [Open addr])%list
                            /\ _arm w1 = Some addr
                            /\ connected (state w1) = false
                            /\ ip (state w1) = addr)
  end.
  { unfold when, getattr_is_radian.
    destruct (has_attr hw "is_radian"); [destruct (attr_is_radian hw)|];
      eexists; (split; [reflexivity|]); cbn; auto. }
  destruct H1 as (w1 & -> & T1 & A1 & C1 & I1).
  rewrite bind_sdk, T1.
  destruct (respond hw (trace w ++ [Open addr]) (MotionEnable true)) as [a1|e1] eqn:E1.
  2:{ cbn. eexists _, _. split; [reflexivity|]. cbn. split; [exact I1|].
      split; [split; [discriminate
                     | intros (? & ? & ? & ? & _ & H & _); discriminate H]|].
      split; [discriminate | reflexivity]. }
  destruct (Z.eq_dec (code a1) 0) as [Z1|Z1].
  2:{ destruct (check_nonzero (code a1) "motors on" "motion_enable failed"
                  (pushed (MotionEnable true) w1) Z1) as (m2 & w2 & Ec & F).
      rewrite (bind_val _ _ _ _ _ Ec). destruct F as (F1 & F2 & _).
      cbn. eexists _, _. split; [reflexivity|]. cbn. rewrite F2. cbn.
      rewrite C1, I1. split; [reflexivity|].
      split; [split; [discriminate|]|].
      - intros (? & a1' & ? & ? & _ & H & Hz & _). inversion H; subst. contradiction.
      - split; [discriminate | reflexivity]. }
  rewrite Z1, (bind_val _ _ _ _ _ (check_zero _ _ _)). cbn [negb].
  set (w2 := pushed (MotionEnable true) w1).
  assert (Ha2 : has_arm w2 = true) by (unfold has_arm; cbn; rewrite A1; reflexivity).
  destruct (set_mode_and_ready_outcome 0 w2 Ha2)
    as (ok & m3 & w3 & E3 & F & Hiff & Hok).
  rewrite (bind_val _ _ _ _ _ E3).
  assert (T2 : trace w2 = (trace w ++ [Open addr; MotionEnable true])%list).
  { unfold w2. cbn. rewrite T1, <- app_assoc. reflexivity. }
  rewrite T2, <- app_assoc in Hiff. cbn [app] in Hiff.
  destruct F as (F1 & F2 & _).
  destruct ok; cbn [negb].
  - destruct (connect_tail addr w3) as (w4 & E4 & C4 & L4 & A4 & I4).
    rewrite E4. exists ("Connected to " ++ addr), w4. split; [reflexivity|].
    rewrite I4, F2. cbn. split; [exact I1|]. rewrite C4, L4, A4, F1. cbn.
    split; [split; [|reflexivity]|].
    + intros _. destruct (proj1 Hiff eq_refl) as (a2 & a3 & R2 & Z2 & R3 & Z3).
      exists a0, a1, a2, a3. auto 10.
    + split; [auto | discriminate].
  - cbn. eexists _, _. split; [reflexivity|]. cbn. rewrite F2. cbn.
    rewrite C1, I1. split; [reflexivity|].
    split; [split; [discriminate|]|].
    + intros (? & ? & a2 & a3 & _ & _ & _ & R2 & Z2 & R3 & Z3).
      assert (false = true); [|discriminate]. apply Hiff. exists a2, a3. auto.
    + split; [discriminate | reflexivity].
Qed.

End WithArm.

(** ** The theorems on an example session *)

Import Scenarios.

Ltac run := vm_compute; reflexivity.

Lemma set_mode_and_ready_confirms_witness :
  let hw := obedient (Some home_pose) in
  let w := xarm_connected hw in
  has_arm w = true
  /\ exists ok msg w',
      _set_mode_and_ready hw 2 w = (Val (ok, msg), w')
      /\ frame w w'
      /\ (ok = true <->
          exists a1 a2,
            respond hw (trace w) (SetMode 2) = Returns a1 /\ code a1 = 0%Z
            /\ respond hw (trace w ++ [SetMode 2]) (SetState 0) = Returns a2
            /\ code a2 = 0%Z)
      /\ (ok = true ->
          msg = "ready" /\ trace w' = (trace w ++ [SetMode 2; SetState 0])%list).
Proof.
  cbv zeta. split; [run|].
  apply (set_mode_and_ready_confirms (obedient (Some home_pose)) 2
           (xarm_connected (obedient (Some home_pose)))).
  run.
Defined.

Lemma p2p_loop_alternates_witness :
  let hw := obedient (Some home_pose) in
  let w := xarm_playing hw in
  let v := v_target_of (max_tcp_lin_vel_mmps (state w)) 50 in
  let a := a_target_of (max_tcp_lin_acc_mmps2 (state w)) 50 in
  let w' := snd (_p2p_loop hw 4 50 50 50 "z" w) in
  has_arm w = true
  /\ init_pose (state w) = Some [300; 0; 200; 180; 0; 0]%R
  /\ In "z" ["x"; "y"; "z"; "X"; "Y"; "Z"]
  /\ exists radian p_low p_high n,
      PoseMath.p2p_endpoints [300; 0; 200; 180; 0; 0]%R radian "z" 50
      = Val (Some (p_low, p_high))
      /\ (n <= 4)%nat
      /\ filter is_move (trace w')
         = (filter is_move (trace w) ++ alternating n p_low p_high v a true)%list
      /\ (_stop_event w = true -> n = 0%nat)
      /\ frame w w'
      /\ ((0 <= max_tcp_lin_vel_mmps (state w))%R ->
          (0 <= v <= 4 * max_tcp_lin_vel_mmps (state w))%R)
      /\ ((0 <= max_tcp_lin_acc_mmps2 (state w))%R ->
          (0 <= a <= 4 * max_tcp_lin_acc_mmps2 (state w))%R).
Proof.
  cbv zeta. split; [run|]. split; [run|]. split; [cbn; auto|].
  apply (p2p_loop_alternates (obedient (Some home_pose)) 4 50 50 50 "z"
           300 0 200 180 0 0 (xarm_playing (obedient (Some home_pose)))).
  - run.
  - run.
  - cbn; auto.
Defined.

Lemma play_status_faithful_witness :
  let hw := obedient (Some home_pose) in
  let w := xarm_connected hw in
  not_connected w = false
  /\ exists msg w',
      play_point_to_point hw 5 50 50 "z" w = (Val msg, w')
      /\ (playing (state w') = true <->
          msg = "Point-to-point motion started" \/ msg = "Already playing")
      /\ (msg = "Point-to-point motion started" ->
          (exists r p,
              respond hw (trace w) GetPosition = Returns r
              /\ code r = 0%Z /\ pose r = Some p
              /\ init_pose (state w') = Some p)
          /\ _stop_event w' = false
          /\ _motion_thread w' = Some (started_thread 5 50 50 "z")
          /\ (0 <= last_play_speed_pct (state w') <= 100)%R
          /\ exists pre, trace w' = (pre ++ [ThreadStart "motion"])%list)
      /\ (msg <> "Point-to-point motion started" ->
          _motion_thread w' = _motion_thread w /\ _stop_event w' = _stop_event w).
Proof.
  cbv zeta. split; [run|].
  apply (play_status_faithful (obedient (Some home_pose)) 5 50 50 "z"
           (xarm_connected (obedient (Some home_pose)))).
  run.
Defined.

Lemma toggle_teach_badge_faithful_witness :
  let hw := obedient (Some home_pose) in
  let w := xarm_playing hw in
  not_connected w = false
  /\ exists msg label w',
      toggle_teach hw w = (Val (msg, label), w')
      /\ (label = "Draggable" /\ teach_enabled (state w') = true
          \/ label = "Not Draggable" /\ teach_enabled (state w') = false)
      /\ playing (state w') = false
      /\ same_session w w'
      /\ (teach_enabled (state w') = negb (teach_enabled (state w))
          <-> msg = "Teach enabled" \/ msg = "Teach disabled").
Proof.
  cbv zeta. split; [run|].
  apply (toggle_teach_badge_faithful (obedient (Some home_pose))
           (xarm_playing (obedient (Some home_pose)))).
  run.
Defined.

Lemma connect_succeeds_iff_bringup_witness :
  let hw := obedient (Some home_pose) in
  let w := init in
  let addr := Py.str_or (Py.strip " 10.0.0.7 ") (ip (state w)) in
  installed hw = true
  /\ connected (state w) = false
  /\ exists msg w',
      connect hw " 10.0.0.7 " w = (Val msg, w')
      /\ ip (state w') = addr
      /\ (connected (state w') = true <->
          exists a0 a1 a2 a3,
            respond hw (trace w) (Open addr) = Returns a0
            /\ respond hw (trace w ++ [Open addr]) (MotionEnable true) = Returns a1
            /\ code a1 = 0%Z
            /\ respond hw (trace w ++ [Open addr; MotionEnable true]) (SetMode 0)
               = Returns a2
            /\ code a2 = 0%Z
            /\ respond hw (trace w ++ [Open addr; MotionEnable true; SetMode 0])
                       (SetState 0) = Returns a3
            /\ code a3 = 0%Z)
      /\ (connected (state w') = true ->
          msg = "Connected to " ++ addr
          /\ _arm w' = Some addr
          /\ last_error (state w') = "Connected")
      /\ (connected (state w') = false -> last_error (state w') = msg).
Proof.
  cbv zeta. split; [reflexivity|]. split; [reflexivity|].
  apply (connect_succeeds_iff_bringup (obedient (Some home_pose)) " 10.0.0.7 " init);
    reflexivity.
Defined.

(** The address is stripped as [str.strip] does it: of a unit separator
    (U+001F), of a no-break space (U+00A0) and an ideographic space
    (U+3000), but of nothing inside; and a request of white space only
    keeps the old address. *)
Lemma connect_strips_unicode_space :
  let hw := obedient (Some home_pose) in
  let nbsp := String "194" (String "160" "") in
  let wide := String "227" (String "128" (String "128" "")) in
  Py.strip (String "031" "10.0.0.7") = "10.0.0.7"
  /\ Py.strip (nbsp ++ "10.0.0.7" ++ wide ++ " ") = "10.0.0.7"
  /\ Py.strip "10.0 .0.7" = "10.0 .0.7"
  /\ fst (connect hw (String "031" "10.0.0.7") init) = Val "Connected to 10.0.0.7"
  /\ ip (state (snd (connect hw (String "031" "10.0.0.7") init))) = "10.0.0.7"
  /\ ip (state (snd (connect hw (String "031" "") init))) = "192.168.1.221".
Proof. cbv zeta. repeat apply conj; vm_compute; reflexivity. Qed.

Lemma invalid_axis_starts_idle_thread_witness :
  let hw := obedient (Some home_pose) in
  let w := xarm_connected hw in
  let w1 := snd (play_point_to_point hw 5 50 50 "w" w) in
  let w2 := snd (run_motion_thread hw 3 w1) in
  not_connected w = false
  /\ PoseMath._tool_axis_col "w" = Exc "axis must be 'x', 'y', or 'z'"
  /\ play_point_to_point hw 5 50 50 "w" w
     = (Val "Point-to-point motion started", w1)
  /\ trace w2 = trace w1
  /\ playing (state w2) = true
  /\ _motion_thread w2
     = Some {| amp_mm := PoseMath.amp_mm_of_cm 5; speed_percent := 50;
               accel_percent := 50; axis := "w"; is_alive := false |}.
Proof.
  cbv zeta. split; [run|]. split; [reflexivity|]. split; [run|].
  apply (invalid_axis_starts_idle_thread (obedient (Some home_pose)) 5 50 50 "w"
           "axis must be 'x', 'y', or 'z'" 3
           (xarm_connected (obedient (Some home_pose)))
           (snd (play_point_to_point (obedient (Some home_pose)) 5 50 50 "w"
                   (xarm_connected (obedient (Some home_pose)))))).
  - run.
  - reflexivity.
  - run.
Defined.

End XArmMore.

(* ================================================================== *)
(** * Further properties of XArmGradioController *)
(* ================================================================== *)

Module GradioMore.

Import Sdk Eff Footprint EffFacts XArmGradioController GradioSpec GradioSettings
       SessionSpec.
Local Open Scope eff_scope.

(** Case analysis on everything a method asks the robot and the state. *)
Ltac explode :=
  repeat (vm_compute;
          match goal with
          | resp : list event -> event -> outcome answer |- context [?f ?t ?c] =>
              constr_eq f resp; destruct (resp t c)
          | hattr : string -> bool |- context [?f ?n] =>
              constr_eq f hattr; destruct (hattr n)
          | |- context [match ?x with _ => _ end] => is_var x; destruct x
          end).

(** The same on an equation [E : m w = (r, w')], which is then solved for
    [r] and [w']. *)
Ltac explode_in E :=
  repeat (vm_compute in E;
          match type of E with
          | context [?f ?t ?c] =>
              lazymatch type of f with
              | list event -> event -> outcome answer => is_var f; destruct (f t c)
              end
          | context [?f ?n] =>
              lazymatch type of f with
              | string -> bool => is_var f; destruct (f n)
              end
          | context [match ?x with _ => _ end] => is_var x; destruct x
          end);
  injection E as <- <-.

Ltac open_ctl w :=
  destruct w as [cfg [a|] [ip0 cn tm rc ls tf ps cs ts] cb lq lt rs pt ev tr].

Ltac open_arm hw :=
  destruct hw as [inst hattr israd resp].

Lemma connect_session_ok (hw : Arm) (ip_in : string) (w : Ctl) :
  session_ok w = true -> session_ok (snd (connect hw ip_in w)) = true.
Proof.
  open_arm hw. open_ctl w; unfold session_ok; cbn; intros H.
  - destruct inst; vm_compute; exact H.
  - destruct cn; [discriminate|]. destruct tm; [discriminate|].
    destruct rc; [discriminate|]. destruct cb; [discriminate|].
    destruct inst; explode; reflexivity.
Qed.

Ltac flags H :=
  unfold session_ok in *; cbn in H |- *;
  repeat match type of H with
         | context [?b] =>
             is_var b;
             lazymatch type of b with bool => destruct b end
         end; try discriminate H.

Lemma react_session_ok (hw : Arm) (moved : bool) (now : R) (w : Ctl) :
  session_ok w = true -> session_ok (snd (react hw moved now w)) = true.
Proof.
  intros H. unfold react. rewrite bind_gets.
  destruct (teach_mode (state w)) eqn:Ht; cbn [negb].
  2:{ open_ctl w; cbn in *; subst; exact H. }
  destruct moved.
  - unfold set_last_motion_t. rewrite bind_modify, bind_gets. cbn [_record_started].
    destruct (_record_started w) eqn:Hs; cbn [negb when].
    + open_ctl w; cbn in *; subst; exact H.
    + open_arm hw. open_ctl w; cbn in Ht, Hs; subst; flags H; explode; reflexivity.
  - rewrite !bind_gets.
    destruct (_record_started w && Py.geb (now - _last_motion_t w) (idle_timeout (detect_cfg w)));
      cbn [when]; [|exact H].
    open_arm hw. open_ctl w; cbn in Ht; subst; flags H; explode; reflexivity.
Qed.

Lemma on_report_session_ok (hw : Arm) (data : report) (now : R) (w : Ctl) :
  session_ok w = true -> session_ok (snd (_on_report hw data now w)) = true.
Proof.
  intros H. destruct (joints_of data) as [[|x q]|] eqn:Hj.
  1,3: rewrite GradioFacts.on_report_unusable
    by (unfold DetectorSpec.usable; now rewrite Hj); exact H.
  destruct (detect (detect_cfg w) (_last_q w) (x :: q)) as [b|e] eqn:Hd.
  - rewrite (GradioFacts.on_report_usable hw data now w x q b Hj Hd). cbn [snd].
    apply react_session_ok. open_ctl w; exact H.
  - rewrite (GradioFacts.on_report_detect_raises hw data now w x q e Hj Hd). exact H.
Qed.

Lemma toggle_teach_session_ok (hw : Arm) (enable : bool) (w : Ctl) :
  session_ok w = true -> session_ok (snd (toggle_teach hw enable w)) = true.
Proof.
  intros H. destruct (toggle_teach hw enable w) as [r w1] eqn:E. cbn [snd].
  open_arm hw. open_ctl w; flags H; destruct enable; explode_in E; reflexivity.
Qed.

Lemma disconnect_outcome (hw : Arm) (w : Ctl) :
  let w1 := snd (disconnect hw w) in
  fst (disconnect hw w) = Val ("disconnected", false)
  /\ arm w1 = None
  /\ connected (state w1) = false
  /\ teach_mode (state w1) = false
  /\ recording (state w1) = false
  /\ last_status (state w1) = "disconnected"
  /\ _play_thread w1 = None
  /\ _record_started w1 = _record_started w
  /\ (if has_arm w then _cb_registered w1 = false
      else _cb_registered w1 = _cb_registered w)
  /\ disconnect hw w1 = (Val ("disconnected", false), w1).
Proof.
  destruct (disconnect hw w) as [r w1] eqn:E. cbn [snd fst].
  open_arm hw. open_ctl w; explode_in E; vm_compute; repeat split.
Qed.

Lemma disconnect_session_ok (hw : Arm) (w : Ctl) :
  session_ok w = true -> session_ok (snd (disconnect hw w)) = true.
Proof.
  intros H.
  destruct (disconnect_outcome hw w) as (_ & A & C & T & R & _ & _ & _ & B & _).
  unfold session_ok, has_arm in *. rewrite A, C, T, R. cbn.
  destruct (arm w); [rewrite B; reflexivity|]. rewrite B.
  destruct (_cb_registered w); [|reflexivity].
  rewrite !andb_false_r in H || (rewrite andb_comm in H; cbn in H). exact H.
Qed.

Lemma exec_session_ok (hw : Arm) (o : op) (w : Ctl) :
  session_ok w = true -> session_ok (exec hw o w) = true.
Proof.
  intros H. destruct o; cbn [exec].
  - apply connect_session_ok, H.
  - apply disconnect_session_ok, H.
  - apply toggle_teach_session_ok, H.
  - apply on_report_session_ok, H.
  - open_ctl w; [|exact H]. destruct pt as [[|]|]; exact H.
  - open_ctl w; destruct pt as [[|]|]; exact H.
Qed.

Lemma run_session_ok (hw : Arm) (ops : list op) (w : Ctl) :
  session_ok w = true -> session_ok (run hw ops w) = true.
Proof.
  revert w. induction ops as [|o rest IH]; intros w H; [exact H|].
  cbn [run]. apply IH, exec_session_ok, H.
Qed.

(** In every state the controller can reach, on any robot: [connected]
    tells whether the handle is there; teach mode, a recording and a
    registered callback occur only with a handle; and [recording] is set
    only while [_record_started] is. *)
Theorem session_flags_follow_handle (hw : Arm) (ops : list op) (cfg : DetectConfig) :
  let w := run hw ops (init cfg) in
  connected (state w) = has_arm w
  /\ (teach_mode (state w) = true -> has_arm w = true)
  /\ (recording (state w) = true -> has_arm w = true /\ _record_started w = true)
  /\ (_cb_registered w = true -> has_arm w = true).
Proof.
  intros w. assert (H : session_ok w = true) by (apply run_session_ok; reflexivity).
  clearbody w. unfold session_ok in H.
  destruct (connected (state w)), (has_arm w), (teach_mode (state w)),
    (recording (state w)), (_record_started w), (_cb_registered w);
    try discriminate H; repeat split; auto.
Qed.

(** ** The playback thread *)

Lemma same_playback_refl w : same_playback w w.
Proof. repeat split. Qed.

Lemma same_playback_trans w1 w2 w3 :
  same_playback w1 w2 -> same_playback w2 w3 -> same_playback w1 w3.
Proof. unfold same_playback. intuition congruence. Qed.

Lemma same_playback_event w (e : event) :
  not_playback e = true -> same_playback w (with_trace (trace_of w ++ [e]) w).
Proof.
  unfold same_playback, not_playback. intros He. cbn. rewrite !filter_app. cbn.
  destruct (is_playback_start e), (is_playback_join e); try discriminate He.
  rewrite !app_nil_r. auto.
Qed.

Ltac keeps_playback :=
  repeat (try solve [ apply same_playback_refl
                    | apply same_playback_trans
                    | apply same_playback_event
                    | reflexivity
                    | intros ?; unfold same_playback; cbn; auto ];
          keeps_step_with not_playback).

Lemma same_playback_accounts w w' :
  same_playback w w' ->
  unjoined_starts w = held_playbacks w ->
  unjoined_starts w' = held_playbacks w'.
Proof.
  unfold same_playback, unjoined_starts, held_playbacks.
  intros (-> & -> & ->). auto.
Qed.

Lemma stop_playback_thread_accounts (w : Ctl) :
  unjoined_starts w = held_playbacks w ->
  exists w1,
    _stop_playback_thread w = (Val tt, w1)
    /\ unjoined_starts w1 = held_playbacks w1.
Proof.
  unfold _stop_playback_thread, unjoined_starts, held_playbacks.
  rewrite bind_gets. intros H.
  destruct (_play_thread w) as [[|]|] eqn:Hp; eexists; (split; [reflexivity|]);
    cbn; rewrite ?filter_app; cbn; rewrite ?app_nil_r, ?length_app; cbn; lia.
Qed.

Lemma exec_accounts (hw : Arm) (o : op) (w : Ctl) :
  unjoined_starts w = held_playbacks w ->
  unjoined_starts (exec hw o w) = held_playbacks (exec hw o w).
Proof.
  intros H. destruct o; cbn [exec].
  - apply (same_playback_accounts w); [|exact H].
    assert (K : keeps same_playback (connect hw ip_in)); [|apply K].
    unfold connect. keeps_playback.
  - destruct (stop_playback_thread_accounts w H) as (w1 & E1 & H1).
    unfold disconnect. rewrite (XArmMore.bind_val _ _ _ _ _ E1).
    apply (same_playback_accounts w1); [|exact H1].
    match goal with |- same_playback w1 (snd (?m w1)) =>
      assert (K : keeps same_playback m); [|apply K] end.
    keeps_playback.
  - apply (same_playback_accounts w); [|exact H].
    assert (K : keeps same_playback (toggle_teach hw enable)); [|apply K].
    unfold toggle_teach, _ensure_report_callback. keeps_playback.
  - apply (same_playback_accounts w); [|exact H].
    assert (K : keeps same_playback (_on_report hw data now)); [|apply K].
    unfold _on_report, react, begin_recording, save_recording, leave_teach.
    keeps_playback.
  - unfold start_playback, unjoined_starts, held_playbacks in *.
    rewrite bind_gets. destruct (has_arm w); cbn [negb]; [|exact H].
    rewrite bind_gets.
    destruct (_play_thread w) as [[|]|] eqn:Hp; [cbn; rewrite Hp; exact H| |];
      cbn; rewrite !filter_app; cbn; rewrite !app_nil_r, length_app; cbn; lia.
  - destruct (stop_playback_thread_accounts w H) as (w1 & E1 & H1).
    unfold stop_playback. rewrite (XArmMore.bind_val _ _ _ _ _ E1). exact H1.
Qed.

(** In every run, on any robot, the playback threads started exceed the
    join calls by the number of live thread objects the controller refers
    to, one or none: [start_playback] starts no thread while the
    controller refers to a live one, and before the next start that
    thread is told to stop and joined.  The join gives up after a second,
    so this counts calls and references, not the threads that are
    running. *)
Theorem playback_start_follows_join (hw : Arm) (ops : list op) (cfg : DetectConfig) :
  let w := run hw ops (init cfg) in
  unjoined_starts w = held_playbacks w
  /\ (0 <= unjoined_starts w <= 1)%Z.
Proof.
  intros w.
  assert (H : unjoined_starts w = held_playbacks w).
  { subst w. generalize (init cfg) (eq_refl : unjoined_starts (init cfg)
                                               = held_playbacks (init cfg)).
    induction ops as [|o rest IH]; intros w0 H0; [exact H0|].
    cbn [run]. apply IH, exec_accounts, H0. }
  split; [exact H|]. rewrite H. unfold held_playbacks.
  destruct (_play_thread w) as [[|]|]; lia.
Qed.

(** ** Connecting and disconnecting *)

Lemma bind_call {B : Type} (hw : Arm) (c : event) (k : answer -> Eff.M B) (w : Ctl) :
  bind (sdk hw c) k w
  = match respond hw (trace w) c with
    | Returns a => k a (with_trace (trace w ++ [c]) w)
    | Raises e => (Exc e, with_trace (trace w ++ [c]) w)
    end.
Proof. unfold bind, sdk. cbn. destruct (respond hw (trace w) c); reflexivity. Qed.

Lemma snd_call (hw : Arm) (c : event) (w : Ctl) :
  snd (sdk hw c w) = with_trace (trace w ++ [c]) w.
Proof. unfold sdk. cbn. destruct (respond hw (trace w) c); reflexivity. Qed.

Lemma bind_tried {A B : Type} (m : Eff.M A) (k : unit -> Eff.M B) (w : Ctl) :
  bind (attempt m) k w = k tt (snd (m w)).
Proof. reflexivity. Qed.

Ltac fields :=
  cbn [trace with_trace Ctl_Traced trace_of detect_cfg arm state _cb_registered
       _last_q _last_motion_t _record_started _play_thread _stop_play_evt].

(** [connect] without a handle, the SDK being installed: it never raises;
    it reports success exactly when none of the four bring-up calls
    raises, whatever codes they return; on success the handle, the address
    and [connected] are set, and on failure there is no handle and
    [connected] is false. *)
Theorem connect_succeeds_unless_raised (hw : Arm) (ip_in : string) (w : Ctl) :
  installed hw = true ->
  arm w = None ->
  exists msg ok w',
    connect hw ip_in w = (Val (msg, ok), w')
    /\ (ok = true <->
        exists a0 a1 a2 a3,
          respond hw (trace w) (Open ip_in) = Returns a0
          /\ respond hw (trace w ++ [Open ip_in]) (MotionEnable true) = Returns a1
          /\ respond hw (trace w ++ [Open ip_in; MotionEnable true]) (SetMode 0)
             = Returns a2
          /\ respond hw (trace w ++ [Open ip_in; MotionEnable true; SetMode 0])
                     (SetState 0) = Returns a3)
    /\ (ok = true ->
        msg = "connected" /\ arm w' = Some ip_in
        /\ connected (state w') = true /\ ip (state w') = ip_in)
    /\ (ok = false -> arm w' = None /\ connected (state w') = false).
Proof.
  intros Hi Ha. destruct w as [cfg ar st cb lq lt rs pt ev tr]. cbn in Ha. subst ar.
  unfold connect. rewrite Hi. cbn [negb].
  rewrite bind_gets. unfold has_arm. cbn [arm trace].
  unfold try_except. rewrite bind_call. fields.
  destruct (respond hw tr (Open ip_in)) as [a0|e0] eqn:E0.
  2:{ eexists _, false, _. split; [reflexivity|].
      split; [split; [discriminate | intros (? & ? & ? & ? & H & _); discriminate H]|].
      split; [discriminate | intros _; split; reflexivity]. }
  unfold set_arm, set_ip, upd_state. rewrite !bind_modify. fields.
  rewrite bind_call. fields.
  destruct (respond hw (tr ++ [Open ip_in]) (MotionEnable true)) as [a1|e1] eqn:E1.
  2:{ eexists _, false, _. split; [reflexivity|].
      split; [split; [discriminate
                     | intros (? & ? & ? & ? & _ & H & _); discriminate H]|].
      split; [discriminate | intros _; split; reflexivity]. }
  rewrite bind_call. fields. rewrite <- app_assoc. cbn [app].
  destruct (respond hw (tr ++ [Open ip_in; MotionEnable true]) (SetMode 0))
    as [a2|e2] eqn:E2.
  2:{ eexists _, false, _. split; [reflexivity|].
      split; [split; [discriminate
                     | intros (? & ? & ? & ? & _ & _ & H & _); discriminate H]|].
      split; [discriminate | intros _; split; reflexivity]. }
  rewrite bind_call. fields. rewrite <- app_assoc. cbn [app].
  destruct (respond hw (tr ++ [Open ip_in; MotionEnable true; SetMode 0])
                    (SetState 0)) as [a3|e3] eqn:E3.
  2:{ eexists _, false, _. split; [reflexivity|].
      split; [split; [discriminate
                     | intros (? & ? & ? & ? & _ & _ & _ & H); discriminate H]|].
      split; [discriminate | intros _; split; reflexivity]. }
  rewrite bind_gets, bind_tried, snd_call. fields. rewrite bind_gets. unfold when.
  destruct (has_attr hw "set_teach_sensitivity");
    [rewrite bind_tried, snd_call | rewrite GradioFacts.bind_ret]; fields;
    (eexists _, true, _; split; [reflexivity|];
     split; [split; [intros _; exists a0, a1, a2, a3; auto | reflexivity]|];
     split; [intros _; repeat split | discriminate]).
Qed.

(** [disconnect] never raises and always answers "disconnected", whatever
    the robot does: afterwards there is no handle, [connected],
    [teach_mode] and [recording] are false and no playback thread is held;
    [_record_started] is left as it was; and a second [disconnect] changes
    nothing any more. *)
Theorem disconnect_resets_session (hw : Arm) (w : Ctl) :
  let w1 := snd (disconnect hw w) in
  fst (disconnect hw w) = Val ("disconnected", false)
  /\ arm w1 = None
  /\ connected (state w1) = false
  /\ teach_mode (state w1) = false
  /\ recording (state w1) = false
  /\ last_status (state w1) = "disconnected"
  /\ _play_thread w1 = None
  /\ _record_started w1 = _record_started w
  /\ (if has_arm w then _cb_registered w1 = false
      else _cb_registered w1 = _cb_registered w)
  /\ disconnect hw w1 = (Val ("disconnected", false), w1).
Proof. apply disconnect_outcome. Qed.

(** ** Teach mode *)

(** [toggle_teach] with a handle never raises, and its status tells what
    it did: "waiting" means that teach mode was requested and is on;
    "idle" means that it was switched off, with no recording left and the
    report callback removed; with any other status teach mode is as it
    was.  Switching off clears [recording] even when the mode change
    fails.  The handle and [connected] are never touched. *)
Theorem toggle_teach_status_faithful (hw : Arm) (enable : bool) (w : Ctl) :
  has_arm w = true ->
  exists msg w',
    toggle_teach hw enable w = (Val msg, w')
    /\ (msg = "waiting" -> enable = true /\ teach_mode (state w') = true)
    /\ (msg = "idle" ->
        enable = false /\ teach_mode (state w') = false
        /\ recording (state w') = false /\ _cb_registered w' = false)
    /\ (msg <> "waiting" -> msg <> "idle" ->
        teach_mode (state w') = teach_mode (state w))
    /\ (enable = false -> recording (state w') = false)
    /\ arm w' = arm w
    /\ connected (state w') = connected (state w).
Proof.
  intros Ha. destruct (toggle_teach hw enable w) as [r w1] eqn:E.
  open_arm hw. open_ctl w; [|discriminate Ha]. clear Ha.
  destruct enable; explode_in E; eexists _, _; (split; [reflexivity|]);
    vm_compute; repeat split; intros; try discriminate;
    try match goal with
        | H : ?x = ?x -> False |- _ => exfalso; apply H; reflexivity
        end.
Qed.

(** ** Recordings *)

Lemma no_save_refl w : no_save w w.
Proof. reflexivity. Qed.

Lemma no_save_trans w1 w2 w3 : no_save w1 w2 -> no_save w2 w3 -> no_save w1 w3.
Proof. unfold no_save. congruence. Qed.

Lemma no_save_event w (e : event) :
  not_saving e = true -> no_save w (with_trace (trace_of w ++ [e]) w).
Proof.
  unfold no_save, not_saving. intros He. cbn. rewrite filter_app. cbn.
  destruct (is_saving e); [discriminate He|]. apply app_nil_r.
Qed.

Ltac keeps_no_save :=
  repeat (try solve [ apply no_save_refl
                    | apply no_save_trans
                    | apply no_save_event
                    | reflexivity
                    | intros ?; unfold no_save; cbn; auto ];
          keeps_step_with not_saving).

(** A recording is stored only by a report callback: connecting,
    disconnecting, switching teach mode on or off, and starting or
    stopping playback never call [stop_record_trajectory] with a file
    name. *)
Theorem saving_only_on_report (hw : Arm) (w : Ctl) :
  (forall ip_in, no_save w (snd (connect hw ip_in w)))
  /\ no_save w (snd (disconnect hw w))
  /\ (forall enable, no_save w (snd (toggle_teach hw enable w)))
  /\ (forall ui_speed, no_save w (snd (start_playback ui_speed w)))
  /\ no_save w (snd (stop_playback w)).
Proof.
  repeat split; intros;
    match goal with |- no_save w (snd (?m w)) =>
      assert (K : keeps no_save m); [|apply K] end.
  - unfold connect. keeps_no_save.
  - unfold disconnect, _stop_playback_thread. keeps_no_save.
  - unfold toggle_teach, _ensure_report_callback. keeps_no_save.
  - unfold start_playback. keeps_no_save.
  - unfold stop_playback, _stop_playback_thread. keeps_no_save.
Qed.

Lemma same_recording_refl w : same_recording w w.
Proof. split; reflexivity. Qed.

Lemma same_recording_trans w1 w2 w3 :
  same_recording w1 w2 -> same_recording w2 w3 -> same_recording w1 w3.
Proof. unfold same_recording. intuition congruence. Qed.

Lemma same_recording_event w (e : event) :
  true = true -> same_recording w (with_trace (trace_of w ++ [e]) w).
Proof. split; reflexivity. Qed.

Ltac keeps_recording :=
  repeat (try solve [ apply same_recording_refl
                    | apply same_recording_trans
                    | apply same_recording_event
                    | reflexivity
                    | intros ?; unfold same_recording; cbn; auto ];
          keeps_step).

Lemma on_report_started (hw : Arm) (data : report) (now : R) (w : Ctl) :
  _record_started w = true -> no_start w (snd (_on_report hw data now w)).
Proof.
  intros Hs. destruct (joints_of data) as [[|x q]|] eqn:Hj.
  1,3: rewrite GradioFacts.on_report_unusable
    by (unfold DetectorSpec.usable; now rewrite Hj); apply GradioFacts.no_start_refl.
  destruct (detect (detect_cfg w) (_last_q w) (x :: q)) as [b|e] eqn:Hd.
  2:{ rewrite (GradioFacts.on_report_detect_raises hw data now w x q e Hj Hd).
      apply GradioFacts.no_start_refl. }
  rewrite (GradioFacts.on_report_usable hw data now w x q b Hj Hd). cbn [snd].
  apply (GradioFacts.no_start_trans _ (sampled (x :: q) w)).
  { repeat split; auto. }
  assert (Hs' : _record_started (sampled (x :: q) w) = true) by exact Hs.
  generalize dependent (sampled (x :: q) w). intros w0 Hs0.
  destruct b; [|apply GradioFacts.keeps_no_start_react].
  unfold react. rewrite bind_gets.
  destruct (teach_mode (state w0)); cbn [negb]; [|repeat split; auto].
  unfold set_last_motion_t. rewrite bind_modify, bind_gets. cbn [_record_started].
  rewrite Hs0. repeat split; auto.
Qed.

(** [_record_started] survives a disconnect, and then blocks the next
    session: after disconnecting, connecting again and entering teach
    mode, whatever the robot did in between, the flag is still set while
    [recording] is not, so that no report, however large its motion,
    starts a recording. *)
Theorem stale_record_flag_blocks_recording
        (hw : Arm) (ip_in : string) (data : report) (now : R) (w : Ctl) :
  _record_started w = true ->
  let w1 := run hw [DisconnectOp; Connect ip_in; ToggleTeach true] w in
  _record_started w1 = true
  /\ recording (state w1) = false
  /\ no_start w1 (exec hw (Report data now) w1).
Proof.
  intros Hs w1.
  assert (H : _record_started w1 = true /\ recording (state w1) = false).
  { subst w1. cbn [run exec].
    destruct (disconnect_outcome hw w) as (_ & _ & _ & _ & R0 & _ & _ & S0 & _).
    set (w0 := snd (disconnect hw w)) in *.
    assert (K1 : keeps same_recording (connect hw ip_in))
      by (unfold connect; keeps_recording).
    assert (K2 : keeps same_recording (toggle_teach hw true))
      by (unfold toggle_teach, _ensure_report_callback; keeps_recording).
    destruct (K1 w0) as (A1 & B1).
    destruct (K2 (snd (connect hw ip_in w0))) as (A2 & B2).
    split; congruence. }
  destruct H as (H1 & H2). split; [exact H1|]. split; [exact H2|].
  cbn [exec]. apply on_report_started. exact H1.
Qed.

(** ** Settings *)

(** [set_teach_sensitivity] never raises; the level it sends and stores is
    the requested one clamped to [0, 5]; it sends at most this one call,
    and none without a handle or without firmware support; the stored
    level changes only when the robot accepted the call, so that it stays
    within [0, 5]; nothing else of the session changes. *)
Theorem set_teach_sensitivity_clamps (hw : Arm) (level : Z) (w : Ctl) :
  let l := Z.max 0 (Z.min 5 level) in
  exists msg w',
    set_teach_sensitivity hw level w = (Val msg, w')
    /\ (0 <= l <= 5)%Z
    /\ (trace w' = trace w
        /\ teach_sensitivity (state w') = teach_sensitivity (state w)
        \/ has_arm w = true
           /\ has_attr hw "set_teach_sensitivity" = true
           /\ trace w' = (trace w ++ [SetTeachSensitivity l])%list
           /\ (teach_sensitivity (state w') = l
               /\ (exists a, respond hw (trace w) (SetTeachSensitivity l) = Returns a)
               \/ teach_sensitivity (state w') = teach_sensitivity (state w)
                  /\ exists e, respond hw (trace w) (SetTeachSensitivity l) = Raises e))
    /\ ((0 <= teach_sensitivity (state w) <= 5)%Z ->
        (0 <= teach_sensitivity (state w') <= 5)%Z)
    /\ same_flags w w'.
Proof.
  intros l. assert (Hl : (0 <= l <= 5)%Z) by (unfold l; lia).
  unfold set_teach_sensitivity. rewrite bind_gets.
  destruct (has_arm w) eqn:Ha; cbn [negb].
  2:{ exists "not connected", w. split; [reflexivity|]. split; [exact Hl|].
      split; [left; auto|]. split; [auto | repeat split]. }
  cbv zeta. fold l.
  destruct (has_attr hw "set_teach_sensitivity") eqn:Hat; cbn [negb].
  2:{ exists "teach sensitivity unsupported", w. split; [reflexivity|].
      split; [exact Hl|]. split; [left; auto|]. split; [auto | repeat split]. }
  unfold try_except. rewrite bind_call.
  destruct (respond hw (trace w) (SetTeachSensitivity l)) as [a|e] eqn:E.
  - eexists _, _. split; [reflexivity|]. split; [exact Hl|]. cbn.
    split; [right; repeat split; auto; left; split; [reflexivity | eauto]|].
    split; [intros _; exact Hl | repeat split].
  - eexists _, _. split; [reflexivity|]. split; [exact Hl|]. cbn.
    split; [right; repeat split; auto; right; split; [reflexivity | eauto]|].
    split; [auto | repeat split].
Qed.

(** [_snap_double_speed] takes only the values 1, 2 and 4, never decreases
    when the slider value grows, and switches at 1.5 and at 3. *)
Theorem snap_double_speed_steps (x y : R) :
  In (_snap_double_speed x) [1; 2; 4]%Z
  /\ ((x <= y)%R -> (_snap_double_speed x <= _snap_double_speed y)%Z)
  /\ (_snap_double_speed x = 4%Z <-> (3 <= x)%R)
  /\ (_snap_double_speed x = 2%Z <-> (15 / 10 <= x < 3)%R)
  /\ (_snap_double_speed x = 1%Z <-> (x < 15 / 10)%R).
Proof.
  unfold _snap_double_speed, Py.geb.
  destruct (Rge_dec x 3), (Rge_dec x (15 / 10)), (Rge_dec y 3), (Rge_dec y (15 / 10));
    cbn; repeat split; intros; try lia; try lra; try discriminate; auto.
Qed.

(** ** The theorems on example sessions *)

Import Scenarios.

Ltac run_example := vm_compute; reflexivity.

Lemma connect_succeeds_unless_raised_witness :
  let hw := obedient None in
  let w := init DetectConfig_default in
  installed hw = true
  /\ arm w = None
  /\ exists msg ok w',
      connect hw "192.168.1.221" w = (Val (msg, ok), w')
      /\ (ok = true <->
          exists a0 a1 a2 a3,
            respond hw (trace w) (Open "192.168.1.221") = Returns a0
            /\ respond hw (trace w ++ [Open "192.168.1.221"]) (MotionEnable true)
               = Returns a1
            /\ respond hw (trace w ++ [Open "192.168.1.221"; MotionEnable true])
                       (SetMode 0) = Returns a2
            /\ respond hw (trace w ++ [Open "192.168.1.221"; MotionEnable true;
                                       SetMode 0])
                       (SetState 0) = Returns a3)
      /\ (ok = true ->
          msg = "connected" /\ arm w' = Some "192.168.1.221"
          /\ connected (state w') = true /\ ip (state w') = "192.168.1.221")
      /\ (ok = false -> arm w' = None /\ connected (state w') = false).
Proof.
  cbv zeta. split; [reflexivity|]. split; [reflexivity|].
  apply (connect_succeeds_unless_raised (obedient None) "192.168.1.221"
           (init DetectConfig_default)); reflexivity.
Defined.

Lemma toggle_teach_status_faithful_witness :
  let hw := obedient None in
  let w := gradio_recording hw in
  has_arm w = true
  /\ exists msg w',
      toggle_teach hw false w = (Val msg, w')
      /\ (msg = "waiting" -> false = true /\ teach_mode (state w') = true)
      /\ (msg = "idle" ->
          false = false /\ teach_mode (state w') = false
          /\ recording (state w') = false /\ _cb_registered w' = false)
      /\ (msg <> "waiting" -> msg <> "idle" ->
          teach_mode (state w') = teach_mode (state w))
      /\ (false = false -> recording (state w') = false)
      /\ arm w' = arm w
      /\ connected (state w') = connected (state w).
Proof.
  cbv zeta. split; [run_example|].
  apply (toggle_teach_status_faithful (obedient None) false
           (gradio_recording (obedient None))).
  run_example.
Defined.

Lemma stale_record_flag_blocks_recording_witness :
  let hw := obedient None in
  let w := gradio_recording hw in
  let w1 := run hw [DisconnectOp; Connect "192.168.1.221"; ToggleTeach true] w in
  _record_started w = true
  /\ _record_started w1 = true
  /\ recording (state w1) = false
  /\ no_start w1 (exec hw (Report (angles [2%R]) 12) w1).
Proof.
  cbv zeta. split; [run_example|].
  apply (stale_record_flag_blocks_recording (obedient None) "192.168.1.221"
           (angles [2%R]) 12 (gradio_recording (obedient None))).
  run_example.
Defined.

Lemma set_teach_sensitivity_clamps_witness :
  let hw := obedient None in
  let w := gradio_teaching hw in
  (0 <= teach_sensitivity (state w) <= 5)%Z
  /\ (0 <= teach_sensitivity (state (snd (set_teach_sensitivity hw 9 w))) <= 5)%Z.
Proof.
  cbv zeta. split; [vm_compute; split; discriminate|].
  destruct (set_teach_sensitivity_clamps (obedient None) 9
              (gradio_teaching (obedient None)))
    as (msg & w' & E & _ & _ & H & _).
  rewrite E. apply H. vm_compute; split; discriminate.
Defined.

Lemma snap_double_speed_steps_witness :
  (1 <= 2)%R /\ (_snap_double_speed 1 <= _snap_double_speed 2)%Z.
Proof.
  split; [lra|]. apply (snap_double_speed_steps 1 2). lra.
Defined.

End GradioMore.

(* ================================================================== *)
(** * Motion threads: how many are alive *)
(* ================================================================== *)

Module MotionTasksFacts.

Import Sdk Eff Footprint EffFacts XArmController XArmSpec MotionSpec MotionTasks
       XArmFacts.
Local Open Scope eff_scope.

Lemma p2p_loop_frame (hw : Arm) (polls : nat) (amp speed accel : R) (ax : string)
      (w : Ctl) :
  frame w (snd (_p2p_loop hw polls amp speed accel ax w)).
Proof.
  unfold _p2p_loop. rewrite bind_gets.
  destruct (has_arm w); cbn [negb]; [|apply frame_refl].
  rewrite !bind_gets. cbv zeta.
  match goal with |- context [PoseMath.p2p_endpoints ?p ?r ?a ?m] =>
    destruct (PoseMath.p2p_endpoints p r a m) as [[[p_low p_high]|]|e]
  end; [|apply frame_refl|apply frame_refl].
  rewrite XArmMore.bind_sdk.
  destruct (respond hw (trace w) (SetTcpJerk 50000)) as [r|e].
  - match goal with |- context [bounce hw polls ?l ?h ?v ?a true ?x] =>
      destruct (XArmMore.bounce_moves hw polls l h v a true x) as (n & _ & _ & F & _)
    end.
    eapply frame_trans; [|exact F]. repeat split.
  - repeat split.
Qed.














Import Scenarios.



(** ** After a stop *)

Lemma event_kept_refl w : event_kept w w.
Proof. intros H. exact H. Qed.

Lemma event_kept_trans w1 w2 w3 :
  event_kept w1 w2 -> event_kept w2 w3 -> event_kept w1 w3.
Proof. unfold event_kept. auto. Qed.

Lemma event_kept_event w (e : event) :
  true = true -> event_kept w (with_trace (trace_of w ++ [e]) w).
Proof. intros _ H. exact H. Qed.

Lemma frame_event_kept w w' : frame w w' -> event_kept w w'.
Proof. unfold frame, event_kept. intros (_ & _ & -> & _) H. exact H. Qed.

Ltac keeps_event :=
  repeat (try solve [ apply event_kept_refl
                    | apply event_kept_trans
                    | apply event_kept_event
                    | reflexivity
                    | eapply keeps_weaken;
                      [apply frame_event_kept | apply keeps_frame_check]
                    | eapply keeps_weaken;
                      [apply frame_event_kept | apply keeps_frame_set_mode_and_ready]
                    | intros ?; cbn; unfold event_kept; cbn; auto ];
          keeps_step).

Lemma keeps_event_stop_motion (hw : Arm) : keeps event_kept (stop_motion hw).
Proof. unfold stop_motion, stop_finish, unpack6. keeps_event. Qed.

Lemma exec_event_kept (hw : Arm) (o : op) (w : Ctl) :
  not_play o = true -> event_kept w (exec hw o w).
Proof.
  intros Hn. destruct o; try discriminate Hn; cbn [exec].
  - assert (K : keeps event_kept (connect hw ip_in)); [|apply K].
    unfold connect. keeps_event.
  - assert (K : keeps event_kept (disconnect hw)); [|apply K].
    unfold disconnect.
    repeat (try solve [apply keeps_event_stop_motion]; keeps_event).
  - assert (K : keeps event_kept (toggle_teach hw)); [|apply K].
    unfold toggle_teach.
    repeat (try solve [apply keeps_event_stop_motion]; keeps_event).
  - apply keeps_event_stop_motion.
  - unfold run_motion_thread. rewrite bind_gets.
    destruct (_motion_thread w) as [t|]; [|apply event_kept_refl].
    destruct (is_alive t); [|apply event_kept_refl].
    rewrite XArmMore.bind_attempt. unfold set_motion_thread, modify.
    cbn -[_p2p_loop].
    pose proof (p2p_loop_frame hw polls (amp_mm t) (speed_percent t)
                  (accel_percent t) (axis t) w) as F.
    apply frame_event_kept in F. intros H. apply F in H. exact H.
Qed.

Lemma step_event_kept (hw : Arm) (t : task_op) (p : Pool) :
  quiet t = true -> event_kept (ctl p) (ctl (step hw t p)).
Proof.
  intros Hq. destruct t as [o|i polls].
  - cbn [quiet] in Hq. destruct o; try discriminate Hq; cbn [step ctl];
      apply exec_event_kept; reflexivity.
  - cbn [step]. destruct (nth_error (released p) i) as [t|]; [|apply event_kept_refl].
    destruct (is_alive t); [|apply event_kept_refl]. cbn [ctl].
    apply frame_event_kept, p2p_loop_frame.
Qed.

Lemma run_pool_event_kept (hw : Arm) (ts : list task_op) (p : Pool) :
  forallb quiet ts = true -> event_kept (ctl p) (ctl (run_pool hw ts p)).
Proof.
  revert p. induction ts as [|t rest IH]; intros p Hn; [apply event_kept_refl|].
  cbn [forallb] in Hn. apply andb_prop in Hn. destruct Hn as (Ht & Hrest).
  cbn [run_pool].
  eapply event_kept_trans; [apply step_event_kept, Ht | apply IH, Hrest].
Qed.

(** After [stop_motion] on a connected, playing session the stop event is
    set and [playing] is cleared; the event then stays set through every
    command other than play and every run of a motion thread; and as long
    as it is set no motion thread commands a move, however often it polls:
    neither the thread in the slot nor any other thread running
    [_p2p_loop] on this controller.  (The next play clears the event.) *)
Theorem stop_silences_threads_until_play
        (hw : Arm) (ts : list task_op) (others : list Thread) (polls : nat)
        (amp speed accel : R) (ax : string) (w : Ctl) :
  not_connected w = false ->
  playing (state w) = true ->
  forallb quiet ts = true ->
  let w1 := snd (stop_motion hw w) in
  let w2 := ctl (run_pool hw ts {| ctl := w1; released := others |}) in
  _stop_event w1 = true
  /\ playing (state w1) = false
  /\ _stop_event w2 = true
  /\ no_new_move w2 (snd (run_motion_thread hw polls w2))
  /\ no_new_move w2 (snd (_p2p_loop hw polls amp speed accel ax w2)).
Proof.
  intros Hnc Hp Hn w1 w2.
  destruct (XArmMore.stop_motion_session hw w Hnc)
    as (msg & w' & E & _ & _ & _ & Hpl & Hev).
  assert (H1 : _stop_event w1 = true) by (subst w1; rewrite E; auto).
  assert (H2 : _stop_event w2 = true).
  { apply (run_pool_event_kept hw ts {| ctl := w1; released := others |} Hn), H1. }
  split; [exact H1|]. split; [subst w1; rewrite E; exact Hpl|].
  split; [exact H2|]. split.
  - apply XArmMore.run_motion_thread_stopped, H2.
  - apply XArmMore.p2p_loop_stopped, H2.
Qed.

Lemma stop_silences_threads_until_play_witness :
  let hw := obedient (Some home_pose) in
  let w := xarm_playing hw in
  let ts := [Command ToggleTeach; Command (MotionThreadRuns 2); ReleasedRuns 0 2;
             Command (Connect "192.168.1.221"); Command Stop] in
  let others := [started_thread 5 50 50 "x"] in
  let w1 := snd (stop_motion hw w) in
  let w2 := ctl (run_pool hw ts {| ctl := w1; released := others |}) in
  not_connected w = false
  /\ playing (state w) = true
  /\ forallb quiet ts = true
  /\ _stop_event w1 = true
  /\ playing (state w1) = false
  /\ _stop_event w2 = true
  /\ no_new_move w2 (snd (run_motion_thread hw 3 w2))
  /\ no_new_move w2 (snd (_p2p_loop hw 3 50 50 50 "z" w2)).
Proof.
  cbv zeta. apply conj; [vm_compute; reflexivity|].
  apply conj; [vm_compute; reflexivity|]. apply conj; [reflexivity|].
  apply (stop_silences_threads_until_play (obedient (Some home_pose))
           [Command ToggleTeach; Command (MotionThreadRuns 2); ReleasedRuns 0 2;
            Command (Connect "192.168.1.221"); Command Stop]
           [started_thread 5 50 50 "x"]
           3 50 50 50 "z" (xarm_playing (obedient (Some home_pose)))).
  - vm_compute; reflexivity.
  - vm_compute; reflexivity.
  - reflexivity.
Defined.

End MotionTasksFacts.
